(** * KeepKey node: transport and session layer, checked against its code

    A shallow embedding of the parts of the KeepKey n8n node that its
    specification speaks about, the properties C1 to C10 settled on it, and
    further properties X1 to X27 of the same code and of the code around it.

    Definitions, from the source:
    - [Js]: the JavaScript values and operations the code relies on (numbers,
      strings, [parseInt], [toUpperCase], own and inherited properties,
      truthiness, thrown errors, JSON values);
    - [DerivationPaths]: the templates, [parseDerivationPath],
      [buildDerivationPath], [getDerivationPath], [pathStringToArray],
      [pathArrayToString] and [getCoinType] of constants/derivationPaths.ts;
    - [UsbTransport]: [write], [read] and the packet framing and reassembly
      of [UsbTransport.sendMessage] (transport/usbTransport.ts);
    - [Http]: [fetch] against a far side that is a parameter, what the code
      takes from a reply, and the monad of the asynchronous methods (object,
      world, result or thrown error);
    - [BridgeTransport]: the Bridge transport (transport/bridgeTransport.ts);
    - [KeepKeyClient]: the client (transport/keepKeyClient.ts);
    - [Operations]: the public operations as data, and the two invariants;
    - [Simulation]: a daemon with one device, to run the methods on;
    - [UsbObject]: the USB transport object and its methods;
    - [Traffic]: sequences of operations and the requests they issue;
    - [PinUtils]: [isValidPin] and [encodePin] of utils/pinUtils.ts;
    - [KeepKeyNode]: the configuration and the [enterPin] operation of
      KeepKey.node.ts;
    - [SwapUtils]: the THORChain memo and asset strings of utils/swapUtils.ts.

    Theorems: [JsFacts], [DerivationPathFacts] (C9),
    [DerivationTemplateFacts] (X1 to X5), [UsbFacts] (C2),
    [UsbFramingFacts] (X6), [UsbReceiveFacts] (X7), [UsbObjectFacts] (X8, X9),
    [UsbExchangeFacts] (C1), [Hoare] (rules for pre- and postconditions),
    [ClientFacts] (C4, C5, C6, C7, C10), [ClientLifecycleFacts] (X10 to X15),
    [ClientConfigFacts] (X16), [BridgeFacts] (C3), [BridgeLifecycleFacts]
    (X17 to X20, X27), [BridgeTrafficFacts] (X21), [InvariantFacts] (C8),
    [PinFacts] (X22), [NodeFacts] (X23, X24), [SwapFacts] (X25, X26),
    [Examples]. *)

From Stdlib Require Import ZArith List Bool Ascii String Lia.
Import ListNotations.

Open Scope string_scope.
Open Scope Z_scope.

(** ** JavaScript values used by the code *)

Module Js.

(** A JavaScript number as the code uses it: an integer or [NaN].  The code
    only adds, subtracts and compares integers; they are exact in a double
    below [2^53], which covers every index the theorems speak about. *)
Inductive number : Type :=
| NaN
| Num (z : Z).

Definition add (a b : number) : number :=
  match a, b with
  | Num x, Num y => Num (x + y)
  | _, _ => NaN
  end.

Definition sub (a b : number) : number :=
  match a, b with
  | Num x, Num y => Num (x - y)
  | _, _ => NaN
  end.

(** [a >= b]: false as soon as one side is [NaN]. *)
Definition geb (a b : number) : bool :=
  match a, b with
  | Num x, Num y => y <=? x
  | _, _ => false
  end.

Definition is_digit (c : ascii) : bool :=
  let n := nat_of_ascii c in (48 <=? n)%nat && (n <=? 57)%nat.

Definition digit_val (c : ascii) : Z := Z.of_nat (nat_of_ascii c) - 48.

Definition digit_char (d : Z) : ascii := ascii_of_nat (48 + Z.to_nat d).

(** Decimal digits of a non-negative integer, most significant first, put in
    front of [acc].  The loop of [Number.prototype.toString]; [fuel] bounds
    the number of digits. *)
Fixpoint to_digits (fuel : nat) (n : Z) (acc : string) : string :=
  match fuel with
  | O => acc
  | S f =>
      let acc' := String (digit_char (n mod 10)) acc in
      if n / 10 =? 0 then acc' else to_digits f (n / 10) acc'
  end.

Definition digits_of (n : Z) : string :=
  to_digits (S (Z.to_nat (Z.log2 n))) n "".

(** [n.toString()], and what a template literal prints for [n]: the decimal
    digits, for an integer of less than 22 digits.  From [1e21] on the source
    prints an exponent; the theorems that print a number bound it. *)
Definition toString (n : number) : string :=
  match n with
  | NaN => "NaN"
  | Num z => if z <? 0 then "-" ++ digits_of (- z) else digits_of z
  end.

Definition is_space (c : ascii) : bool :=
  let n := nat_of_ascii c in
  ((9 <=? n)%nat && (n <=? 13)%nat) || (n =? 32)%nat.

Fixpoint skip_spaces (s : string) : string :=
  match s with
  | String c r => if is_space c then skip_spaces r else s
  | EmptyString => s
  end.

(** Value of the longest prefix of decimal digits of [s], continuing [acc]. *)
Fixpoint digits_val (s : string) (acc : Z) : Z :=
  match s with
  | String c r => if is_digit c then digits_val r (10 * acc + digit_val c) else acc
  | EmptyString => acc
  end.

Definition starts_with_digit (s : string) : bool :=
  match s with
  | String c _ => is_digit c
  | EmptyString => false
  end.

Definition unsigned_int (s : string) : option Z :=
  if starts_with_digit s then Some (digits_val s 0) else None.

(** [parseInt(s, 10)]: leading white space, an optional sign, then the longest
    run of digits; [NaN] when there is no digit.  What follows the digits is
    ignored. *)
Definition parseInt (s : string) : number :=
  match skip_spaces s with
  | String "-" r =>
      match unsigned_int r with Some v => Num (- v) | None => NaN end
  | String "+" r =>
      match unsigned_int r with Some v => Num v | None => NaN end
  | r =>
      match unsigned_int r with Some v => Num v | None => NaN end
  end.

(** The rest of [s] after its first [n] characters. *)
Fixpoint drop (n : nat) (s : string) : string :=
  match n, s with
  | S k, String _ r => drop k r
  | _, _ => s
  end.

(** [s.replace(pat, rep)] for a string pattern: the first occurrence only. *)
Fixpoint replace (pat rep s : string) : string :=
  if prefix pat s then rep ++ drop (String.length pat) s
  else match s with
       | String c r => String c (replace pat rep r)
       | EmptyString => EmptyString
       end.

(** [s.split(sep)] for a separator of one character. *)
Fixpoint split (sep : ascii) (s : string) : list string :=
  match s with
  | EmptyString => [EmptyString]
  | String c r =>
      if Ascii.eqb c sep then EmptyString :: split sep r
      else match split sep r with
           | p :: ps => String c p :: ps
           | [] => [String c EmptyString]
           end
  end.

(** [s.endsWith(suffix)]. *)
Definition endsWith (s suffix : string) : bool :=
  let n := String.length s in
  let m := String.length suffix in
  (m <=? n)%nat && String.eqb (drop (n - m) s) suffix.

(** [s.replace(/[...]/g, '')] for a character class given as a predicate. *)
Fixpoint remove_chars (cls : ascii -> bool) (s : string) : string :=
  match s with
  | EmptyString => EmptyString
  | String c r => if cls c then remove_chars cls r else String c (remove_chars cls r)
  end.


(** Every character of [s] satisfies [p]. *)
Fixpoint all_chars (p : ascii -> bool) (s : string) : bool :=
  match s with
  | EmptyString => true
  | String c r => p c && all_chars p r
  end.

(** [s] without its last character. *)
Fixpoint dropLast (s : string) : string :=
  match s with
  | EmptyString => EmptyString
  | String c EmptyString => EmptyString
  | String c r => String c (dropLast r)
  end.

(** A numeral without leading zero: not empty, and a first digit that is not
    [0] unless it is the only one. *)
Definition no_leading_zero (s : string) : bool :=
  match s with
  | EmptyString => false
  | String c r => negb (Ascii.eqb c "0") || String.eqb r EmptyString
  end.

(** A thrown JavaScript error: its [name] and its [message]. *)
Record error : Type := mkError { name : string; message : string }.

Definition Error (msg : string) : error := mkError "Error" msg.
Definition TypeError (msg : string) : error := mkError "TypeError" msg.
Definition RangeError (msg : string) : error := mkError "RangeError" msg.

(** The outcome of a call that may throw. *)
Inductive result (A : Type) : Type :=
| Ok (a : A)
| Throw (e : error).
Arguments Ok {A} a.
Arguments Throw {A} e.

Set Warnings "-register-all".

(** JSON values, for message payloads ([Record<string, unknown>] and the
    [message] of a reply).  [JUndefined] is the value of an absent property. *)
Inductive jsval : Type :=
| JUndefined
| JNull
| JBool (b : bool)
| JNum (z : Z)
| JStr (s : string)
| JArr (items : list jsval)
| JObj (fields : list (string * jsval)).

Fixpoint lookup (k : string) (fields : list (string * jsval)) : jsval :=
  match fields with
  | [] => JUndefined
  | (k', v) :: rest => if String.eqb k k' then v else lookup k rest
  end.

(** [v.k] or [v[k]]: a [TypeError] on [undefined] and [null]. *)
Definition getProp (v : jsval) (k : string) : result jsval :=
  match v with
  | JUndefined => Throw (TypeError ("Cannot read properties of undefined (reading '" ++ k ++ "')"))
  | JNull => Throw (TypeError ("Cannot read properties of null (reading '" ++ k ++ "')"))
  | JObj fields => Ok (lookup k fields)
  | JStr s => Ok (if String.eqb k "length" then JNum (Z.of_nat (String.length s)) else JUndefined)
  | JArr items => Ok (if String.eqb k "length" then JNum (Z.of_nat (List.length items)) else JUndefined)
  | JBool _ | JNum _ => Ok JUndefined
  end.

(** [{ ...fields, k: v }]: an existing key keeps its place and takes the new
    value, a new key goes last. *)
Fixpoint setField (k : string) (v : jsval) (fields : list (string * jsval))
  : list (string * jsval) :=
  match fields with
  | [] => [(k, v)]
  | (k', v') :: rest =>
      if String.eqb k k' then (k, v) :: rest else (k', v') :: setField k v rest
  end.

(** [{ ...a, ...b }]. *)
Definition spread (a b : list (string * jsval)) : list (string * jsval) :=
  fold_left (fun acc kv => setField (fst kv) (snd kv) acc) b a.

(** [x || d] for an optional value with the given falsy test. *)
Definition or_default {A : Type} (falsy : A -> bool) (x : option A) (d : A) : A :=
  match x with
  | Some a => if falsy a then d else a
  | None => d
  end.

Definition falsy_string (s : string) : bool := String.eqb s "".
Definition falsy_num (z : Z) : bool := z =? 0.
Definition falsy_bool (b : bool) : bool := negb b.

(** A value that the code takes for a [string | null], or for an optional
    [string]: a member of the body of a reply is [Undefined] when the body
    has none, and [Null] when the body gives [null] for it. *)
Inductive nullable : Type :=
| Undefined
| Null
| Str (s : string).

(** [!x] for such a value. *)
Definition falsy_nullable (x : nullable) : bool :=
  match x with
  | Str s => falsy_string s
  | Undefined | Null => true
  end.

(** [x || d] for such a value. *)
Definition nullable_or (x : nullable) (d : string) : string :=
  match x with
  | Str s => if falsy_string s then d else s
  | Undefined | Null => d
  end.

(** [a !== b] for two such values. *)
Definition strict_differs (a b : nullable) : bool :=
  match a, b with
  | Undefined, Undefined => false
  | Null, Null => false
  | Str x, Str y => negb (String.eqb x y)
  | _, _ => true
  end.

(** What a template literal prints for such a value. *)
Definition show_nullable (x : nullable) : string :=
  match x with
  | Str s => s
  | Null => "null"
  | Undefined => "undefined"
  end.

(** [s.toUpperCase()], for a string of ASCII characters: the letters [a] to
    [z] become [A] to [Z], every other character stays. *)
Definition is_ascii (c : ascii) : bool := (nat_of_ascii c <? 128)%nat.

Definition upper (c : ascii) : ascii :=
  let n := nat_of_ascii c in
  if (97 <=? n)%nat && (n <=? 122)%nat then ascii_of_nat (n - 32) else c.

Fixpoint toUpperCase (s : string) : string :=
  match s with
  | EmptyString => EmptyString
  | String c r => String (upper c) (toUpperCase r)
  end.

(** An object literal with string values, its keys in the order written, and
    [o[k]] on it.  A key the literal does not have is looked up on
    [Object.prototype]: [inherited] tells the names found there, whose values
    are functions (an object for [__proto__]), none of them a string. *)
Definition own {A : Type} (k : string) (fields : list (string * A)) : option A :=
  option_map snd (find (fun kv => String.eqb k (fst kv)) fields).

Definition inherited (k : string) : bool :=
  existsb (String.eqb k)
    ["constructor"; "__defineGetter__"; "__defineSetter__"; "hasOwnProperty";
     "__lookupGetter__"; "__lookupSetter__"; "isPrototypeOf"; "propertyIsEnumerable";
     "toString"; "valueOf"; "__proto__"; "toLocaleString"].

(** A string that is present and not empty, for the operands of [||] and the
    test of [?:]. *)
Definition truthy (s : option string) : option string :=
  match s with
  | Some x => if falsy_string x then None else Some x
  | None => None
  end.

(** [Number.isSafeInteger(z)]: the integers a number holds exactly. *)
Definition safe_integer (z : Z) : Prop := - 2 ^ 53 < z < 2 ^ 53.

(** The characters of a printed integer: digits, after a sign when it is
    negative. *)
Definition numeral_char (c : ascii) : bool := is_digit c || Ascii.eqb c "-".

Definition no_brace (c : ascii) : bool := negb (Ascii.eqb c "{").

(** An argument that may be left out, with the default of the parameter. *)
Definition default_arg {A : Type} (d : A) (x : option A) : A :=
  match x with Some v => v | None => d end.

End Js.

(** ** constants/derivationPaths.ts *)

Module DerivationPaths.
Import Js.

Definition HARDENED_OFFSET : Z := 0x80000000.

(** The character class of the regular expression [/['h]/g]. *)
Definition quote_or_h (c : ascii) : bool :=
  Ascii.eqb c "'" || Ascii.eqb c "h".

(** The callback of [map] in [pathStringToArray]: one part of the path. *)
Definition readPart (part : string) : number :=
  let isHardened := endsWith part "'" || endsWith part "h" in
  let value := parseInt (remove_chars quote_or_h part) in
  if isHardened then add value (Num HARDENED_OFFSET) else value.

Definition pathStringToArray (path : string) : list number :=
  map readPart (split "/" (replace "m/" "" path)).

(** The callback of [map] in [pathArrayToString]: one index of the array. *)
Definition showIndex (n : number) : string :=
  let hardened := geb n (Num HARDENED_OFFSET) in
  let value := if hardened then sub n (Num HARDENED_OFFSET) else n in
  if hardened then toString value ++ "'" else toString value.

Definition pathArrayToString (pathArray : list number) : string :=
  "m/" ++ String.concat "/" (map showIndex pathArray).

(** Well-formed path strings, for the statement of the round trip: [m/]
    followed by one or more parts separated by [/]; a part is an index below
    [2^31] in decimal without leading zero, with or without a closing ['] . *)
Definition canonical_index (ds : string) : bool :=
  all_chars is_digit ds && no_leading_zero ds && (digits_val ds 0 <? HARDENED_OFFSET).

Definition well_formed_part (part : string) : bool :=
  canonical_index part || (endsWith part "'" && canonical_index (dropLast part)).

Definition well_formed_path (path : string) : bool :=
  prefix "m/" path && forallb well_formed_part (split "/" (drop 2 path)).

(** [DERIVATION_TEMPLATES]. *)
Definition DERIVATION_TEMPLATES : list (string * list (string * string)) :=
  [("BTC", [("legacy", "m/44'/0'/{account}'/0/{index}");
            ("segwit", "m/49'/0'/{account}'/0/{index}");
            ("nativeSegwit", "m/84'/0'/{account}'/0/{index}");
            ("taproot", "m/86'/0'/{account}'/0/{index}")]);
   ("LTC", [("legacy", "m/44'/2'/{account}'/0/{index}");
            ("segwit", "m/49'/2'/{account}'/0/{index}");
            ("nativeSegwit", "m/84'/2'/{account}'/0/{index}")]);
   ("DOGE", [("legacy", "m/44'/3'/{account}'/0/{index}")]);
   ("BCH", [("legacy", "m/44'/145'/{account}'/0/{index}")]);
   ("DASH", [("legacy", "m/44'/5'/{account}'/0/{index}")]);
   ("ETH", [("default", "m/44'/60'/{account}'/0/{index}")]);
   ("ATOM", [("default", "m/44'/118'/{account}'/0/{index}")]);
   ("RUNE", [("default", "m/44'/931'/{account}'/0/{index}")]);
   ("OSMO", [("default", "m/44'/118'/{account}'/0/{index}")])].

(** [DerivationPathParams]; [ParsedDerivationPath] has the same members. *)
Record DerivationPathParams : Type := mkParams {
  purpose : number;
  coinType : number;
  account : number;
  change : number;
  addressIndex : number
}.

Definition ParsedDerivationPath : Type := DerivationPathParams.

(** [parsePart(parts[i])]: [parts[i]] is [undefined] past the end of the
    array, and [part.replace] then throws. *)
Definition parsePart (part : option string) : result number :=
  match part with
  | Some p => Ok (parseInt (remove_chars quote_or_h p))
  | None => Throw (TypeError "Cannot read properties of undefined (reading 'replace')")
  end.

(** [parts[i] ? parsePart(parts[i]) : 0]. *)
Definition parsePartOrZero (part : option string) : number :=
  match truthy part with
  | Some p => parseInt (remove_chars quote_or_h p)
  | None => Num 0
  end.

Definition parseDerivationPath (path : string) : result ParsedDerivationPath :=
  let parts := split "/" (replace "m/" "" path) in
  match parsePart (nth_error parts 0) with
  | Throw e => Throw e
  | Ok purpose =>
      match parsePart (nth_error parts 1) with
      | Throw e => Throw e
      | Ok coinType =>
          match parsePart (nth_error parts 2) with
          | Throw e => Throw e
          | Ok account =>
              Ok (mkParams purpose coinType account
                           (parsePartOrZero (nth_error parts 3))
                           (parsePartOrZero (nth_error parts 4)))
          end
      end
  end.

Definition buildDerivationPath (params : DerivationPathParams) : string :=
  ("m/" ++ toString (purpose params) ++ "'/" ++ toString (coinType params) ++ "'/" ++
   toString (account params) ++ "'/") ++
  (toString (change params) ++ "/" ++ toString (addressIndex params)).

(** [template.replace('{account}', account.toString())
            .replace('{index}', index.toString())]. *)
Definition fillTemplate (template : string) (account index : number) : string :=
  replace "{index}" (toString index) (replace "{account}" (toString account) template).

(** [getDerivationPath(coin, addressType = 'legacy', account = 0, index = 0)].
    The template is
    [templates[addressType] || templates.default || Object.values(templates)[0]]. *)
Definition getDerivationPath (coin : string) (addressType : option string)
  (account index : option number) : result string :=
  let addressType := default_arg "legacy" addressType in
  let account := default_arg (Num 0) account in
  let index := default_arg (Num 0) index in
  match own (toUpperCase coin) DERIVATION_TEMPLATES with
  | None => Throw (Error ("Unknown coin: " ++ coin))
  | Some templates =>
      match truthy (own addressType templates) with
      | Some template => Ok (fillTemplate template account index)
      | None =>
          if inherited addressType then Throw (TypeError "template.replace is not a function")
          else
            match truthy (own "default" templates) with
            | Some template => Ok (fillTemplate template account index)
            | None =>
                match templates with
                | (_, template) :: _ => Ok (fillTemplate template account index)
                | [] => Throw (TypeError "Cannot read properties of undefined (reading 'replace')")
                end
            end
      end
  end.

(** [getCoinType(coin)]. *)
Definition getCoinType (coin : string) : Z :=
  let coinTypes :=
    [("BTC", 0); ("LTC", 2); ("DOGE", 3); ("DASH", 5); ("ETH", 60); ("ATOM", 118);
     ("RUNE", 931)] in
  match own (toUpperCase coin) coinTypes with
  | Some v => v
  | None => 0
  end.

End DerivationPaths.

(** ** constants/usbIds.ts and constants/events.ts *)

Module Constants.

Definition KEEPKEY_VENDOR_ID : Z := 0x2b24.
Definition KEEPKEY_PRODUCT_ID : Z := 0x0001.
Definition PACKET_SIZE : nat := 64.
Definition DEFAULT_URL : string := "http://localhost:1646".
Definition TIMEOUT_OPERATION : Z := 30000.

Module DEVICE_EVENTS.
Definition CONNECTED := "device:connected".
Definition DISCONNECTED := "device:disconnected".
Definition BUTTON_REQUEST := "device:buttonRequest".
Definition PIN_REQUEST := "device:pinRequest".
Definition PASSPHRASE_REQUEST := "device:passphraseRequest".
Definition WORD_REQUEST := "device:wordRequest".
Definition FAILURE := "device:failure".
Definition SUCCESS := "device:success".
End DEVICE_EVENTS.

Module MESSAGE_TYPES.
Definition Initialize : Z := 0.
Definition Ping : Z := 1.
Definition Success : Z := 2.
Definition Failure : Z := 3.
Definition ChangePin : Z := 4.
Definition WipeDevice : Z := 5.
Definition GetEntropy : Z := 9.
Definition ResetDevice : Z := 14.
Definition Features : Z := 17.
Definition PinMatrixRequest : Z := 18.
Definition PinMatrixAck : Z := 19.
Definition Cancel : Z := 20.
Definition ClearSession : Z := 24.
Definition ApplySettings : Z := 25.
Definition ButtonRequest : Z := 26.
Definition ButtonAck : Z := 27.
Definition PassphraseRequest : Z := 41.
Definition PassphraseAck : Z := 42.
Definition RecoveryDevice : Z := 45.
Definition WordRequest : Z := 46.
Definition WordAck : Z := 47.
End MESSAGE_TYPES.

End Constants.

(** ** transport/usbTransport.ts: packet framing of [sendMessage] *)

Module UsbTransport.
Import Js Constants.

(** A Node [Buffer]: its bytes, each in [0, 255]. *)
Definition Buffer : Type := list Z.

(** [Buffer.alloc(n)]. *)
Definition alloc (n : nat) : Buffer := repeat 0 n.

(** [buf[i] = v]: nothing happens out of range. *)
Fixpoint setByte (buf : Buffer) (i : nat) (v : Z) : Buffer :=
  match buf, i with
  | [], _ => []
  | _ :: rest, O => (v mod 256) :: rest
  | b :: rest, S k => b :: setByte rest k v
  end.

(** [overwrite target at bytes]: [bytes] written over [target] from index
    [at], as far as [target] reaches. *)
Fixpoint overwrite (target : Buffer) (at_ : nat) (bytes : Buffer) : Buffer :=
  match target, at_ with
  | [], _ => []
  | t :: rest, S k => t :: overwrite rest k bytes
  | t :: rest, O =>
      match bytes with
      | [] => target
      | b :: bs => b :: overwrite rest O bs
      end
  end.

(** [source.copy(target, targetStart, sourceStart, sourceEnd)]; the value is
    the target after the copy. *)
Definition copy (source target : Buffer) (targetStart sourceStart sourceEnd : nat)
  : Buffer :=
  overwrite target targetStart (firstn (sourceEnd - sourceStart) (skipn sourceStart source)).

(** [buf.subarray(start)]. *)
Definition subarray (buf : Buffer) (start : nat) : Buffer := skipn start buf.

(** [buf.writeUInt16BE(value, offset)]: a [RangeError] outside [0, 65535]. *)
Definition writeUInt16BE (buf : Buffer) (value : Z) (offset : nat) : result Buffer :=
  if (0 <=? value) && (value <=? 65535) then
    Ok (overwrite buf offset [value / 256; value mod 256])
  else Throw (RangeError "The value of value is out of range.").

(** [buf.writeUInt32BE(value, offset)]: a [RangeError] outside [0, 2^32 - 1]. *)
Definition writeUInt32BE (buf : Buffer) (value : Z) (offset : nat) : result Buffer :=
  if (0 <=? value) && (value <=? 4294967295) then
    Ok (overwrite buf offset
          [value / 16777216; (value / 65536) mod 256; (value / 256) mod 256; value mod 256])
  else Throw (RangeError "The value of value is out of range.").

(** [buf.readUInt16BE(offset)]: a [RangeError] when the two bytes are not
    inside the buffer. *)
Definition readUInt16BE (buf : Buffer) (offset : nat) : result Z :=
  match skipn offset buf with
  | b1 :: b0 :: _ => Ok (b1 * 256 + b0)
  | _ => Throw (RangeError "Attempt to access memory outside buffer bounds")
  end.

(** [buf.readUInt32BE(offset)]. *)
Definition readUInt32BE (buf : Buffer) (offset : nat) : result Z :=
  match skipn offset buf with
  | b3 :: b2 :: b1 :: b0 :: _ => Ok (b3 * 16777216 + b2 * 65536 + b1 * 256 + b0)
  | _ => Throw (RangeError "Attempt to access memory outside buffer bounds")
  end.

(** [Buffer.concat(list, totalLength)]: the buffers one after the other, cut
    at [totalLength] or filled with zero bytes up to it. *)
Definition concat (bufs : list Buffer) (totalLength : nat) : Buffer :=
  let all := List.concat bufs in
  (firstn totalLength all ++ repeat 0 (totalLength - List.length all))%list.

(** [this.handle], of type [unknown]: [null] ([None]) or an object of the
    HID library.  The source leaves the calls into the library as comments:
    the handle starts as [null] and no method assigns an object to it. *)
Inductive Hid : Type := HidHandle.

Record t : Type := mk {
  handle : option Hid;
  connected : bool
}.

(** [write(data)]: the report is built and its length returned. *)
Definition write (self : t) (data : Buffer) : result Z :=
  match handle self with
  | Some _ =>
      if connected self then
        let packet := alloc (PACKET_SIZE + 1) in
        let packet := setByte packet 0 0 in
        let packet := copy data packet 1 0 (Nat.min (List.length data) PACKET_SIZE) in
        Ok (Z.of_nat (List.length packet))
      else Throw (Error "Device not connected")
  | None => Throw (Error "Device not connected")
  end.

(** [read(timeout)]: the call into the HID library is a comment, and the
    answer is [Buffer.alloc(0)]. *)
Definition read (self : t) : result Buffer * t :=
  match handle self with
  | Some _ =>
      if connected self then (Ok (alloc 0), self)
      else (Throw (Error "Device not connected"), self)
  | None => (Throw (Error "Device not connected"), self)
  end.

(** The 7-byte header of [sendMessage]. *)
Definition makeHeader (messageType : Z) (message : Buffer) : result Buffer :=
  let header := alloc 7 in
  let header := setByte header 0 0x3f in
  match writeUInt16BE header messageType 1 with
  | Throw e => Throw e
  | Ok header => writeUInt32BE header (Z.of_nat (List.length message)) 3
  end.

(** The loop [for (let i = 0; i < fullMessage.length; i += PACKET_SIZE - 1)]:
    the packets from index [i] on.  [fuel] bounds the number of rounds. *)
Fixpoint packetsFrom (fuel : nat) (fullMessage : Buffer) (i : nat) : list Buffer :=
  match fuel with
  | O => []
  | S f =>
      if (i <? List.length fullMessage)%nat then
        let packet := alloc PACKET_SIZE in
        let packet := setByte packet 0 (if (i =? 0)%nat then 0x3f else 0x3f) in
        let packet :=
          copy fullMessage packet 1 i
               (Nat.min (i + PACKET_SIZE - 1) (List.length fullMessage)) in
        packet :: packetsFrom f fullMessage (i + PACKET_SIZE - 1)
      else []
  end.

(** The packets [sendMessage] writes for a message. *)
Definition framePackets (messageType : Z) (message : Buffer) : result (list Buffer) :=
  match makeHeader messageType message with
  | Throw e => Throw e
  | Ok header =>
      let fullMessage := (header ++ message)%list in
      Ok (packetsFrom (List.length fullMessage) fullMessage 0)
  end.

(** [for (const packet of packets) await this.write(packet)]. *)
Fixpoint writeAll (self : t) (packets : list Buffer) : result unit :=
  match packets with
  | [] => Ok tt
  | p :: rest =>
      match write self p with
      | Throw e => Throw e
      | Ok _ => writeAll self rest
      end
  end.

(** The variables of the reading loop. *)
Record Rx : Type := mkRx {
  responsePackets : list Buffer;
  totalLength : Z;
  expectedLength : Z;
  responseType : Z
}.

Definition rx0 : Rx := mkRx [] 0 0 0.

(** One packet of non-zero length taken into the loop variables. *)
Definition accept (rx : Rx) (packet : Buffer) : result Rx :=
  if (List.length (responsePackets rx) =? 0)%nat && (nth 0 packet (-1) =? 0x3f) then
    match readUInt16BE packet 1 with
    | Throw e => Throw e
    | Ok ty =>
        match readUInt32BE packet 3 with
        | Throw e => Throw e
        | Ok len =>
            Ok (mkRx (responsePackets rx ++ [subarray packet 7])
                     (totalLength rx + (Z.of_nat (List.length packet) - 7))
                     len ty)
        end
    end
  else
    Ok (mkRx (responsePackets rx ++ [subarray packet 1])
             (totalLength rx + (Z.of_nat (List.length packet) - 1))
             (expectedLength rx) (responseType rx)).

(** The loop [while (true)] as a function of the packets its calls of [read]
    answer, one after the other; the value is the loop variables at the
    [break] and the packets left unread.  A list that is used up reads as a
    packet of length zero. *)
Fixpoint receive (incoming : list Buffer) (rx : Rx) : result Rx * list Buffer :=
  match incoming with
  | [] => (Ok rx, [])
  | packet :: rest =>
      if (List.length packet =? 0)%nat then (Ok rx, rest)
      else
        match accept rx packet with
        | Throw e => (Throw e, rest)
        | Ok rx' =>
            if totalLength rx' >=? expectedLength rx' then (Ok rx', rest)
            else receive rest rx'
        end
  end.

(** [Buffer.concat(responsePackets, expectedLength)]. *)
Definition response (rx : Rx) : Buffer :=
  concat (responsePackets rx) (Z.to_nat (expectedLength rx)).

(** [sendMessage(messageType, message)].  The first [read] of the reading
    loop throws, or answers the packet at which the loop stops in its first
    round, a packet of length zero. *)
Definition sendMessage (self : t) (messageType : Z) (message : Buffer)
  : result Buffer * t :=
  match framePackets messageType message with
  | Throw e => (Throw e, self)
  | Ok packets =>
      match writeAll self packets with
      | Throw e => (Throw e, self)
      | Ok _ =>
          match read self with
          | (Throw e, self1) => (Throw e, self1)
          | (Ok packet, self1) =>
              match fst (receive [packet] rx0) with
              | Throw e => (Throw e, self1)
              | Ok rx => (Ok (response rx), self1)
              end
          end
      end
  end.

(** What the reading loop and the [Buffer.concat] after it return, as a
    function of the packets the calls of [read] answer. *)
Definition reassemble (incoming : list Buffer) : result Buffer :=
  match fst (receive incoming rx0) with
  | Throw e => Throw e
  | Ok rx => Ok (response rx)
  end.

(** The framing in the words of the specification, to compare [sendMessage]
    with: the first packet is the 7-byte header (marker, type and length in big
    endian) and as much payload as fits, each later packet the marker and the
    payload that follows; every packet is filled with zero bytes up to
    [PACKET_SIZE]. *)
Definition pad (n : nat) (bytes : Buffer) : Buffer :=
  (bytes ++ repeat 0 (n - List.length bytes))%list.

Definition specHeader (messageType : Z) (len : Z) : Buffer :=
  [0x3f; messageType / 256; messageType mod 256;
   len / 16777216; (len / 65536) mod 256; (len / 256) mod 256; len mod 256].

Fixpoint specContinuation (fuel : nat) (rest : Buffer) : list Buffer :=
  match fuel with
  | O => []
  | S f =>
      match rest with
      | [] => []
      | _ :: _ =>
          pad PACKET_SIZE (0x3f :: firstn (PACKET_SIZE - 1) rest)
          :: specContinuation f (skipn (PACKET_SIZE - 1) rest)
      end
  end.

Definition specFrame (messageType : Z) (message : Buffer) : list Buffer :=
  pad PACKET_SIZE
      (specHeader messageType (Z.of_nat (List.length message))
       ++ firstn (PACKET_SIZE - 7) message)%list
  :: specContinuation (List.length message) (skipn (PACKET_SIZE - 7) message).

(** The payload bytes a run of continuation packets carries. *)
Definition continuation (conts : list Buffer) : Buffer :=
  List.concat (map (fun p => subarray p 1) conts).


End UsbTransport.

(** ** The HTTP side: [fetch], and the monad of the asynchronous methods *)

Module Http.
Import Js.

Inductive method : Type := GET | POST.

(** A request as [fetch] receives it; [req_body] is the value handed to
    [JSON.stringify], or, under the content type [text/plain], the string that
    is the body as it is. *)
Record request : Type := mkRequest {
  req_method : method;
  req_url : string;
  req_headers : list (string * string);
  req_body : option jsval
}.

(** A device as the Bridge daemon lists it ([BridgeDevice]); [session] is
    [Undefined] when the property is absent. *)
Module BridgeDevice.
Record t : Type := mk { path : string; session : nullable }.
End BridgeDevice.

(** [KeepKeyDevice]; the two optional members are [JUndefined] when absent. *)
Module KeepKeyDevice.
Record t : Type := mk {
  path : string;
  vendorId : Z;
  productId : Z;
  label : jsval;
  features : jsval
}.
End KeepKeyDevice.

(** [MessageResponse<T>] and [BridgeResponse<T>]: the envelope of a reply. *)
Module MessageResponse.
Record t : Type := mk { type : Z; message : jsval }.
End MessageResponse.

(** What the code takes from the body of a reply ([await response.json() as
    T]); the cast checks nothing.  [AsDevices]: the list of the Desktop API,
    an element [None] when it is [null].  [AsBridgeDevices]: the list of the
    Bridge daemon, each element with its [path] and what it gives for
    [session].  [AsSession] and [AsVersion]: the member [session], or
    [version], of the body, a string, [null] or absent.  [AsNothing] where
    the body is not read as JSON. *)
Inductive shape : Type -> Type :=
| AsDevices : shape (list (option KeepKeyDevice.t))
| AsBridgeDevices : shape (list BridgeDevice.t)
| AsSession : shape nullable
| AsVersion : shape nullable
| AsMessage : shape MessageResponse.t
| AsNothing : shape unit.

(** A reply: [response.ok], [await response.text()] and
    [await response.json()], which throws on a body that is not JSON. *)
Record response (T : Type) : Type := mkResponse {
  ok : bool;
  text : string;
  json : result T
}.
Arguments mkResponse {T} ok text json.
Arguments ok {T} r.
Arguments text {T} r.
Arguments json {T} r.

(** The far side of [fetch]: a state [W] and its answer to each request, a
    rejection ([Throw], also for a timeout) or a reply. *)
Definition server (W : Type) : Type :=
  forall T : Type, shape T -> request -> W -> result (response T) * W.

(** The world of a method: the far side and the requests issued so far. *)
Record io (W : Type) : Type := mkIo { far : W; log : list request }.
Arguments mkIo {W} far log.
Arguments far {W} i.
Arguments log {W} i.

(** An asynchronous method of an object of type [X]: from the object and the
    world to what it returns or throws, the object and the world. *)
Definition M (X W A : Type) : Type := X -> io W -> result A * X * io W.

Definition ret {X W A : Type} (a : A) : M X W A := fun x w => (Ok a, x, w).

Definition throw {X W A : Type} (e : error) : M X W A := fun x w => (Throw e, x, w).

Definition bind {X W A B : Type} (m : M X W A) (k : A -> M X W B) : M X W B :=
  fun x w =>
    match m x w with
    | (Ok a, x', w') => k a x' w'
    | (Throw e, x', w') => (Throw e, x', w')
    end.

(** [try { m } catch (error) { h error }]. *)
Definition try_catch {X W A : Type} (m : M X W A) (h : error -> M X W A) : M X W A :=
  fun x w =>
    match m x w with
    | (Ok a, x', w') => (Ok a, x', w')
    | (Throw e, x', w') => h e x' w'
    end.

Definition get {X W : Type} : M X W X := fun x w => (Ok x, x, w).

Definition put {X W : Type} (x' : X) : M X W unit := fun _ w => (Ok tt, x', w).

Definition lift {X W A : Type} (r : result A) : M X W A := fun x w => (r, x, w).

(** The outcome, the object and the world after a method. *)
Definition outcome {X W A : Type} (r : result A * X * io W) : result A := fst (fst r).
Definition object {X W A : Type} (r : result A * X * io W) : X := snd (fst r).
Definition world {X W A : Type} (r : result A * X * io W) : io W := snd r.

(** [await fetch(...)]: the request is logged and answered by the far side. *)
Definition fetch {X W T : Type} (srv : server W) (sh : shape T) (r : request)
  : M X W (response T) :=
  fun x w =>
    let '(out, far') := srv T sh r (far w) in
    (out, x, mkIo far' (log w ++ [r])).

(** The two halves of a [fetch] that the code does not wait for at once:
    [send] puts the request out, and [answer] is what the far side makes of a
    request that is out, when it comes to it. *)
Definition send {X W : Type} (r : request) : M X W unit :=
  fun x w => (Ok tt, x, mkIo (far w) (log w ++ [r])).

Definition answer {X W T : Type} (srv : server W) (sh : shape T) (r : request)
  : M X W (response T) :=
  fun x w =>
    let '(out, far') := srv T sh r (far w) in
    (out, x, mkIo far' (log w)).

(** An argument of [emit]: none, a device, an error, or a JSON value. *)
Inductive arg (D : Type) : Type :=
| NoArg
| DeviceArg (d : D)
| ErrorArg (e : error)
| MessageArg (m : jsval).
Arguments NoArg {D}.
Arguments DeviceArg {D} d.
Arguments ErrorArg {D} e.
Arguments MessageArg {D} m.

(** An emitted event.  The listeners are outside the model: an emission is
    recorded on the emitter. *)
Record event (D : Type) : Type := mkEvent { ev_name : string; ev_arg : arg D }.
Arguments mkEvent {D} ev_name ev_arg.
Arguments ev_name {D} e.
Arguments ev_arg {D} e.

(** A precondition on the object, a postcondition on it for a method that
    returns and one for a method that throws. *)
Definition triple {X W A : Type} (P : X -> Prop) (m : M X W A) (Qn Qe : X -> Prop) : Prop :=
  forall (x : X) (w : io W),
    P x ->
    match m x w with
    | (Ok _, x', _) => Qn x'
    | (Throw _, x', _) => Qe x'
    end.

End Http.

Declare Scope method_scope.
Delimit Scope method_scope with method.
Notation "x <- m ;; k" := (Http.bind m (fun x => k))
  (at level 61, m at next level, right associativity) : method_scope.
Notation "m ;;; k" := (Http.bind m (fun _ => k))
  (at level 61, right associativity) : method_scope.

(** ** transport/bridgeTransport.ts *)

Module BridgeTransport.
Import Js Constants Http.

Record BridgeTransportConfig : Type := mkConfig {
  url : option string;
  timeout : option Z
}.

Record t : Type := mk {
  config_url : string;
  config_timeout : Z;
  session : nullable;
  device : option BridgeDevice.t;
  connected : bool;
  listenController : bool;
  emitted : list (event BridgeDevice.t)
}.

(** [new BridgeTransport(config)]. *)
Definition new (config : BridgeTransportConfig) : t :=
  mk (or_default falsy_string (url config) DEFAULT_URL)
     (or_default falsy_num (timeout config) TIMEOUT_OPERATION)
     Null None false false [].

Definition set_session (v : nullable) (x : t) : t :=
  mk (config_url x) (config_timeout x) v (device x) (connected x)
     (listenController x) (emitted x).

Definition set_device (v : option BridgeDevice.t) (x : t) : t :=
  mk (config_url x) (config_timeout x) (session x) v (connected x)
     (listenController x) (emitted x).

Definition set_connected (v : bool) (x : t) : t :=
  mk (config_url x) (config_timeout x) (session x) (device x) v
     (listenController x) (emitted x).

Definition set_listenController (v : bool) (x : t) : t :=
  mk (config_url x) (config_timeout x) (session x) (device x) (connected x)
     v (emitted x).

Definition add_emitted (e : event BridgeDevice.t) (x : t) : t :=
  mk (config_url x) (config_timeout x) (session x) (device x) (connected x)
     (listenController x) (emitted x ++ [e]).

(** [currentDevice.session !== this.session]. *)
Definition session_differs (a b : nullable) : bool := strict_differs a b.

Definition callRequest (u : string) (sess : string) (messageType : Z) (message : jsval)
  : request :=
  mkRequest POST (u ++ "/call/" ++ sess)
            [("Content-Type", "application/json")]
            (Some (JObj [("type", JNum messageType); ("message", message)])).

(** The requests of [enumerate] and [acquire]. *)
Definition enumerateRequest (self : t) : request :=
  mkRequest GET (config_url self ++ "/enumerate") [] None.

Definition acquireRequest (self : t) (devicePath : string) (previousSession : nullable)
  : request :=
  mkRequest POST
    (config_url self ++ "/acquire" ++ "/" ++ devicePath ++ "/" ++
     nullable_or previousSession "null")
    [] None.

(** What [call] makes of the outcome of its [fetch]. *)
Definition callOutcome (out : result (response MessageResponse.t)) : result MessageResponse.t :=
  match out with
  | Throw e => Throw e
  | Ok resp =>
      if negb (ok resp) then Throw (Error ("Bridge call failed: " ++ text resp))
      else json resp
  end.

Section Methods.
Context {W : Type} (srv : server W).
Local Open Scope method_scope.

Definition modify (f : t -> t) : M t W unit :=
  (self <- get ;; put (f self)).

(** [this.emit(name, arg)]. *)
Definition emit (name : string) (a : arg BridgeDevice.t) : M t W unit :=
  modify (add_emitted (mkEvent name a)).

(** [enumerate()]. *)
Definition enumerate : M t W (list BridgeDevice.t) :=
  (self <- get ;;
   resp <- fetch srv AsBridgeDevices (enumerateRequest self) ;;
   lift (json resp)).

(** [acquire(devicePath, previousSession)]: what it returns is [data.session],
    whatever the body gives for it. *)
Definition acquire (devicePath : string) (previousSession : nullable)
  : M t W nullable :=
  (self <- get ;;
   resp <- fetch srv AsSession (acquireRequest self devicePath previousSession) ;;
   if negb (ok resp) then throw (Error ("Failed to acquire device: " ++ text resp))
   else lift (json resp)).

(** [release(session)]. *)
Definition release (sess : string) : M t W unit :=
  (self <- get ;;
   resp <- fetch srv AsNothing
             (mkRequest POST (config_url self ++ "/release" ++ "/" ++ sess) [] None) ;;
   if negb (ok resp) then throw (Error ("Failed to release session: " ++ text resp))
   else ret tt).

(** [connect(devicePath)]. *)
Definition connect (devicePath : option string) : M t W BridgeDevice.t :=
  try_catch
    (devices <- enumerate ;;
     match devices with
     | [] => throw (Error "No KeepKey device found via Bridge")
     | first :: _ =>
         let wanted := or_default falsy_string devicePath "" in
         let targetDevice :=
           if falsy_string wanted then Some first
           else find (fun d => String.eqb (BridgeDevice.path d) wanted) devices in
         match targetDevice with
         | None => throw (Error ("Device not found: " ++ wanted))
         | Some target =>
             s <- acquire (BridgeDevice.path target) (BridgeDevice.session target) ;;
             modify (set_session s) ;;;
             let dev := BridgeDevice.mk (BridgeDevice.path target) s in
             modify (set_device (Some dev)) ;;;
             modify (set_connected true) ;;;
             emit DEVICE_EVENTS.CONNECTED (DeviceArg dev) ;;;
             ret dev
         end
     end)
    (fun error => emit DEVICE_EVENTS.FAILURE (ErrorArg error) ;;; throw error).

(** [stopListening()]. *)
Definition stopListening : M t W unit :=
  (self <- get ;;
   if listenController self then modify (set_listenController false) else ret tt).

(** [disconnect()]. *)
Definition disconnect : M t W unit :=
  (self <- get ;;
   if negb (connected self) || falsy_nullable (session self) then ret tt
   else
     try_catch
       (stopListening ;;;
        release (show_nullable (session self)) ;;;
        modify (set_session Null) ;;;
        modify (set_device None) ;;;
        modify (set_connected false) ;;;
        emit DEVICE_EVENTS.DISCONNECTED NoArg)
       (fun error => throw (Error ("Failed to disconnect: " ++ message error)))).

(** [isConnected()]. *)
Definition isConnected (self : t) : bool :=
  connected self && strict_differs (session self) Null.

(** [call(messageType, message)]. *)
Definition call (messageType : Z) (message : jsval) : M t W MessageResponse.t :=
  (self <- get ;;
   if falsy_nullable (session self) then throw (Error "No active session")
   else
     resp <- fetch srv AsMessage
               (callRequest (config_url self) (show_nullable (session self))
                            messageType message) ;;
     if negb (ok resp) then throw (Error ("Bridge call failed: " ++ text resp))
     else lift (json resp)).

(** [refreshSession()]. *)
Definition refreshSession : M t W nullable :=
  (self <- get ;;
   match device self with
   | None => throw (Error "No device connected")
   | Some dev =>
       devices <- enumerate ;;
       match find (fun d => String.eqb (BridgeDevice.path d) (BridgeDevice.path dev)) devices with
       | None =>
           modify (set_connected false) ;;;
           throw (Error "Device disconnected")
       | Some currentDevice =>
           self1 <- get ;;
           (if session_differs (BridgeDevice.session currentDevice) (session self1) then
              s <- acquire (BridgeDevice.path currentDevice)
                           (BridgeDevice.session currentDevice) ;;
              modify (set_session s) ;;;
              self2 <- get ;;
              match device self2 with
              | Some d => modify (set_device (Some (BridgeDevice.mk (BridgeDevice.path d) s)))
              | None => throw (TypeError "Cannot set properties of null (setting 'session')")
              end
            else ret tt) ;;;
           self3 <- get ;;
           ret (session self3)
       end
   end).

(** [post(data)]: the raw message goes out as the body, under the content
    type [text/plain]. *)
Definition postRequest (u : string) (sess : string) (data : string) : request :=
  mkRequest POST (u ++ "/call/" ++ sess) [("Content-Type", "text/plain")] (Some (JStr data)).

Definition post (data : string) : M t W MessageResponse.t :=
  (self <- get ;;
   if falsy_nullable (session self) then throw (Error "No active session")
   else
     resp <- fetch srv AsMessage
               (postRequest (config_url self) (show_nullable (session self)) data) ;;
     if negb (ok resp) then throw (Error ("Bridge post failed: " ++ text resp))
     else lift (json resp)).

(** [getVersion()]: what it returns is [data.version]. *)
Definition getVersion : M t W nullable :=
  (self <- get ;;
   response <- fetch srv AsVersion (mkRequest GET (config_url self ++ "/") [] None) ;;
   lift (json response)).

(** [isAvailable()]: [fetch] with a timeout of five seconds, which shows as
    a rejection. *)
Definition isAvailable : M t W bool :=
  try_catch
    (self <- get ;;
     response <- fetch srv AsNothing (mkRequest GET (config_url self ++ "/") [] None) ;;
     ret (ok response))
    (fun _ => ret false).

(** [handleListenResponse(response)]. *)
Definition handleListenResponse (response : MessageResponse.t) : M t W unit :=
  let type := MessageResponse.type response in
  let message := MessageArg (MessageResponse.message response) in
  if type =? 26 then emit DEVICE_EVENTS.BUTTON_REQUEST message
  else if type =? 18 then emit DEVICE_EVENTS.PIN_REQUEST message
  else if type =? 41 then emit DEVICE_EVENTS.PASSPHRASE_REQUEST message
  else if type =? 46 then emit DEVICE_EVENTS.WORD_REQUEST message
  else if type =? 3 then emit DEVICE_EVENTS.FAILURE message
  else if type =? 2 then emit DEVICE_EVENTS.SUCCESS message
  else ret tt.

Definition listenRequest (u : string) (sess : string) : request :=
  mkRequest POST (u ++ "/listen/" ++ sess) [] None.

(** [listen()], from the call to the [await] of its [fetch]: the poll is out.
    The daemon answers a poll when the device has something to say, which is
    between the other methods. *)
Definition listen : M t W unit :=
  (self <- get ;;
   if falsy_nullable (session self) then throw (Error "No active session")
   else
     modify (set_listenController true) ;;;
     send (listenRequest (config_url self) (show_nullable (session self)))).

(** [listen()], from the answer of the daemon to the poll on.  The controller
    the transport holds is not aborted: [stopListening] aborts a controller
    and drops it at once.  [void this.listen()] starts the next poll, and
    nobody handles what this call throws. *)
Definition listenAnswered (poll : request) : M t W unit :=
  try_catch
    (response <- answer srv AsMessage poll ;;
     if negb (ok response) then throw (Error "Listen request failed")
     else
       data <- lift (json response) ;;
       handleListenResponse data ;;;
       self <- get ;;
       if listenController self then try_catch listen (fun _ => ret tt)
       else throw (TypeError "Cannot read properties of null (reading 'signal')"))
    (fun error =>
       if String.eqb (name error) "AbortError" then ret tt
       else emit DEVICE_EVENTS.FAILURE (ErrorArg error)).

(** [getDevice()] and [getSession()]. *)
Definition getDevice (self : t) : option BridgeDevice.t := device self.

Definition getSession (self : t) : nullable := session self.

(** [isBridgeAvailable(url)], outside the class: a new transport asked once. *)
Definition isBridgeAvailable (u : option string) (w : io W) : result bool * io W :=
  let transport := new (mkConfig u None) in
  let '(r, _, w') := isAvailable transport w in (r, w').

End Methods.

End BridgeTransport.

(** ** transport/keepKeyClient.ts *)

Module KeepKeyClient.
Import Js Constants Http.

(** [CONNECTION_TYPES] of constants/usbIds.ts. *)
Module CONNECTION_TYPES.
Definition USB_HID := "usbHid".
Definition WEBUSB := "webusb".
Definition KEEPKEY_DESKTOP := "keepkeyDesktop".
Definition KEEPKEY_BRIDGE := "keepkeyBridge".
End CONNECTION_TYPES.

(** The branch a [switch (this.config.connectionType)] takes. *)
Inductive branch : Type :=
| CaseUsbHid
| CaseWebUsb
| CaseDesktop
| CaseBridge
| CaseDefault.

Definition switch (connectionType : string) : branch :=
  if String.eqb connectionType CONNECTION_TYPES.USB_HID then CaseUsbHid
  else if String.eqb connectionType CONNECTION_TYPES.WEBUSB then CaseWebUsb
  else if String.eqb connectionType CONNECTION_TYPES.KEEPKEY_DESKTOP then CaseDesktop
  else if String.eqb connectionType CONNECTION_TYPES.KEEPKEY_BRIDGE then CaseBridge
  else CaseDefault.

(** [TransportConfig], as the caller passes it. *)
Module TransportConfig.
Record t : Type := mk {
  connectionType : string;
  devicePath : option string;
  vendorId : option Z;
  productId : option Z;
  bridgeUrl : option string;
  desktopUrl : option string;
  apiKey : option string;
  timeout : option Z
}.
End TransportConfig.

(** [this.config]: the caller's configuration with the three defaults of the
    constructor filled in. *)
Record Config : Type := mkConfig {
  connectionType : string;
  devicePath : option string;
  vendorId : Z;
  productId : Z;
  bridgeUrl : option string;
  desktopUrl : option string;
  apiKey : option string;
  timeout : Z
}.

Record t : Type := mk {
  config : Config;
  device : option KeepKeyDevice.t;
  connected : bool;
  sessionId : nullable;
  emitted : list (event KeepKeyDevice.t)
}.

(** [new KeepKeyClient(config)]. *)
Definition new (c : TransportConfig.t) : t :=
  mk (mkConfig (TransportConfig.connectionType c) (TransportConfig.devicePath c)
               (or_default falsy_num (TransportConfig.vendorId c) KEEPKEY_VENDOR_ID)
               (or_default falsy_num (TransportConfig.productId c) KEEPKEY_PRODUCT_ID)
               (TransportConfig.bridgeUrl c) (TransportConfig.desktopUrl c)
               (TransportConfig.apiKey c)
               (or_default falsy_num (TransportConfig.timeout c) TIMEOUT_OPERATION))
     None false Null [].

Definition set_device (v : option KeepKeyDevice.t) (x : t) : t :=
  mk (config x) v (connected x) (sessionId x) (emitted x).

Definition set_connected (v : bool) (x : t) : t :=
  mk (config x) (device x) v (sessionId x) (emitted x).

Definition set_sessionId (v : nullable) (x : t) : t :=
  mk (config x) (device x) (connected x) v (emitted x).

Definition add_emitted (e : event KeepKeyDevice.t) (x : t) : t :=
  mk (config x) (device x) (connected x) (sessionId x) (emitted x ++ [e]).

Definition desktopCallRequest (u : string) (key : option string) (type : Z)
  (params : list (string * jsval)) : request :=
  mkRequest POST (u ++ "/call")
    (("Content-Type", "application/json") ::
     match key with
     | Some k => if falsy_string k then [] else [("Authorization", "Bearer " ++ k)]
     | None => []
     end)
    (Some (JObj (spread [("type", JNum type)] params))).

Definition bridgeCallRequest (u : string) (sess : nullable) (type : Z)
  (params : list (string * jsval)) : request :=
  mkRequest POST (u ++ "/call/" ++ show_nullable sess)
    [("Content-Type", "application/json")]
    (Some (JObj [("type", JNum type); ("message", JObj params)])).

(** The request [call] issues, for the two connection types that reach
    [fetch]: [callDesktop] and [callBridge]. *)
Definition callRequestOf (self : t) (type : Z) (params : list (string * jsval))
  : option request :=
  match switch (connectionType (config self)) with
  | CaseDesktop =>
      Some (desktopCallRequest
              (or_default falsy_string (desktopUrl (config self)) "http://localhost:1646")
              (apiKey (config self)) type params)
  | CaseBridge =>
      Some (bridgeCallRequest
              (or_default falsy_string (bridgeUrl (config self)) "http://localhost:1646")
              (sessionId self) type params)
  | _ => None
  end.

(** The outcome of a [fetch] as the two call methods return it. *)
Definition answered (out : result (response MessageResponse.t)) : result MessageResponse.t :=
  match out with
  | Ok resp => json resp
  | Throw e => Throw e
  end.

(** The [pin_protection] a call request carries: a member of [message] in
    the body of [callBridge], of the body itself in that of [callDesktop]. *)
Definition pinProtectionSent (r : request) : jsval :=
  match req_body r with
  | Some (JObj fields) =>
      match lookup "message" fields with
      | JObj message => lookup "pin_protection" message
      | _ => lookup "pin_protection" fields
      end
  | _ => JUndefined
  end.

(** The device as the connect methods leave it once the features are in. *)
Definition initialized (d0 : KeepKeyDevice.t) (label features : jsval) : KeepKeyDevice.t :=
  KeepKeyDevice.mk (KeepKeyDevice.path d0) (KeepKeyDevice.vendorId d0)
                   (KeepKeyDevice.productId d0) label features.

(** The two requests of [connectBridge] before the initialization. *)
Definition enumerateRequest (self : t) : request :=
  mkRequest GET
    (or_default falsy_string (bridgeUrl (config self)) "http://localhost:1646" ++ "/enumerate")
    [] None.

Definition acquireRequest (self : t) (deviceInfo : BridgeDevice.t) : request :=
  mkRequest POST
    (or_default falsy_string (bridgeUrl (config self)) "http://localhost:1646" ++
     "/acquire/" ++ BridgeDevice.path deviceInfo ++ "/" ++
     nullable_or (BridgeDevice.session deviceInfo) "null")
    [] None.

(** The parameters of [resetDevice]. *)
Record ResetParams : Type := mkResetParams {
  rs_strength : option Z;
  rs_passphrase_protection : option bool;
  rs_pin_protection : option bool;
  rs_label : option string;
  rs_language : option string;
  rs_skip_backup : option bool
}.

(** The message [resetDevice] builds from its parameters. *)
Definition resetDeviceMessage (params : ResetParams) : list (string * jsval) :=
  [("display_random", JBool true);
   ("strength", JNum (or_default falsy_num (rs_strength params) 256));
   ("passphrase_protection", JBool (or_default falsy_bool (rs_passphrase_protection params) false));
   ("pin_protection", JBool (or_default falsy_bool (rs_pin_protection params) true));
   ("label", JStr (or_default falsy_string (rs_label params) ""));
   ("language", JStr (or_default falsy_string (rs_language params) "en-US"));
   ("skip_backup", JBool (or_default falsy_bool (rs_skip_backup params) false))].

(** The parameters of [recoverDevice]; [rc_word_count] is 12, 18 or 24. *)
Record RecoverParams : Type := mkRecoverParams {
  rc_word_count : Z;
  rc_passphrase_protection : option bool;
  rc_pin_protection : option bool;
  rc_label : option string;
  rc_language : option string;
  rc_enforce_wordlist : option bool;
  rc_type : option Z;
  rc_dry_run : option bool
}.

(** The message [recoverDevice] builds from its parameters. *)
Definition recoverDeviceMessage (params : RecoverParams) : list (string * jsval) :=
  [("word_count", JNum (rc_word_count params));
   ("passphrase_protection", JBool (or_default falsy_bool (rc_passphrase_protection params) false));
   ("pin_protection", JBool (or_default falsy_bool (rc_pin_protection params) true));
   ("label", JStr (or_default falsy_string (rc_label params) ""));
   ("language", JStr (or_default falsy_string (rc_language params) "en-US"));
   ("enforce_wordlist",
    JBool (match rc_enforce_wordlist params with Some false => false | _ => true end));
   ("type", JNum (or_default falsy_num (rc_type params) 0));
   ("dry_run", JBool (or_default falsy_bool (rc_dry_run params) false))].

(** The settings of [applySettings]: the members that are present. *)
Record Settings : Type := mkSettings {
  st_label : option string;
  st_language : option string;
  st_use_passphrase : option bool;
  st_auto_lock_delay_ms : option Z
}.

Definition settingsMessage (settings : Settings) : list (string * jsval) :=
  (match st_label settings with Some v => [("label", JStr v)] | None => [] end ++
   match st_language settings with Some v => [("language", JStr v)] | None => [] end ++
   match st_use_passphrase settings with Some v => [("use_passphrase", JBool v)] | None => [] end ++
   match st_auto_lock_delay_ms settings with Some v => [("auto_lock_delay_ms", JNum v)] | None => [] end)%list.

(** A property of the client that its events and its session token do not
    touch. *)
Definition stable (I : t -> Prop) : Prop :=
  forall x, I x -> (forall e, I (add_emitted e x)) /\ (forall v, I (set_sessionId v x)).

(** The client holds a device. *)
Definition holds_device (x : t) : Prop := device x <> None.

Section Methods.
Context {W : Type} (srv : server W).
Local Open Scope method_scope.

Definition modify (f : t -> t) : M t W unit :=
  (self <- get ;; put (f self)).

(** [this.emit(name, arg)]. *)
Definition emit (name : string) (a : arg KeepKeyDevice.t) : M t W unit :=
  modify (add_emitted (mkEvent name a)).

Definition callUsbHid (type : Z) (params : list (string * jsval)) : M t W MessageResponse.t :=
  throw (Error "USB HID transport requires native module").

Definition callWebUsb (type : Z) (params : list (string * jsval)) : M t W MessageResponse.t :=
  throw (Error "WebUSB transport requires browser environment").

Definition callDesktop (type : Z) (params : list (string * jsval)) : M t W MessageResponse.t :=
  (self <- get ;;
   let url := or_default falsy_string (desktopUrl (config self)) "http://localhost:1646" in
   response <- fetch srv AsMessage
                 (desktopCallRequest url (apiKey (config self)) type params) ;;
   lift (json response)).

Definition callBridge (type : Z) (params : list (string * jsval)) : M t W MessageResponse.t :=
  (self <- get ;;
   let url := or_default falsy_string (bridgeUrl (config self)) "http://localhost:1646" in
   response <- fetch srv AsMessage
                 (bridgeCallRequest url (sessionId self) type params) ;;
   lift (json response)).

(** [call(type, params)]. *)
Definition call (type : Z) (params : list (string * jsval)) : M t W MessageResponse.t :=
  (self <- get ;;
   if negb (connected self) then throw (Error "Device not connected")
   else
     match switch (connectionType (config self)) with
     | CaseUsbHid => callUsbHid type params
     | CaseWebUsb => callWebUsb type params
     | CaseDesktop => callDesktop type params
     | CaseBridge => callBridge type params
     | CaseDefault =>
         throw (Error ("Unsupported connection type: " ++ connectionType (config self)))
     end).

(** [getFeatures()]. *)
Definition getFeatures : M t W jsval :=
  (response <- call MESSAGE_TYPES.Initialize [] ;;
   ret (MessageResponse.message response)).

(** [ping(message)]. *)
Definition ping (message : string) : M t W jsval :=
  (response <- call MESSAGE_TYPES.Ping
                 [("message", JStr message); ("button_protection", JBool false)] ;;
   lift (getProp (MessageResponse.message response) "message")).

(** [cancel()]. *)
Definition cancel : M t W unit :=
  (call MESSAGE_TYPES.Cancel [] ;;; ret tt).

(** [clearSession()]. *)
Definition clearSession : M t W unit :=
  (call MESSAGE_TYPES.ClearSession [] ;;;
   modify (set_sessionId Null)).

(** [sendButtonAck()]. *)
Definition sendButtonAck : M t W MessageResponse.t :=
  call MESSAGE_TYPES.ButtonAck [].

(** [sendPin(pin)]. *)
Definition sendPin (pin : string) : M t W MessageResponse.t :=
  call MESSAGE_TYPES.PinMatrixAck [("pin", JStr pin)].

(** [sendPassphrase(passphrase, onDevice)]. *)
Definition sendPassphrase (passphrase : string) (onDevice : bool) : M t W MessageResponse.t :=
  call MESSAGE_TYPES.PassphraseAck
       [("passphrase", if onDevice then JUndefined else JStr passphrase);
        ("on_device", JBool onDevice)].

(** [sendWord(word)]. *)
Definition sendWord (word : string) : M t W MessageResponse.t :=
  call MESSAGE_TYPES.WordAck [("word", JStr word)].

(** [callWithButtonAck(type, params)]. *)
Definition callWithButtonAck (type : Z) (params : list (string * jsval))
  : M t W MessageResponse.t :=
  (response <- call type params ;;
   if MessageResponse.type response =? MESSAGE_TYPES.ButtonRequest then
     emit DEVICE_EVENTS.BUTTON_REQUEST (MessageArg (MessageResponse.message response)) ;;;
     sendButtonAck
   else ret response).

(** [callWithPinMatrix(type, params)]. *)
Definition callWithPinMatrix (type : Z) (params : list (string * jsval))
  : M t W MessageResponse.t :=
  (response <- call type params ;;
   (if MessageResponse.type response =? MESSAGE_TYPES.PinMatrixRequest then
      emit DEVICE_EVENTS.PIN_REQUEST (MessageArg (MessageResponse.message response))
    else ret tt) ;;;
   ret response).

(** [callWithRecovery(type, params)]. *)
Definition callWithRecovery (type : Z) (params : list (string * jsval))
  : M t W MessageResponse.t :=
  (response <- call type params ;;
   (if MessageResponse.type response =? MESSAGE_TYPES.WordRequest then
      emit DEVICE_EVENTS.WORD_REQUEST (MessageArg (MessageResponse.message response))
    else ret tt) ;;;
   ret response).

(** [applySettings(settings)]. *)
Definition applySettings (settings : Settings) : M t W unit :=
  (callWithButtonAck MESSAGE_TYPES.ApplySettings (settingsMessage settings) ;;; ret tt).

(** [wipeDevice()]. *)
Definition wipeDevice : M t W unit :=
  (callWithButtonAck MESSAGE_TYPES.WipeDevice [] ;;; ret tt).

(** [resetDevice(params)]. *)
Definition resetDevice (params : ResetParams) : M t W unit :=
  (callWithButtonAck MESSAGE_TYPES.ResetDevice (resetDeviceMessage params) ;;; ret tt).

(** [recoverDevice(params)]. *)
Definition recoverDevice (params : RecoverParams) : M t W unit :=
  (callWithRecovery MESSAGE_TYPES.RecoveryDevice (recoverDeviceMessage params) ;;; ret tt).

(** [changePin(remove)]. *)
Definition changePin (remove : bool) : M t W unit :=
  (callWithPinMatrix MESSAGE_TYPES.ChangePin [("remove", JBool remove)] ;;; ret tt).

(** The end of three of the four connect methods:
    [features = await this.getFeatures(); this.device.features = features;
     this.device.label = features.label; this.emit(CONNECTED, this.device);
     return this.device]. *)
Definition initializeDevice : M t W KeepKeyDevice.t :=
  (features <- getFeatures ;;
   self <- get ;;
   match device self with
   | None => throw (TypeError "Cannot set properties of null (setting 'features')")
   | Some d =>
       let d1 := KeepKeyDevice.mk (KeepKeyDevice.path d) (KeepKeyDevice.vendorId d)
                                  (KeepKeyDevice.productId d) (KeepKeyDevice.label d) features in
       modify (set_device (Some d1)) ;;;
       label <- lift (getProp features "label") ;;
       let d2 := KeepKeyDevice.mk (KeepKeyDevice.path d1) (KeepKeyDevice.vendorId d1)
                                  (KeepKeyDevice.productId d1) label features in
       modify (set_device (Some d2)) ;;;
       emit DEVICE_EVENTS.CONNECTED (DeviceArg d2) ;;;
       ret d2
   end).

Definition connectUsbHid : M t W KeepKeyDevice.t :=
  (self <- get ;;
   let device := KeepKeyDevice.mk (or_default falsy_string (devicePath (config self)) "")
                                  (vendorId (config self))
                                  (productId (config self))
                                  JUndefined JUndefined in
   modify (set_device (Some device)) ;;;
   modify (set_connected true) ;;;
   initializeDevice).

Definition connectWebUsb : M t W KeepKeyDevice.t :=
  (self <- get ;;
   let device := KeepKeyDevice.mk "webusb"
                                  (vendorId (config self))
                                  (productId (config self))
                                  JUndefined JUndefined in
   modify (set_device (Some device)) ;;;
   modify (set_connected true) ;;;
   initializeDevice).

(** [connectDesktop()]: the device held, emitted and returned is the first
    element of the list as it is, [null] when the list gives [null]. *)
Definition connectDesktop : M t W (option KeepKeyDevice.t) :=
  (self <- get ;;
   let url := or_default falsy_string (desktopUrl (config self)) "http://localhost:1646" in
   response <- fetch srv AsDevices (mkRequest GET (url ++ "/devices") [] None) ;;
   devices <- lift (json response) ;;
   match devices with
   | [] => throw (Error "No KeepKey device found via Desktop")
   | first :: _ =>
       modify (set_device first) ;;;
       modify (set_connected true) ;;;
       emit DEVICE_EVENTS.CONNECTED
            (match first with Some d => DeviceArg d | None => MessageArg JNull end) ;;;
       ret first
   end).

Definition connectBridge : M t W KeepKeyDevice.t :=
  (self <- get ;;
   let url := or_default falsy_string (bridgeUrl (config self)) "http://localhost:1646" in
   response <- fetch srv AsBridgeDevices (mkRequest GET (url ++ "/enumerate") [] None) ;;
   devices <- lift (json response) ;;
   match devices with
   | [] => throw (Error "No KeepKey device found via Bridge")
   | deviceInfo :: _ =>
       acquireResponse <-
         fetch srv AsSession
           (mkRequest POST
              (url ++ "/acquire/" ++ BridgeDevice.path deviceInfo ++ "/" ++
               nullable_or (BridgeDevice.session deviceInfo) "null")
              [] None) ;;
       session <- lift (json acquireResponse) ;;
       modify (set_sessionId session) ;;;
       modify (set_device
                 (Some (KeepKeyDevice.mk (BridgeDevice.path deviceInfo)
                                         (vendorId (config self))
                                         (productId (config self))
                                         JUndefined JUndefined))) ;;;
       modify (set_connected true) ;;;
       initializeDevice
   end).

(** [connect()]; the device returned is [None] when it is [null], which
    only [connectDesktop] can return. *)
Definition connect : M t W (option KeepKeyDevice.t) :=
  try_catch
    (self <- get ;;
     match switch (connectionType (config self)) with
     | CaseUsbHid => (d <- connectUsbHid ;; ret (Some d))
     | CaseWebUsb => (d <- connectWebUsb ;; ret (Some d))
     | CaseDesktop => connectDesktop
     | CaseBridge => (d <- connectBridge ;; ret (Some d))
     | CaseDefault =>
         throw (Error ("Unsupported connection type: " ++ connectionType (config self)))
     end)
    (fun error => emit DEVICE_EVENTS.FAILURE (ErrorArg error) ;;; throw error).

(** [disconnect()]. *)
Definition disconnect : M t W unit :=
  (self <- get ;;
   if negb (connected self) then ret tt
   else
     try_catch
       (clearSession ;;;
        modify (set_connected false) ;;;
        modify (set_device None) ;;;
        modify (set_sessionId Null) ;;;
        emit DEVICE_EVENTS.DISCONNECTED NoArg)
       (fun error => throw (Error ("Failed to disconnect: " ++ message error)))).

(** [isConnected()]. *)
Definition isConnected (self : t) : bool :=
  connected self && match device self with Some _ => true | None => false end.

(** [getDevice()]. *)
Definition getDevice (self : t) : option KeepKeyDevice.t := device self.

End Methods.

End KeepKeyClient.

(** ** The public operations, and a simulated daemon to run them against *)

Module Operations.
Import Js Constants Http.

(** The public methods of [KeepKeyClient] that touch the client.  Left out
    are the two queries [isConnected] and [getDevice], the subscriptions
    [onEvent] and [offEvent] (the listeners are outside the model), and
    [getEntropy], which is [call] followed by the decoding of the answer. *)
Inductive client_op : Type :=
| Connect
| Disconnect
| GetFeatures
| Ping (message : string)
| Cancel
| ClearSession
| ApplySettings (settings : KeepKeyClient.Settings)
| WipeDevice
| ResetDevice (params : KeepKeyClient.ResetParams)
| RecoverDevice (params : KeepKeyClient.RecoverParams)
| ChangePin (remove : bool)
| SendPin (pin : string)
| SendPassphrase (passphrase : string) (onDevice : bool)
| SendWord (word : string)
| SendButtonAck
| Call (type : Z) (params : list (string * jsval)).

Definition forget {X W A : Type} (m : M X W A) : M X W unit :=
  bind m (fun _ => ret tt).

Definition run_client {W : Type} (srv : server W) (o : client_op) : M KeepKeyClient.t W unit :=
  match o with
  | Connect => forget (KeepKeyClient.connect srv)
  | Disconnect => KeepKeyClient.disconnect srv
  | GetFeatures => forget (KeepKeyClient.getFeatures srv)
  | Ping m => forget (KeepKeyClient.ping srv m)
  | Cancel => KeepKeyClient.cancel srv
  | ClearSession => KeepKeyClient.clearSession srv
  | ApplySettings s => KeepKeyClient.applySettings srv s
  | WipeDevice => KeepKeyClient.wipeDevice srv
  | ResetDevice p => KeepKeyClient.resetDevice srv p
  | RecoverDevice p => KeepKeyClient.recoverDevice srv p
  | ChangePin r => KeepKeyClient.changePin srv r
  | SendPin p => forget (KeepKeyClient.sendPin srv p)
  | SendPassphrase p d => forget (KeepKeyClient.sendPassphrase srv p d)
  | SendWord w => forget (KeepKeyClient.sendWord srv w)
  | SendButtonAck => forget (KeepKeyClient.sendButtonAck srv)
  | Call ty ps => forget (KeepKeyClient.call srv ty ps)
  end.

(** The client after an operation, whether it returned or threw. *)
Definition client_after {W : Type} (srv : server W) (o : client_op)
  (self : KeepKeyClient.t) (w : io W) : KeepKeyClient.t :=
  snd (fst (run_client srv o self w)).

(** The public methods of [BridgeTransport] that touch the transport or the
    daemon.  [listen] comes in two steps, the call and what it does when the
    daemon answers a poll that is out, at any time later; [poll] is this
    poll. *)
Inductive bridge_op : Type :=
| BConnect (devicePath : option string)
| BDisconnect
| BCall (messageType : Z) (message : jsval)
| BRefreshSession
| BEnumerate
| BAcquire (devicePath : string) (previousSession : nullable)
| BRelease (session : string)
| BStopListening
| BPost (data : string)
| BIsAvailable
| BGetVersion
| BListen
| BListenAnswered (poll : request).

(** The transport holds a device, and the device carries the session of the
    transport, which is what the daemon gave for it: a token, [null] or
    nothing. *)
Definition holds_session (self : BridgeTransport.t) : Prop :=
  exists d,
    BridgeTransport.device self = Some d /\
    BridgeDevice.session d = BridgeTransport.session self.

Definition run_bridge {W : Type} (srv : server W) (o : bridge_op) : M BridgeTransport.t W unit :=
  match o with
  | BConnect p => forget (BridgeTransport.connect srv p)
  | BDisconnect => BridgeTransport.disconnect srv
  | BCall ty m => forget (BridgeTransport.call srv ty m)
  | BRefreshSession => forget (BridgeTransport.refreshSession srv)
  | BEnumerate => forget (BridgeTransport.enumerate srv)
  | BAcquire p s => forget (BridgeTransport.acquire srv p s)
  | BRelease s => BridgeTransport.release srv s
  | BStopListening => BridgeTransport.stopListening
  | BPost data => forget (BridgeTransport.post srv data)
  | BIsAvailable => forget (BridgeTransport.isAvailable srv)
  | BGetVersion => forget (BridgeTransport.getVersion srv)
  | BListen => BridgeTransport.listen
  | BListenAnswered poll => BridgeTransport.listenAnswered srv poll
  end.

Definition bridge_after {W : Type} (srv : server W) (o : bridge_op)
  (self : BridgeTransport.t) (w : io W) : BridgeTransport.t :=
  snd (fst (run_bridge srv o self w)).

(** The invariant of the client: a connected client of a type other than
    the Desktop one holds a device.  The device of a Desktop client is the
    first element of the list the daemon answers, [null] included. *)
Definition client_inv (self : KeepKeyClient.t) : Prop :=
  KeepKeyClient.switch (KeepKeyClient.connectionType (KeepKeyClient.config self))
  <> KeepKeyClient.CaseDesktop ->
  KeepKeyClient.connected self = true -> KeepKeyClient.device self <> None.

(** The invariant of the Bridge transport: a connected transport holds a
    device that carries the session of the transport. *)
Definition bridge_inv (self : BridgeTransport.t) : Prop :=
  BridgeTransport.connected self = true -> holds_session self.

End Operations.

Module Simulation.
Import Js Constants Http.

(** A daemon with one device at [/dev/hid0], and the device behind it.
    [current] is the session the daemon has granted, [fresh] the token it
    grants next, [awaiting_pin] whether the device has asked for a PIN. *)
Record state : Type := mkState {
  current : nullable;
  fresh : string;
  features : jsval;
  awaiting_pin : bool
}.

Definition base : string := "http://localhost:1646".

Definition reply (type : Z) (message : jsval) : response MessageResponse.t :=
  mkResponse true "" (Ok (MessageResponse.mk type message)).

(** The answer of the device to a message. *)
Definition device_answer (type : Z) (w : state)
  : response MessageResponse.t * state :=
  if type =? MESSAGE_TYPES.Initialize then
    (reply MESSAGE_TYPES.Features (features w), w)
  else if type =? MESSAGE_TYPES.ChangePin then
    (reply MESSAGE_TYPES.PinMatrixRequest (JObj [("type", JNum 1)]),
     mkState (current w) (fresh w) (features w) true)
  else if type =? MESSAGE_TYPES.PinMatrixAck then
    if awaiting_pin w then
      (reply MESSAGE_TYPES.Success (JObj [("message", JStr "PIN changed")]),
       mkState (current w) (fresh w) (features w) false)
    else
      (reply MESSAGE_TYPES.Failure (JObj [("code", JNum 1); ("message", JStr "Unexpected message")]), w)
  else if type =? MESSAGE_TYPES.ResetDevice then
    (reply MESSAGE_TYPES.ButtonRequest (JObj [("code", JNum 8)]), w)
  else
    (reply MESSAGE_TYPES.Success (JObj []), w).

Definition body_type (r : request) : Z :=
  match req_body r with
  | Some (JObj fields) => match lookup "type" fields with JNum z => z | _ => 0 end
  | _ => 0
  end.

(** The daemon: [/enumerate] lists the device with the session granted,
    [/acquire] grants the fresh token, [/call/{session}] passes the message to
    the device when [session] is the one granted and answers 400 otherwise. *)
Definition daemon : server state :=
  fun T sh =>
    match sh in shape T0 return request -> state -> result (response T0) * state with
    | AsDevices => fun r w =>
        (Ok (mkResponse true ""
               (Ok [Some (KeepKeyDevice.mk "desktop-0" KEEPKEY_VENDOR_ID KEEPKEY_PRODUCT_ID
                                           (JStr "KeepKey") JUndefined)])), w)
    | AsBridgeDevices => fun r w =>
        (Ok (mkResponse true "" (Ok [BridgeDevice.mk "/dev/hid0" (current w)])), w)
    | AsSession => fun r w =>
        (Ok (mkResponse true "" (Ok (Str (fresh w)))),
         mkState (Str (fresh w)) (fresh w ++ "+") (features w) (awaiting_pin w))
    | AsVersion => fun r w => (Ok (mkResponse true "" (Ok (Str "2.0.27"))), w)
    | AsMessage => fun r w =>
        if String.eqb (req_url r) (base ++ "/call/" ++ show_nullable (current w)) then
          let '(resp, w') := device_answer (body_type r) w in (Ok resp, w')
        else if String.eqb (req_url r) (base ++ "/call") then
          let '(resp, w') := device_answer (body_type r) w in (Ok resp, w')
        else
          (Ok (mkResponse false "session not found"
                 (Ok (MessageResponse.mk MESSAGE_TYPES.Failure
                        (JObj [("message", JStr "session not found")])))), w)
    | AsNothing => fun r w =>
        (Ok (mkResponse true "" (Ok tt)),
         mkState Null (fresh w) (features w) (awaiting_pin w))
    end.

(** A daemon that answers every request with the status 200 and a body
    without content: [null] for the one device of the Desktop list, and an
    object without a member [session] in the answer to [/acquire]. *)
Definition hollowDaemon : server state :=
  fun T sh =>
    match sh in shape T0 return request -> state -> result (response T0) * state with
    | AsDevices => fun r w => (Ok (mkResponse true "" (Ok [None])), w)
    | AsBridgeDevices => fun r w =>
        (Ok (mkResponse true "" (Ok [BridgeDevice.mk "/dev/hid0" Undefined])), w)
    | AsSession => fun r w => (Ok (mkResponse true "" (Ok Undefined)), w)
    | AsVersion => fun r w => (Ok (mkResponse true "" (Ok Undefined)), w)
    | AsMessage => fun r w =>
        (Ok (mkResponse true "" (Ok (MessageResponse.mk MESSAGE_TYPES.Features (JObj [])))), w)
    | AsNothing => fun r w => (Ok (mkResponse true "" (Ok tt)), w)
    end.

Definition mockFeatures (device_id : string) : jsval :=
  JObj [("vendor", JStr "keepkey.com");
        ("major_version", JNum 7); ("minor_version", JNum 6); ("patch_version", JNum 0);
        ("bootloader_mode", JBool false);
        ("device_id", JStr device_id);
        ("pin_protection", JBool true);
        ("passphrase_protection", JBool false);
        ("language", JStr "en-US");
        ("label", JStr "Test KeepKey");
        ("initialized", JBool true);
        ("model", JStr "K1-14AM")].

(** The daemon at start: no session granted, the first token is [s1]. *)
Definition start (device_id : string) : io state :=
  mkIo (mkState Null "s1" (mockFeatures device_id) false) [].

Definition clientConfig (connectionType : string) : KeepKeyClient.TransportConfig.t :=
  KeepKeyClient.TransportConfig.mk connectionType None None None None None None None.

Definition usbClient : KeepKeyClient.t :=
  KeepKeyClient.new (clientConfig KeepKeyClient.CONNECTION_TYPES.USB_HID).

Definition bridgeClient : KeepKeyClient.t :=
  KeepKeyClient.new (clientConfig KeepKeyClient.CONNECTION_TYPES.KEEPKEY_BRIDGE).

Definition desktopClient : KeepKeyClient.t :=
  KeepKeyClient.new (clientConfig KeepKeyClient.CONNECTION_TYPES.KEEPKEY_DESKTOP).

(** The USB client after [connect], which has thrown. *)
Definition usbConnected : KeepKeyClient.t :=
  object (KeepKeyClient.connect daemon usbClient (start "id")).

(** The Bridge client after [connect], and the world then. *)
Definition bridgeConnected : KeepKeyClient.t :=
  object (KeepKeyClient.connect daemon bridgeClient (start "id")).

Definition bridgeWorld : io state :=
  world (KeepKeyClient.connect daemon bridgeClient (start "id")).

Definition bridgeTransport : BridgeTransport.t :=
  BridgeTransport.new (BridgeTransport.mkConfig None None).

(** The Bridge transport after [connect], holding the session [s1]. *)
Definition transportConnected : BridgeTransport.t :=
  object (BridgeTransport.connect daemon None bridgeTransport (start "id")).

(** The world after another client has taken the device: the daemon now
    grants the session [s2]. *)
Definition rotatedWorld : io state :=
  let w := world (BridgeTransport.connect daemon None bridgeTransport (start "id")) in
  mkIo (mkState (Str "s2") "s3" (features (far w)) (awaiting_pin (far w))) (log w).

End Simulation.

(** ** transport/usbTransport.ts: the transport object and its life cycle *)

Module UsbObject.
Import Js Constants Http.

(** [UsbDevice], with the three members [connect] gives it; the optional
    ones come from an enumeration, and [enumerate] lists no device. *)
Module UsbDevice.
Record t : Type := mk { vendorId : Z; productId : Z; path : string }.
End UsbDevice.

Record UsbTransportConfig : Type := mkConfig {
  vendorId : option Z;
  productId : option Z;
  devicePath : option string;
  timeout : option Z
}.

(** The transport: [link] holds the two members [write], [read] and
    [sendMessage] look at, the handle and the connected flag. *)
Record t : Type := mk {
  config_vendorId : Z;
  config_productId : Z;
  config_devicePath : option string;
  config_timeout : Z;
  device : option UsbDevice.t;
  link : UsbTransport.t;
  emitted : list (event UsbDevice.t)
}.

(** [new UsbTransport(config)]. *)
Definition new (config : UsbTransportConfig) : t :=
  mk (or_default falsy_num (vendorId config) KEEPKEY_VENDOR_ID)
     (or_default falsy_num (productId config) KEEPKEY_PRODUCT_ID)
     (devicePath config)
     (or_default falsy_num (timeout config) TIMEOUT_OPERATION)
     None (UsbTransport.mk None false) [].

Definition set_device (v : option UsbDevice.t) (x : t) : t :=
  mk (config_vendorId x) (config_productId x) (config_devicePath x) (config_timeout x)
     v (link x) (emitted x).

Definition set_link (v : UsbTransport.t) (x : t) : t :=
  mk (config_vendorId x) (config_productId x) (config_devicePath x) (config_timeout x)
     (device x) v (emitted x).

Definition set_connected (v : bool) (x : t) : t :=
  set_link (UsbTransport.mk (UsbTransport.handle (link x)) v) x.

Definition set_handle (v : option UsbTransport.Hid) (x : t) : t :=
  set_link (UsbTransport.mk v (UsbTransport.connected (link x))) x.

Definition emit (name : string) (a : arg UsbDevice.t) (x : t) : t :=
  mk (config_vendorId x) (config_productId x) (config_devicePath x) (config_timeout x)
     (device x) (link x) (emitted x ++ [mkEvent name a]).

(** [enumerate()]: the call into the HID library is a comment, the list is
    empty. *)
Definition enumerate (self : t) : result (list UsbDevice.t) := Ok [].

(** [path || this.config.devicePath]. *)
Definition devicePathOf (path : option string) (self : t) : option string :=
  match truthy path with
  | Some p => Some p
  | None => config_devicePath self
  end.

(** The body of the [try] of [connect]. *)
Definition tryConnect (path : option string) (self : t) : result UsbDevice.t * t :=
  let found : result UsbDevice.t * t :=
    match truthy (devicePathOf path self) with
    | None =>
        match enumerate self with
        | Throw e => (Throw e, self)
        | Ok devices =>
            match find (fun d => (UsbDevice.vendorId d =? config_vendorId self) &&
                                 (UsbDevice.productId d =? config_productId self)) devices with
            | None => (Throw (Error "No KeepKey device found"), self)
            | Some keepKey => (Ok keepKey, set_device (Some keepKey) self)
            end
        end
    | Some devicePath =>
        let d := UsbDevice.mk (config_vendorId self) (config_productId self) devicePath in
        (Ok d, set_device (Some d) self)
    end in
  match found with
  | (Throw e, self1) => (Throw e, self1)
  | (Ok d, self1) =>
      let self2 := set_connected true self1 in
      (Ok d, emit DEVICE_EVENTS.CONNECTED (DeviceArg d) self2)
  end.

(** [connect(path)]. *)
Definition connect (path : option string) (self : t) : result UsbDevice.t * t :=
  match tryConnect path self with
  | (Ok d, self1) => (Ok d, self1)
  | (Throw error, self1) =>
      (Throw (Error ("Failed to connect to device: " ++ message error)),
       emit DEVICE_EVENTS.FAILURE (ErrorArg error) self1)
  end.

(** [disconnect()]. *)
Definition disconnect (self : t) : result unit * t :=
  match UsbTransport.handle (link self) with
  | Some _ =>
      if negb (UsbTransport.connected (link self)) then (Ok tt, self)
      else
        let self1 := set_connected false self in
        let self2 := set_device None self1 in
        let self3 := set_handle None self2 in
        (Ok tt, emit DEVICE_EVENTS.DISCONNECTED NoArg self3)
  | None => (Ok tt, self)
  end.

(** [isConnected()] and [getDevice()]. *)
Definition isConnected (self : t) : bool := UsbTransport.connected (link self).

Definition getDevice (self : t) : option UsbDevice.t := device self.

(** [write(data)], [read(timeout)] and [sendMessage(messageType, message)] on
    the object. *)
Definition write (data : UsbTransport.Buffer) (self : t) : result Z * t :=
  (UsbTransport.write (link self) data, self).

Definition read (self : t) : result UsbTransport.Buffer * t :=
  let '(r, l) := UsbTransport.read (link self) in (r, set_link l self).

Definition sendMessage (messageType : Z) (message : UsbTransport.Buffer) (self : t)
  : result UsbTransport.Buffer * t :=
  let '(r, l) := UsbTransport.sendMessage (link self) messageType message in
  (r, set_link l self).

(** [exchange(data, timeout)]. *)
Definition exchange (data : UsbTransport.Buffer) (self : t) : result UsbTransport.Buffer * t :=
  match write data self with
  | (Throw e, self1) => (Throw e, self1)
  | (Ok _, self1) => read self1
  end.

(** The methods that touch the transport, as data, and the transport after
    one and after a sequence of them, whether they returned or threw. *)
Inductive op : Type :=
| Connect (path : option string)
| Disconnect
| Enumerate
| Write (data : UsbTransport.Buffer)
| Read
| Exchange (data : UsbTransport.Buffer)
| SendMessage (messageType : Z) (message : UsbTransport.Buffer).

Definition after (self : t) (o : op) : t :=
  match o with
  | Connect p => snd (connect p self)
  | Disconnect => snd (disconnect self)
  | Enumerate => self
  | Write d => snd (write d self)
  | Read => snd (read self)
  | Exchange d => snd (exchange d self)
  | SendMessage ty m => snd (sendMessage ty m self)
  end.

Definition afterAll (self : t) (ops : list op) : t := fold_left after ops self.

End UsbObject.

(** ** Sequences of client operations, and the requests they issue *)

Module Traffic.
Import Js Constants Http.

(** The client and the world after a sequence of operations, each started
    when the one before has returned or thrown. *)
Fixpoint run_clients {W : Type} (srv : server W) (ops : list Operations.client_op)
  (self : KeepKeyClient.t) (w : io W) : KeepKeyClient.t * io W :=
  match ops with
  | [] => (self, w)
  | o :: rest =>
      let '(_, self1, w1) := Operations.run_client srv o self w in
      run_clients srv rest self1 w1
  end.

(** A method started on [x] keeps [I] and issues only requests that satisfy
    [Q]. *)
Definition sends_from {X W A : Type} (I : X -> Prop) (Q : request -> Prop)
  (m : M X W A) (x : X) : Prop :=
  forall w : io W,
    I (object (m x w)) /\
    exists rs : list request, log (world (m x w)) = (log w ++ rs)%list /\ Forall Q rs.

Definition sends {X W A : Type} (I : X -> Prop) (Q : request -> Prop) (m : M X W A) : Prop :=
  forall x : X, I x -> sends_from I Q m x.

(** The base URLs of a client, and the requests the code builds on them. *)
Definition bridgeBase (c : KeepKeyClient.Config) : string :=
  or_default falsy_string (KeepKeyClient.bridgeUrl c) "http://localhost:1646".

Definition desktopBase (c : KeepKeyClient.Config) : string :=
  or_default falsy_string (KeepKeyClient.desktopUrl c) "http://localhost:1646".

(** The requests of a client of configuration [c]: those of the Desktop type
    on the Desktop URL, those of the Bridge type on the Bridge URL. *)
Inductive client_request (c : KeepKeyClient.Config) : request -> Prop :=
| DesktopDevices :
    KeepKeyClient.switch (KeepKeyClient.connectionType c) = KeepKeyClient.CaseDesktop ->
    client_request c (mkRequest GET (desktopBase c ++ "/devices") [] None)
| DesktopCall (type : Z) (params : list (string * jsval)) :
    KeepKeyClient.switch (KeepKeyClient.connectionType c) = KeepKeyClient.CaseDesktop ->
    client_request c
      (KeepKeyClient.desktopCallRequest (desktopBase c) (KeepKeyClient.apiKey c) type params)
| BridgeEnumerate :
    KeepKeyClient.switch (KeepKeyClient.connectionType c) = KeepKeyClient.CaseBridge ->
    client_request c (mkRequest GET (bridgeBase c ++ "/enumerate") [] None)
| BridgeAcquire (path : string) (previous : string) :
    KeepKeyClient.switch (KeepKeyClient.connectionType c) = KeepKeyClient.CaseBridge ->
    client_request c
      (mkRequest POST (bridgeBase c ++ "/acquire/" ++ path ++ "/" ++ previous) [] None)
| BridgeCall (session : nullable) (type : Z) (params : list (string * jsval)) :
    KeepKeyClient.switch (KeepKeyClient.connectionType c) = KeepKeyClient.CaseBridge ->
    client_request c (KeepKeyClient.bridgeCallRequest (bridgeBase c) session type params).

(** The transport and the world after a sequence of operations on a Bridge
    transport. *)
Fixpoint run_bridges {W : Type} (srv : server W) (ops : list Operations.bridge_op)
  (self : BridgeTransport.t) (w : io W) : BridgeTransport.t * io W :=
  match ops with
  | [] => (self, w)
  | o :: rest =>
      let '(_, self1, w1) := Operations.run_bridge srv o self w in
      run_bridges srv rest self1 w1
  end.

(** The requests of a Bridge transport of base URL [u]; a call, a raw
    message and a poll are posted under a session token that is not empty. *)
Inductive bridge_request (u : string) : request -> Prop :=
| TransportEnumerate :
    bridge_request u (mkRequest GET (u ++ "/enumerate") [] None)
| TransportAcquire (path previous : string) :
    bridge_request u
      (mkRequest POST (u ++ "/acquire" ++ "/" ++ path ++ "/" ++ previous) [] None)
| TransportRelease (session : string) :
    bridge_request u (mkRequest POST (u ++ "/release" ++ "/" ++ session) [] None)
| TransportCall (session : string) (messageType : Z) (message : jsval) :
    session <> "" ->
    bridge_request u (BridgeTransport.callRequest u session messageType message)
| TransportPost (session : string) (data : string) :
    session <> "" ->
    bridge_request u (BridgeTransport.postRequest u session data)
| TransportRoot :
    bridge_request u (mkRequest GET (u ++ "/") [] None)
| TransportListen (session : string) :
    session <> "" ->
    bridge_request u (BridgeTransport.listenRequest u session).

Definition same_url (u : string) (x : BridgeTransport.t) : Prop :=
  BridgeTransport.config_url x = u.

(** The client with another device path and another timeout in its
    configuration, and the result of a method with the client changed so. *)
Definition reconfigured (path : option string) (tm : Z) (x : KeepKeyClient.t)
  : KeepKeyClient.t :=
  let c := KeepKeyClient.config x in
  KeepKeyClient.mk
    (KeepKeyClient.mkConfig (KeepKeyClient.connectionType c) path
       (KeepKeyClient.vendorId c) (KeepKeyClient.productId c)
       (KeepKeyClient.bridgeUrl c) (KeepKeyClient.desktopUrl c)
       (KeepKeyClient.apiKey c) tm)
    (KeepKeyClient.device x) (KeepKeyClient.connected x)
    (KeepKeyClient.sessionId x) (KeepKeyClient.emitted x).

Definition on_object {X W A : Type} (f : X -> X) (r : result A * X * io W)
  : result A * X * io W :=
  let '(out, x, w) := r in (out, f x, w).

(** [m1] started on the changed object does what [m2] does on the object,
    up to the change, and [m2] keeps [I]. *)
Definition alike_at {X W A : Type} (f : X -> X) (I : X -> Prop) (m1 m2 : M X W A) (x : X)
  : Prop :=
  forall w : io W, m1 (f x) w = on_object f (m2 x w) /\ I (object (m2 x w)).

Definition alike {X W A : Type} (f : X -> X) (I : X -> Prop) (m1 m2 : M X W A) : Prop :=
  forall x : X, I x -> alike_at f I m1 m2 x.

(** A client that is not of the USB HID type. *)
Definition not_usb_hid (x : KeepKeyClient.t) : Prop :=
  KeepKeyClient.switch (KeepKeyClient.connectionType (KeepKeyClient.config x))
  <> KeepKeyClient.CaseUsbHid.

(** The request that releases a session on the Bridge, as
    [BridgeTransport.release] issues it. *)
Definition releaseRequest (base session : string) : request :=
  mkRequest POST (base ++ "/release" ++ "/" ++ session) [] None.

Definition same_config (c : KeepKeyClient.Config) (x : KeepKeyClient.t) : Prop :=
  KeepKeyClient.config x = c.

(** What [callUsbHid] and [callWebUsb] throw, by the branch of the
    connection type. *)
Definition transportError (b : KeepKeyClient.branch) : option error :=
  match b with
  | KeepKeyClient.CaseUsbHid => Some (Error "USB HID transport requires native module")
  | KeepKeyClient.CaseWebUsb => Some (Error "WebUSB transport requires browser environment")
  | _ => None
  end.

(** The path of the device [connectUsbHid] and [connectWebUsb] set. *)
Definition transportPath (c : KeepKeyClient.Config) : string :=
  match KeepKeyClient.switch (KeepKeyClient.connectionType c) with
  | KeepKeyClient.CaseUsbHid => or_default falsy_string (KeepKeyClient.devicePath c) ""
  | _ => "webusb"
  end.

(** A client of configuration [c] that is connected and holds a device. *)
Definition stuck_inv (c : KeepKeyClient.Config) (x : KeepKeyClient.t) : Prop :=
  KeepKeyClient.connected x = true /\ KeepKeyClient.device x <> None /\
  KeepKeyClient.config x = c.

End Traffic.

(** ** utils/pinUtils.ts *)

Module PinUtils.
Import Js.

(** The character class [[1-9]]. *)
Definition is_pin_digit (c : ascii) : bool :=
  let n := nat_of_ascii c in (49 <=? n)%nat && (n <=? 57)%nat.

(** [isValidPin(pin)]; the regular expression is [/^[1-9]+$/]. *)
Definition isValidPin (pin : string) : bool :=
  if falsy_string pin || (String.length pin <? 1)%nat || (9 <? String.length pin)%nat
  then false
  else negb (String.eqb pin "") && all_chars is_pin_digit pin.

(** [a === b] on numbers. *)
Definition strict_eq (a b : number) : bool :=
  match a, b with
  | Num x, Num y => x =? y
  | _, _ => false
  end.

(** [matrix.indexOf(value)]: [None] for -1. *)
Fixpoint indexOf (value : number) (matrix : list number) : option nat :=
  match matrix with
  | [] => None
  | m :: rest => if strict_eq m value then Some O else option_map S (indexOf value rest)
  end.

(** The loop [for (const digit of pin)] of [encodePin], [encoded] being what
    is gathered so far. *)
Fixpoint encodeDigits (pin : string) (matrix : list number) (encoded : string) : string :=
  match pin with
  | EmptyString => encoded
  | String digit rest =>
      let value := parseInt (String digit EmptyString) in
      match indexOf value matrix with
      | Some position =>
          encodeDigits rest matrix (encoded ++ toString (Num (Z.of_nat position + 1)))
      | None => encodeDigits rest matrix (encoded ++ String digit EmptyString)
      end
  end.

(** [encodePin(pin, matrix)]; [matrix] is [None] when it is left out. *)
Definition encodePin (pin : string) (matrix : option (list number)) : result string :=
  if negb (isValidPin pin) then
    Throw (Error "Invalid PIN format. PIN must be 1-9 digits, each between 1-9.")
  else
    match matrix with
    | None => Ok pin
    | Some m => Ok (encodeDigits pin m "")
    end.

(** The reading of an encoded PIN, to state what [encodePin] achieves: the
    cell of the matrix a position names, and the digits of a PIN. *)
Definition cellAt (matrix : list number) (position : ascii) : number :=
  nth (Z.to_nat (digit_val position) - 1) matrix NaN.

Definition pinDigits (pin : string) : list number :=
  map (fun c => Num (digit_val c)) (list_ascii_of_string pin).

End PinUtils.

(** ** KeepKey.node.ts: what the node makes of the client *)

Module KeepKeyNode.
Import Js Constants Http.

(** The configuration [execute] builds from the parameters [connectionType],
    [bridgeUrl] and [desktopUrl] of the node. *)
Definition nodeConfig (connectionType bridgeUrlParam desktopUrlParam : string)
  : KeepKeyClient.TransportConfig.t :=
  let bridgeUrl :=
    if String.eqb connectionType "bridge" then bridgeUrlParam else desktopUrlParam in
  KeepKeyClient.TransportConfig.mk
    (if String.eqb connectionType "bridge" then "keepkeyBridge" else "keepkeyDesktop")
    None None None (Some bridgeUrl) None None (Some 30000).

(** [new NodeOperationError(node, message)]. *)
Definition NodeOperationError (msg : string) : error := mkError "NodeOperationError" msg.

Section Operations.
Context {W : Type} (srv : server W).
Local Open Scope method_scope.

(** The case [enterPin] of [executePinOperation]. *)
Definition enterPin (pin : string) : M KeepKeyClient.t W jsval :=
  if negb (PinUtils.isValidPin pin) then throw (NodeOperationError "Invalid PIN format")
  else
    (encodedPin <- lift (PinUtils.encodePin pin None) ;;
     KeepKeyClient.sendPin srv encodedPin ;;;
     ret (JObj [("status", JStr "pin_entered")])).

End Operations.

End KeepKeyNode.

(** ** utils/swapUtils.ts: the THORChain memo and asset strings *)

Module SwapUtils.
Import Js.

Record ThorchainMemoParams : Type := mkMemoParams {
  mp_asset : string;
  mp_destinationAddress : string;
  mp_limit : option number;
  mp_affiliate : option string;
  mp_affiliateFee : option number
}.

(** [ParsedThorchainMemo]; an optional member is [None] when it is not
    set. *)
Record ParsedThorchainMemo : Type := mkParsedMemo {
  action : string;
  asset : string;
  destinationAddress : option string;
  limit : option number;
  affiliate : option string;
  affiliateFee : option number
}.

(** [createThorchainSwapMemo(params)]. *)
Definition createThorchainSwapMemo (params : ThorchainMemoParams) : string :=
  let parts := ["SWAP"; mp_asset params; mp_destinationAddress params] in
  let parts :=
    match mp_limit params with
    | Some l => (parts ++ [toString l])%list
    | None => (parts ++ [""])%list
    end in
  let parts :=
    match truthy (mp_affiliate params) with
    | Some a =>
        ((parts ++ [a]) ++
         [match truthy (option_map toString (mp_affiliateFee params)) with
          | Some fee => fee
          | None => "0"
          end])%list
    | None => parts
    end in
  String.concat ":" parts.

(** [parseThorchainSwapMemo(memo)]. *)
Definition parseThorchainSwapMemo (memo : string) : ParsedThorchainMemo :=
  let parts := split ":" memo in
  let action := nth 0 parts "" in
  let action :=
    if String.eqb action "=" || String.eqb action "s" then "SWAP"
    else if String.eqb action "+" then "ADD"
    else if String.eqb action "-" then "WITHDRAW"
    else action in
  mkParsedMemo action
    (match truthy (nth_error parts 1) with Some a => a | None => "" end)
    (nth_error parts 2)
    (option_map parseInt (truthy (nth_error parts 3)))
    (truthy (nth_error parts 4))
    (option_map parseInt (truthy (nth_error parts 5))).

(** [s.indexOf(c)] for a character: [None] for -1. *)
Fixpoint indexOfChar (c : ascii) (s : string) : option nat :=
  match s with
  | EmptyString => None
  | String x r => if Ascii.eqb x c then Some O else option_map S (indexOfChar c r)
  end.

Record ParsedThorchainAsset : Type := mkParsedAsset {
  chain : string;
  symbol : string;
  contractAddress : option string
}.

(** [formatThorchainAsset(chain, symbol, contractAddress)]. *)
Definition formatThorchainAsset (chain symbol : string) (contractAddress : option string)
  : string :=
  match truthy contractAddress with
  | Some c => chain ++ "." ++ symbol ++ "-" ++ c
  | None => chain ++ "." ++ symbol
  end.

(** [parseThorchainAsset(asset)]; [const [chain, rest] = asset.split('.')]. *)
Definition parseThorchainAsset (asset : string) : ParsedThorchainAsset :=
  let parts := split "." asset in
  let chain := nth 0 parts "" in
  match truthy (nth_error parts 1) with
  | None => mkParsedAsset chain chain None
  | Some rest =>
      match indexOfChar "-" rest with
      | Some (S d) =>
          mkParsedAsset chain (substring 0 (S d) rest) (Some (drop (S d + 1) rest))
      | _ => mkParsedAsset chain rest None
      end
  end.

(** A string without the given character. *)
Definition free_of (c : ascii) (s : string) : bool :=
  all_chars (fun x => negb (Ascii.eqb x c)) s.

End SwapUtils.

(* ================================================================== *)
(** * Theorems *)

(** ** Strings and decimal numerals *)

Module JsFacts.
Import Js.

Lemma digit_cases (d : Z) :
  0 <= d < 10 ->
  d = 0 \/ d = 1 \/ d = 2 \/ d = 3 \/ d = 4 \/ d = 5 \/ d = 6 \/ d = 7 \/ d = 8 \/ d = 9.
Proof. lia. Qed.

Lemma digit_char_is_digit (d : Z) : 0 <= d < 10 -> is_digit (digit_char d) = true.
Proof.
  intros H. destruct (digit_cases d H) as [->|[->|[->|[->|[->|[->|[->|[->|[->| ->]]]]]]]]];
    reflexivity.
Qed.

Lemma digit_val_char (d : Z) : 0 <= d < 10 -> digit_val (digit_char d) = d.
Proof.
  intros H. destruct (digit_cases d H) as [->|[->|[->|[->|[->|[->|[->|[->|[->| ->]]]]]]]]];
    reflexivity.
Qed.

Lemma mod10_range (n : Z) : 0 <= n mod 10 < 10.
Proof. apply Z.mod_pos_bound. lia. Qed.

(** Reading back the digits written by [to_digits] continues the accumulator
    with the number written. *)
Lemma digits_val_to_digits (f : nat) :
  forall n, 0 <= n < 2 ^ Z.of_nat f ->
  exists k, 0 <= k /\
    forall rest a, digits_val (to_digits f n rest) a = digits_val rest (a * 10 ^ k + n).
Proof.
  induction f as [|f IH]; intros n Hn.
  - exists 0. split; [lia|]. intros rest a. simpl.
    assert (n = 0) by (simpl in Hn; lia). subst n. f_equal. lia.
  - cbn [to_digits]. destruct (Z.eqb_spec (n / 10) 0) as [Hq|Hq].
    + exists 1. split; [lia|]. intros rest a. cbn [digits_val].
      rewrite digit_char_is_digit by apply mod10_range.
      rewrite digit_val_char by apply mod10_range.
      f_equal. pose proof (Z.div_mod n 10). lia.
    + assert (Hn' : 0 <= n / 10 < 2 ^ Z.of_nat f).
      { split; [apply Z.div_pos; lia|].
        apply Z.div_lt_upper_bound; [lia|].
        rewrite Nat2Z.inj_succ, Z.pow_succ_r in Hn by lia. lia. }
      destruct (IH _ Hn') as (k & Hk & IHk).
      exists (k + 1). split; [lia|]. intros rest a.
      rewrite IHk. cbn [digits_val].
      rewrite digit_char_is_digit by apply mod10_range.
      rewrite digit_val_char by apply mod10_range.
      f_equal. rewrite Z.pow_add_r by lia. pose proof (Z.div_mod n 10). lia.
Qed.

Lemma log2_fuel (n : Z) : 0 <= n -> 0 <= n < 2 ^ Z.of_nat (S (Z.to_nat (Z.log2 n))).
Proof.
  intros Hn. split; [assumption|].
  rewrite Nat2Z.inj_succ, Z2Nat.id by apply Z.log2_nonneg.
  destruct (Z.eq_dec n 0) as [->|Hz]; [reflexivity|].
  apply Z.log2_spec. lia.
Qed.

Lemma digits_val_digits_of (n : Z) : 0 <= n -> digits_val (digits_of n) 0 = n.
Proof.
  intros Hn. unfold digits_of.
  destruct (digits_val_to_digits _ n (log2_fuel n Hn)) as (k & _ & H).
  rewrite H. simpl. lia.
Qed.

Lemma all_chars_to_digits (f : nat) :
  forall n acc, all_chars is_digit acc = true ->
  all_chars is_digit (to_digits f n acc) = true.
Proof.
  induction f as [|f IH]; intros n acc Hacc; cbn [to_digits]; [assumption|].
  assert (H : all_chars is_digit (String (digit_char (n mod 10)) acc) = true).
  { cbn [all_chars]. rewrite digit_char_is_digit by apply mod10_range. assumption. }
  destruct (n / 10 =? 0); [assumption|]. apply IH. assumption.
Qed.

Lemma all_chars_digits_of (n : Z) : all_chars is_digit (digits_of n) = true.
Proof. apply all_chars_to_digits. reflexivity. Qed.

Lemma to_digits_nonempty (f : nat) :
  forall n acc, acc <> EmptyString -> to_digits f n acc <> EmptyString.
Proof.
  induction f as [|f IH]; intros n acc Hacc; cbn [to_digits]; [assumption|].
  destruct (n / 10 =? 0); [discriminate|]. apply IH. discriminate.
Qed.

Lemma digits_of_nonempty (n : Z) : digits_of n <> EmptyString.
Proof.
  unfold digits_of. cbn [to_digits].
  destruct (n / 10 =? 0); [discriminate|]. apply to_digits_nonempty. discriminate.
Qed.

(** [parseInt] on a string that starts with a digit. *)
Lemma parseInt_digits (c : ascii) (r : string) :
  is_digit c = true -> parseInt (String c r) = Num (digits_val (String c r) 0).
Proof.
  intros H.
  destruct c as [b0 b1 b2 b3 b4 b5 b6 b7].
  destruct b0, b1, b2, b3, b4, b5, b6, b7; try discriminate H; reflexivity.
Qed.

Lemma parseInt_all_digits (s : string) :
  s <> EmptyString -> all_chars is_digit s = true -> parseInt s = Num (digits_val s 0).
Proof.
  destruct s as [|c r]; [congruence|]. intros _ H. cbn [all_chars] in H.
  apply andb_true_iff in H. apply parseInt_digits. tauto.
Qed.

Lemma parseInt_digits_of (n : Z) : 0 <= n -> parseInt (digits_of n) = Num n.
Proof.
  intros Hn. rewrite parseInt_all_digits.
  - rewrite digits_val_digits_of by assumption. reflexivity.
  - apply digits_of_nonempty.
  - apply all_chars_digits_of.
Qed.

Lemma append_assoc (a b c : string) : (a ++ b) ++ c = a ++ (b ++ c).
Proof. induction a as [|x a IH]; simpl; [reflexivity|]. now rewrite IH. Qed.

(** [endsWith] with a suffix of one character looks at the last character. *)
Lemma endsWith_cons (a : ascii) (r : string) (c : ascii) :
  endsWith (String a r) (String c EmptyString) =
  match r with
  | EmptyString => Ascii.eqb a c
  | String _ _ => endsWith r (String c EmptyString)
  end.
Proof.
  destruct r as [|b r'].
  - unfold endsWith. simpl. destruct (Ascii.eqb a c); reflexivity.
  - unfold endsWith. cbn [String.length Nat.leb Nat.sub drop andb].
    rewrite Nat.sub_0_r. reflexivity.
Qed.

Lemma endsWith_snoc (s : string) (c : ascii) :
  endsWith (s ++ String c EmptyString) (String c EmptyString) = true.
Proof.
  induction s as [|a s IH].
  - simpl. rewrite endsWith_cons. apply Ascii.eqb_refl.
  - cbn [append]. rewrite endsWith_cons.
    destruct (s ++ String c EmptyString) eqn:E; [destruct s; discriminate E|].
    assumption.
Qed.

Lemma endsWith_all_chars (p : ascii -> bool) (s : string) (c : ascii) :
  all_chars p s = true -> p c = false -> endsWith s (String c EmptyString) = false.
Proof.
  intros Hs Hc. induction s as [|a s IH].
  - reflexivity.
  - cbn [all_chars] in Hs. apply andb_true_iff in Hs. destruct Hs as [Ha Hs].
    rewrite endsWith_cons. destruct s as [|b s'].
    + destruct (Ascii.eqb_spec a c); [congruence|reflexivity].
    + apply IH. assumption.
Qed.

Lemma remove_chars_keep (cls p : ascii -> bool) (s : string) :
  (forall c, p c = true -> cls c = false) ->
  all_chars p s = true -> remove_chars cls s = s.
Proof.
  intros Hp. induction s as [|a s IH]; intros H; [reflexivity|].
  cbn [all_chars] in H. apply andb_true_iff in H. destruct H as [Ha Hs].
  cbn [remove_chars]. rewrite (Hp a Ha). now rewrite IH.
Qed.

Lemma remove_chars_app (cls : ascii -> bool) (a b : string) :
  remove_chars cls (a ++ b) = remove_chars cls a ++ remove_chars cls b.
Proof.
  induction a as [|x a IH]; [reflexivity|].
  cbn [append remove_chars]. destruct (cls x); cbn [append]; now rewrite IH.
Qed.

Lemma append_empty_r (s : string) : s ++ EmptyString = s.
Proof. induction s as [|a s IH]; simpl; [reflexivity|]. now rewrite IH. Qed.

Lemma all_chars_app (p : ascii -> bool) (a b : string) :
  all_chars p (a ++ b) = all_chars p a && all_chars p b.
Proof.
  induction a as [|x a IH]; [reflexivity|].
  cbn [append all_chars]. rewrite IH. now rewrite andb_assoc.
Qed.

(** [split] undoes a join whose pieces are free of the separator. *)
Lemma split_no_sep (sep : ascii) (s : string) :
  all_chars (fun c => negb (Ascii.eqb c sep)) s = true -> split sep s = [s].
Proof.
  induction s as [|a s IH]; intros H; [reflexivity|].
  cbn [all_chars] in H. apply andb_true_iff in H. destruct H as [Ha Hs].
  cbn [split]. apply negb_true_iff in Ha. rewrite Ha, (IH Hs). reflexivity.
Qed.

Lemma split_app_sep (sep : ascii) (s rest : string) :
  all_chars (fun c => negb (Ascii.eqb c sep)) s = true ->
  split sep (s ++ String sep rest) = s :: split sep rest.
Proof.
  induction s as [|a s IH]; intros H.
  - cbn [append split]. now rewrite Ascii.eqb_refl.
  - cbn [all_chars] in H. apply andb_true_iff in H. destruct H as [Ha Hs].
    cbn [append split]. apply negb_true_iff in Ha. rewrite Ha, (IH Hs). reflexivity.
Qed.

Lemma split_concat (sep : ascii) (parts : list string) :
  parts <> [] ->
  Forall (fun p => all_chars (fun c => negb (Ascii.eqb c sep)) p = true) parts ->
  split sep (String.concat (String sep EmptyString) parts) = parts.
Proof.
  induction parts as [|p ps IH]; intros Hne Hall; [congruence|].
  inversion Hall as [|? ? Hp Hps]; subst.
  destruct ps as [|q qs].
  - cbn [String.concat]. apply split_no_sep. assumption.
  - cbn [String.concat] in *. cbn [append].
    rewrite split_app_sep by assumption.
    f_equal. apply IH; [discriminate|assumption].
Qed.

Lemma replace_prefix (pat s : string) : replace pat EmptyString (pat ++ s) = s.
Proof.
  assert (Hp : forall a b, prefix a (a ++ b) = true).
  { induction a as [|x a IH]; intros b.
    - destruct b; reflexivity.
    - cbn [append prefix]. destruct (ascii_dec x x); [apply IH|congruence]. }
  assert (Hd : forall a b, drop (String.length a) (a ++ b) = b).
  { induction a as [|x a IH]; intros b; [destruct b; reflexivity|apply IH]. }
  destruct pat as [|x pat].
  - destruct s; reflexivity.
  - cbn [append]. cbn [replace]. change (String x (pat ++ s)) with (String x pat ++ s).
    rewrite Hp. cbn [append]. apply (Hd (String x pat)).
Qed.

Lemma digit_val_range (c : ascii) : is_digit c = true -> 0 <= digit_val c < 10.
Proof.
  intros H. destruct c as [b0 b1 b2 b3 b4 b5 b6 b7].
  destruct b0, b1, b2, b3, b4, b5, b6, b7; try discriminate H; vm_compute; split; congruence.
Qed.

Lemma digit_char_val (c : ascii) : is_digit c = true -> digit_char (digit_val c) = c.
Proof.
  intros H. destruct c as [b0 b1 b2 b3 b4 b5 b6 b7].
  destruct b0, b1, b2, b3, b4, b5, b6, b7; try discriminate H; reflexivity.
Qed.

Lemma digit_val_zero (c : ascii) : is_digit c = true -> digit_val c = 0 -> c = "0"%char.
Proof.
  intros H. destruct c as [b0 b1 b2 b3 b4 b5 b6 b7].
  destruct b0, b1, b2, b3, b4, b5, b6, b7; try discriminate H; vm_compute; congruence.
Qed.

Lemma digits_val_app (a b : string) :
  all_chars is_digit a = true ->
  forall acc, digits_val (a ++ b) acc = digits_val b (digits_val a acc).
Proof.
  induction a as [|x a IH]; intros H acc; [reflexivity|].
  cbn [all_chars] in H. apply andb_true_iff in H. destruct H as [Hx Ha].
  cbn [append digits_val]. rewrite Hx. apply IH. assumption.
Qed.

Lemma digits_val_ge (s : string) : forall acc, 0 <= acc -> acc <= digits_val s acc.
Proof.
  induction s as [|c s IH]; intros acc Hacc; cbn [digits_val]; [lia|].
  destruct (is_digit c) eqn:Hc; [|lia].
  pose proof (digit_val_range c Hc). specialize (IH (10 * acc + digit_val c)). lia.
Qed.

Lemma snoc_dropLast (s : string) :
  s <> EmptyString -> exists c, s = dropLast s ++ String c EmptyString.
Proof.
  induction s as [|a s IH]; intros H; [congruence|].
  destruct s as [|b s'].
  - exists a. reflexivity.
  - destruct IH as [c Hc]; [discriminate|]. exists c.
    change (dropLast (String a (String b s'))) with (String a (dropLast (String b s'))).
    cbn [append]. rewrite <- Hc. reflexivity.
Qed.

Lemma to_digits_snoc (f : nat) (s' : string) (c : ascii) (acc : string) :
  all_chars is_digit s' = true -> is_digit c = true ->
  to_digits (S f) (digits_val (s' ++ String c EmptyString) 0) acc =
  if digits_val s' 0 =? 0 then String c acc
  else to_digits f (digits_val s' 0) (String c acc).
Proof.
  intros Hs' Hc.
  pose proof (digit_val_range c Hc) as Hrange.
  pose proof (digits_val_ge s' 0 (Z.le_refl 0)) as Hge.
  assert (Hv : digits_val (s' ++ String c EmptyString) 0 = 10 * digits_val s' 0 + digit_val c).
  { rewrite digits_val_app by assumption. cbn [digits_val]. now rewrite Hc. }
  assert (Hq : digits_val (s' ++ String c EmptyString) 0 / 10 = digits_val s' 0).
  { rewrite Hv. symmetry. apply (Z.div_unique _ 10 _ (digit_val c)); lia. }
  assert (Hm : digits_val (s' ++ String c EmptyString) 0 mod 10 = digit_val c).
  { rewrite Hv. symmetry. apply (Z.mod_unique _ 10 (digits_val s' 0)); lia. }
  change (to_digits (S f) ?n acc)
    with (if n / 10 =? 0 then String (digit_char (n mod 10)) acc
          else to_digits f (n / 10) (String (digit_char (n mod 10)) acc)).
  rewrite Hq, Hm, digit_char_val by assumption. reflexivity.
Qed.

Lemma first_digit_positive (h : ascii) (r : string) :
  all_chars is_digit (String h r) = true -> Ascii.eqb h "0" = false ->
  1 <= digits_val (String h r) 0.
Proof.
  intros Hd Hz.
  cbn [all_chars] in Hd. apply andb_true_iff in Hd. destruct Hd as [Hh Hr].
  cbn [digits_val]. rewrite Hh.
  pose proof (digit_val_range h Hh).
  assert (digit_val h <> 0).
  { intros E. apply digit_val_zero in E; [|assumption]. subst h. discriminate Hz. }
  pose proof (digits_val_ge r (10 * 0 + digit_val h)). lia.
Qed.

(** Writing the value of a numeral without leading zero gives the numeral. *)
Lemma to_digits_digits_val (f : nat) :
  forall s acc,
    all_chars is_digit s = true -> no_leading_zero s = true ->
    digits_val s 0 < 2 ^ Z.of_nat (S f) ->
    to_digits (S f) (digits_val s 0) acc = s ++ acc.
Proof.
  induction f as [|f IH]; intros s acc Hd Hz Hlt.
  all: destruct s as [|h r]; [discriminate Hz|].
  all: destruct (snoc_dropLast (String h r)) as [c Hc]; [discriminate|].
  all: assert (Hd' : all_chars is_digit (dropLast (String h r)) = true /\ is_digit c = true)
         by (rewrite Hc, all_chars_app in Hd; cbn [all_chars] in Hd;
             apply andb_true_iff in Hd; rewrite andb_true_r in Hd; exact Hd).
  all: destruct Hd' as [Hs' Hcd].
  all: pose proof (digit_val_range c Hcd) as Hrange.
  all: assert (Hv : digits_val (String h r) 0
                    = 10 * digits_val (dropLast (String h r)) 0 + digit_val c)
         by (rewrite Hc at 1; rewrite digits_val_app by assumption;
             cbn [digits_val]; rewrite Hcd; reflexivity).
  all: rewrite Hc at 1; rewrite to_digits_snoc by assumption.
  all: destruct r as [|b r'];
         [ cbn [dropLast append] in Hc; injection Hc as ->; reflexivity | ].
  all: assert (Hh0 : Ascii.eqb h "0" = false)
         by (cbn [no_leading_zero String.eqb] in Hz; rewrite orb_false_r in Hz;
             apply negb_true_iff in Hz; exact Hz).
  all: change (dropLast (String h (String b r')))
         with (String h (dropLast (String b r'))) in *.
  all: assert (Hz' : no_leading_zero (String h (dropLast (String b r'))) = true)
         by (cbn [no_leading_zero]; rewrite Hh0; reflexivity).
  all: pose proof (first_digit_positive h _ Hs' Hh0) as Hpos.
  all: destruct (Z.eqb_spec (digits_val (String h (dropLast (String b r'))) 0) 0) as [E|_];
         [lia|].
  - change (2 ^ Z.of_nat 1) with 2 in Hlt. lia.
  - rewrite IH.
    + rewrite Hc. rewrite append_assoc. reflexivity.
    + assumption.
    + assumption.
    + rewrite (Nat2Z.inj_succ (S f)), Z.pow_succ_r in Hlt by lia. lia.
Qed.

Lemma digits_of_digits_val (s : string) :
  all_chars is_digit s = true -> no_leading_zero s = true ->
  digits_of (digits_val s 0) = s.
Proof.
  intros Hd Hz. unfold digits_of.
  rewrite to_digits_digits_val; try assumption.
  - apply append_empty_r.
  - apply log2_fuel. apply digits_val_ge. lia.
Qed.

(** Joining what [split] gave restores the string. *)
Lemma concat_split (sep : ascii) (s : string) :
  String.concat (String sep EmptyString) (split sep s) = s.
Proof.
  induction s as [|c s IH]; [reflexivity|].
  cbn [split]. destruct (Ascii.eqb_spec c sep) as [->|Hc].
  - destruct (split sep s) as [|p ps] eqn:E.
    + destruct s; cbn [split] in E; [discriminate|].
      destruct (Ascii.eqb _ sep); [discriminate|]. destruct (split sep s); discriminate.
    + cbn [String.concat]. cbn [String.concat] in IH. rewrite IH. reflexivity.
  - destruct (split sep s) as [|p ps] eqn:E.
    + destruct s; cbn [split] in E; [discriminate|].
      destruct (Ascii.eqb _ sep); [discriminate|]. destruct (split sep s); discriminate.
    + cbn [String.concat] in *. destruct ps; cbn [append]; now rewrite <- IH.
Qed.

Lemma prefix_drop (pat s : string) :
  prefix pat s = true -> s = pat ++ drop (String.length pat) s.
Proof.
  revert s. induction pat as [|x pat IH]; intros s H.
  - destruct s; reflexivity.
  - destruct s as [|y s]; [discriminate|]. cbn [prefix] in H.
    destruct (ascii_dec x y) as [->|]; [|discriminate].
    cbn [String.length drop append]. f_equal. apply IH. assumption.
Qed.

Lemma endsWith_dropLast (s : string) (c : ascii) :
  endsWith s (String c EmptyString) = true -> s = dropLast s ++ String c EmptyString.
Proof.
  induction s as [|a s IH]; intros H; [discriminate|].
  rewrite endsWith_cons in H. destruct s as [|b s'].
  - apply Ascii.eqb_eq in H. subst. reflexivity.
  - change (dropLast (String a (String b s'))) with (String a (dropLast (String b s'))).
    cbn [append]. f_equal. apply IH. assumption.
Qed.

End JsFacts.


(** ** Derivation paths *)

Module DerivationPathFacts.
Import Js JsFacts DerivationPaths.

Lemma digit_not_quote_or_h (c : ascii) : is_digit c = true -> quote_or_h c = false.
Proof.
  intros H. destruct c as [b0 b1 b2 b3 b4 b5 b6 b7].
  destruct b0, b1, b2, b3, b4, b5, b6, b7; try discriminate H; reflexivity.
Qed.

Lemma digit_not_slash (c : ascii) : is_digit c = true -> negb (Ascii.eqb c "/") = true.
Proof.
  intros H. destruct c as [b0 b1 b2 b3 b4 b5 b6 b7].
  destruct b0, b1, b2, b3, b4, b5, b6, b7; try discriminate H; reflexivity.
Qed.

Lemma all_chars_weaken (p q : ascii -> bool) (s : string) :
  (forall c, p c = true -> q c = true) -> all_chars p s = true -> all_chars q s = true.
Proof.
  intros Hpq. induction s as [|a s IH]; intros H; [reflexivity|].
  cbn [all_chars] in *. apply andb_true_iff in H. destruct H as [Ha Hs].
  rewrite (Hpq a Ha), (IH Hs). reflexivity.
Qed.

Lemma toString_nonneg (z : Z) : 0 <= z -> toString (Num z) = digits_of z.
Proof. intros H. unfold toString. destruct (Z.ltb_spec z 0); [lia|reflexivity]. Qed.

(** A plain index is read back as it was printed. *)
Lemma readPart_plain (z : Z) : 0 <= z -> readPart (digits_of z) = Num z.
Proof.
  intros Hz. unfold readPart.
  rewrite (endsWith_all_chars is_digit), (endsWith_all_chars is_digit);
    try apply all_chars_digits_of; try reflexivity.
  cbn [orb].
  rewrite (remove_chars_keep quote_or_h is_digit)
    by (apply digit_not_quote_or_h || apply all_chars_digits_of).
  apply parseInt_digits_of. assumption.
Qed.

(** A hardened index is read back with the offset added. *)
Lemma readPart_hardened (z : Z) :
  0 <= z -> readPart (digits_of z ++ "'") = Num (z + HARDENED_OFFSET).
Proof.
  intros Hz. unfold readPart.
  rewrite endsWith_snoc. cbn [orb].
  rewrite remove_chars_app.
  rewrite (remove_chars_keep quote_or_h is_digit)
    by (apply digit_not_quote_or_h || apply all_chars_digits_of).
  change (remove_chars quote_or_h "'") with EmptyString.
  rewrite append_empty_r, parseInt_digits_of by assumption.
  reflexivity.
Qed.

Lemma readPart_showIndex (z : Z) : 0 <= z -> readPart (showIndex (Num z)) = Num z.
Proof.
  intros Hz. unfold showIndex. cbn [geb sub].
  destruct (Z.leb_spec HARDENED_OFFSET z) as [Hh|Hh].
  - rewrite toString_nonneg by lia. rewrite readPart_hardened by lia. f_equal. lia.
  - rewrite toString_nonneg by lia. apply readPart_plain. assumption.
Qed.

Lemma showIndex_no_slash (z : Z) :
  0 <= z -> all_chars (fun c => negb (Ascii.eqb c "/")) (showIndex (Num z)) = true.
Proof.
  intros Hz. unfold showIndex. cbn [geb sub].
  assert (H : forall n, all_chars (fun c => negb (Ascii.eqb c "/")) (digits_of n) = true).
  { intros n. apply (all_chars_weaken is_digit); [apply digit_not_slash|].
    apply all_chars_digits_of. }
  destruct (Z.leb_spec HARDENED_OFFSET z) as [Hh|Hh]; rewrite toString_nonneg by lia.
  - rewrite all_chars_app, H. reflexivity.
  - apply H.
Qed.

(** Printing a non-empty array of 32-bit indices and reading the string back
    gives the array. *)
Lemma pathStringToArray_pathArrayToString (indices : list Z) :
  indices <> [] ->
  Forall (fun z => 0 <= z < 2 ^ 32) indices ->
  pathStringToArray (pathArrayToString (map Num indices)) = map Num indices.
Proof.
  intros Hne Hall.
  unfold pathStringToArray, pathArrayToString.
  rewrite replace_prefix.
  rewrite split_concat.
  - rewrite !map_map. apply map_ext_in. intros z Hz.
    rewrite Forall_forall in Hall. apply readPart_showIndex. apply Hall in Hz. lia.
  - destruct indices; [congruence|discriminate].
  - rewrite map_map. apply Forall_map.
    eapply Forall_impl; [|exact Hall]. cbn beta. intros z Hz.
    apply showIndex_no_slash. lia.
Qed.

Lemma canonical_index_inv (ds : string) :
  canonical_index ds = true ->
  all_chars is_digit ds = true /\ no_leading_zero ds = true /\
  ds <> EmptyString /\ 0 <= digits_val ds 0 < HARDENED_OFFSET.
Proof.
  unfold canonical_index. intros H.
  apply andb_true_iff in H. destruct H as [H Hlt].
  apply andb_true_iff in H. destruct H as [Hd Hz].
  apply Z.ltb_lt in Hlt.
  repeat split; try assumption.
  - destruct ds; [discriminate Hz|discriminate].
  - apply digits_val_ge. lia.
Qed.

(** A well-formed part is printed back as it was read. *)
Lemma showIndex_readPart (part : string) :
  well_formed_part part = true -> showIndex (readPart part) = part.
Proof.
  unfold well_formed_part. intros H. apply orb_true_iff in H. destruct H as [H|H].
  - destruct (canonical_index_inv _ H) as (Hd & Hz & Hne & Hrange).
    unfold readPart.
    rewrite (endsWith_all_chars is_digit), (endsWith_all_chars is_digit);
      try assumption; try reflexivity.
    cbn [orb].
    rewrite (remove_chars_keep quote_or_h is_digit)
      by (apply digit_not_quote_or_h || assumption).
    rewrite parseInt_all_digits by assumption.
    unfold showIndex. cbn [geb].
    destruct (Z.leb_spec HARDENED_OFFSET (digits_val part 0)); [lia|].
    rewrite toString_nonneg by lia. apply digits_of_digits_val; assumption.
  - apply andb_true_iff in H. destruct H as [He H].
    destruct (canonical_index_inv _ H) as (Hd & Hz & Hne & Hrange).
    apply endsWith_dropLast in He. set (ds := dropLast part) in *.
    rewrite He. unfold readPart.
    rewrite endsWith_snoc. cbn [orb].
    rewrite remove_chars_app.
    rewrite (remove_chars_keep quote_or_h is_digit)
      by (apply digit_not_quote_or_h || assumption).
    change (remove_chars quote_or_h "'") with EmptyString.
    rewrite append_empty_r, parseInt_all_digits by assumption.
    unfold showIndex. cbn [add geb sub].
    destruct (Z.leb_spec HARDENED_OFFSET (digits_val ds 0 + HARDENED_OFFSET)); [|lia].
    replace (digits_val ds 0 + HARDENED_OFFSET - HARDENED_OFFSET) with (digits_val ds 0) by lia.
    rewrite toString_nonneg by lia. rewrite digits_of_digits_val by assumption.
    reflexivity.
Qed.

Lemma pathArrayToString_pathStringToArray (path : string) :
  well_formed_path path = true -> pathArrayToString (pathStringToArray path) = path.
Proof.
  unfold well_formed_path. intros H. apply andb_true_iff in H. destruct H as [Hp Hf].
  apply prefix_drop in Hp. cbn [String.length] in Hp.
  set (rest := drop 2 path) in *.
  unfold pathArrayToString, pathStringToArray.
  rewrite Hp at 1. rewrite replace_prefix.
  rewrite map_map.
  rewrite (map_ext_in _ (fun p => p)).
  - rewrite map_id. change "/" with (String "/"%char EmptyString).
    rewrite concat_split. symmetry. exact Hp.
  - intros p Hin. apply showIndex_readPart.
    rewrite forallb_forall in Hf. apply Hf. exact Hin.
Qed.

(** C9 (as amended): on well-formed paths [pathArrayToString] and
    [pathStringToArray] are inverse of each other.  For every non-empty array
    of indices in [0, 2^32), printing and reading back gives the array: a
    hardened index [v + 0x80000000] is printed as [v'] and read back as
    [v + 0x80000000], a plain index as itself.  For every path string [m/]
    followed by one or more parts, each an index below [2^31] in decimal
    without leading zero, hardened by a closing ['] or plain, reading and
    printing back gives the string. *)
Theorem path_round_trip :
  (forall indices : list Z,
      indices <> [] ->
      Forall (fun z => 0 <= z < 2 ^ 32) indices ->
      pathStringToArray (pathArrayToString (map Num indices)) = map Num indices) /\
  (forall path : string,
      well_formed_path path = true ->
      pathArrayToString (pathStringToArray path) = path).
Proof.
  split.
  - apply pathStringToArray_pathArrayToString.
  - apply pathArrayToString_pathStringToArray.
Qed.

Lemma path_round_trip_witness :
  ([44 + 0x80000000; 0x80000000; 0x80000000; 0; 0] <> [] /\
   Forall (fun z => 0 <= z < 2 ^ 32) [44 + 0x80000000; 0x80000000; 0x80000000; 0; 0] /\
   pathStringToArray
     (pathArrayToString (map Num [44 + 0x80000000; 0x80000000; 0x80000000; 0; 0]))
   = map Num [44 + 0x80000000; 0x80000000; 0x80000000; 0; 0]) /\
  (well_formed_path "m/44'/0'/0'/0/0" = true /\
   pathArrayToString (pathStringToArray "m/44'/0'/0'/0/0") = "m/44'/0'/0'/0/0").
Proof.
  assert (H1 : [44 + 0x80000000; 0x80000000; 0x80000000; 0; 0] <> []) by discriminate.
  assert (H2 : Forall (fun z => 0 <= z < 2 ^ 32)
                      [44 + 0x80000000; 0x80000000; 0x80000000; 0; 0])
    by (repeat constructor; lia).
  assert (H3 : well_formed_path "m/44'/0'/0'/0/0" = true) by reflexivity.
  split.
  - split; [exact H1|]. split; [exact H2|].
    exact (proj1 path_round_trip _ H1 H2).
  - split; [exact H3|].
    exact (proj2 path_round_trip _ H3).
Defined.

(** C9, as stated, fails on the empty array: it is printed as [m/], which is
    read back as an array of one element, [NaN]. *)
Lemma empty_path_not_restored :
  pathArrayToString [] = "m/" /\
  pathStringToArray (pathArrayToString []) = [NaN] /\
  pathStringToArray (pathArrayToString []) <> [].
Proof. repeat split; vm_compute; discriminate. Qed.

End DerivationPathFacts.

(** ** Derivation paths: parsing, building and the templates *)

Module DerivationTemplateFacts.
Import Js DerivationPaths JsFacts DerivationPathFacts.

Lemma toString_numeral (z : Z) : all_chars numeral_char (toString (Num z)) = true.
Proof.
  unfold toString. destruct (z <? 0).
  - cbn [append all_chars]. rewrite (all_chars_weaken is_digit numeral_char); [reflexivity| |].
    + intros c H. unfold numeral_char. rewrite H. reflexivity.
    + apply all_chars_digits_of.
  - apply (all_chars_weaken is_digit numeral_char).
    + intros c H. unfold numeral_char. rewrite H. reflexivity.
    + apply all_chars_digits_of.
Qed.

Lemma numeral_char_cases (c : ascii) :
  numeral_char c = true ->
  quote_or_h c = false /\ negb (Ascii.eqb c "/") = true /\ negb (Ascii.eqb c "{") = true.
Proof.
  unfold numeral_char, quote_or_h, is_digit. intros H.
  destruct c as [[] [] [] [] [] [] [] []]; cbn in *; try discriminate; repeat split.
Qed.

Lemma unsigned_int_digits_of (n : Z) : 0 <= n -> unsigned_int (digits_of n) = Some n.
Proof.
  intros Hn. unfold unsigned_int.
  pose proof (all_chars_digits_of n) as Hd. pose proof (digits_of_nonempty n) as He.
  destruct (digits_of n) as [|c r] eqn:E; [congruence|].
  cbn [all_chars] in Hd. apply andb_prop in Hd. destruct Hd as [Hc _].
  cbn [starts_with_digit]. rewrite Hc. rewrite <- E, digits_val_digits_of by exact Hn.
  reflexivity.
Qed.

(** What is printed for an integer is read back as this integer. *)
Lemma parseInt_toString (z : Z) : parseInt (toString (Num z)) = Num z.
Proof.
  unfold toString. destruct (Z.ltb_spec z 0) as [Hneg|Hpos].
  - change ("-" ++ digits_of (- z)) with (String "-" (digits_of (- z))).
    unfold parseInt.
    change (skip_spaces (String "-" (digits_of (- z)))) with (String "-" (digits_of (- z))).
    cbv iota beta.
    rewrite unsigned_int_digits_of by lia. f_equal. lia.
  - apply parseInt_digits_of. exact Hpos.
Qed.

Lemma remove_quote_toString (z : Z) (suffix : string) :
  remove_chars quote_or_h (toString (Num z) ++ suffix)
  = toString (Num z) ++ remove_chars quote_or_h suffix.
Proof.
  rewrite remove_chars_app. f_equal.
  apply (remove_chars_keep quote_or_h numeral_char).
  - intros c H. apply numeral_char_cases, H.
  - apply toString_numeral.
Qed.

Lemma toString_no_slash (z : Z) :
  all_chars (fun c => negb (Ascii.eqb c "/")) (toString (Num z)) = true.
Proof.
  apply (all_chars_weaken numeral_char); [|apply toString_numeral].
  intros c H. apply numeral_char_cases, H.
Qed.

Lemma toString_nonempty (z : Z) : toString (Num z) <> "".
Proof.
  unfold toString. destruct (z <? 0); [discriminate|apply digits_of_nonempty].
Qed.

(** The parts of a path that [buildDerivationPath] builds. *)
Lemma split_buildDerivationPath (a b c d e : Z) :
  split "/" (replace "m/" ""
               (buildDerivationPath (mkParams (Num a) (Num b) (Num c) (Num d) (Num e))))
  = [toString (Num a) ++ "'"; toString (Num b) ++ "'"; toString (Num c) ++ "'";
     toString (Num d); toString (Num e)].
Proof.
  unfold buildDerivationPath.
  cbn [purpose coinType account change addressIndex].
  rewrite !append_assoc. rewrite replace_prefix.
  assert (Hq : forall z, all_chars (fun c => negb (Ascii.eqb c "/")) (toString (Num z) ++ "'") = true).
  { intros z. rewrite all_chars_app, toString_no_slash. reflexivity. }
  change ("'/" ++ ?x) with ("'" ++ String "/" x).
  rewrite <- (append_assoc (toString (Num a)) "'").
  rewrite split_app_sep by apply Hq.
  change ("'/" ++ ?x) with ("'" ++ String "/" x).
  rewrite <- (append_assoc (toString (Num b)) "'").
  rewrite split_app_sep by apply Hq.
  change ("'/" ++ ?x) with ("'" ++ String "/" x).
  rewrite <- (append_assoc (toString (Num c)) "'").
  rewrite split_app_sep by apply Hq.
  change ("/" ++ ?x) with (String "/" x).
  rewrite split_app_sep by apply toString_no_slash.
  rewrite split_no_sep by apply toString_no_slash.
  reflexivity.
Qed.

Lemma parsePart_hardened (z : Z) :
  parseInt (remove_chars quote_or_h (toString (Num z) ++ "'")) = Num z.
Proof.
  rewrite remove_quote_toString. cbn [remove_chars quote_or_h Ascii.eqb Bool.eqb orb].
  change (remove_chars quote_or_h "'") with "".
  rewrite append_empty_r. apply parseInt_toString.
Qed.

Lemma parsePart_plain (z : Z) :
  parseInt (remove_chars quote_or_h (toString (Num z))) = Num z.
Proof.
  rewrite <- (append_empty_r (toString (Num z))) at 1.
  rewrite remove_quote_toString. cbn [remove_chars]. rewrite append_empty_r.
  apply parseInt_toString.
Qed.

Lemma truthy_toString (z : Z) : truthy (Some (toString (Num z))) = Some (toString (Num z)).
Proof.
  unfold truthy, falsy_string.
  destruct (String.eqb_spec (toString (Num z)) "") as [E|E]; [|reflexivity].
  exfalso. exact (toString_nonempty z E).
Qed.

Lemma parse_build (a b c d e : Z) :
  parseDerivationPath (buildDerivationPath (mkParams (Num a) (Num b) (Num c) (Num d) (Num e)))
  = Ok (mkParams (Num a) (Num b) (Num c) (Num d) (Num e)).
Proof.
  unfold parseDerivationPath. rewrite split_buildDerivationPath.
  cbn [nth_error parsePart parsePartOrZero].
  rewrite !parsePart_hardened. unfold parsePartOrZero.
  rewrite !truthy_toString, !parsePart_plain. reflexivity.
Qed.

Lemma canonical_toString (ds : string) :
  canonical_index ds = true -> toString (Num (digits_val ds 0)) = ds.
Proof.
  intros H. destruct (canonical_index_inv ds H) as (Hd & Hz & _ & Hr).
  rewrite toString_nonneg by lia. apply digits_of_digits_val; assumption.
Qed.

Lemma build_parse (a b c d e : string) :
  canonical_index a = true -> canonical_index b = true -> canonical_index c = true ->
  canonical_index d = true -> canonical_index e = true ->
  let path := "m/" ++ a ++ "'/" ++ b ++ "'/" ++ c ++ "'/" ++ d ++ "/" ++ e in
  parseDerivationPath path
  = Ok (mkParams (Num (digits_val a 0)) (Num (digits_val b 0)) (Num (digits_val c 0))
                 (Num (digits_val d 0)) (Num (digits_val e 0))) /\
  buildDerivationPath
    (mkParams (Num (digits_val a 0)) (Num (digits_val b 0)) (Num (digits_val c 0))
              (Num (digits_val d 0)) (Num (digits_val e 0))) = path.
Proof.
  intros Ha Hb Hc Hd He path.
  assert (Hbuild : buildDerivationPath
            (mkParams (Num (digits_val a 0)) (Num (digits_val b 0)) (Num (digits_val c 0))
                      (Num (digits_val d 0)) (Num (digits_val e 0))) = path).
  { unfold buildDerivationPath. cbn [purpose coinType account change addressIndex].
    rewrite !canonical_toString by assumption. subst path.
    rewrite !append_assoc. reflexivity. }
  split; [|exact Hbuild].
  rewrite <- Hbuild. apply parse_build.
Qed.

(** X1: [parseDerivationPath] undoes [buildDerivationPath], and on the paths
    of five indices without sign and leading zero, the first three hardened,
    [buildDerivationPath] undoes [parseDerivationPath]. *)
Theorem derivation_path_parse_build :
  (forall a b c d e : Z,
      safe_integer a -> safe_integer b -> safe_integer c ->
      safe_integer d -> safe_integer e ->
      parseDerivationPath
        (buildDerivationPath (mkParams (Num a) (Num b) (Num c) (Num d) (Num e)))
      = Ok (mkParams (Num a) (Num b) (Num c) (Num d) (Num e))) /\
  (forall a b c d e : string,
      canonical_index a = true -> canonical_index b = true -> canonical_index c = true ->
      canonical_index d = true -> canonical_index e = true ->
      exists p : ParsedDerivationPath,
        parseDerivationPath ("m/" ++ a ++ "'/" ++ b ++ "'/" ++ c ++ "'/" ++ d ++ "/" ++ e)
        = Ok p /\
        buildDerivationPath p
        = "m/" ++ a ++ "'/" ++ b ++ "'/" ++ c ++ "'/" ++ d ++ "/" ++ e).
Proof.
  split.
  - intros a b c d e _ _ _ _ _. apply parse_build.
  - intros a b c d e Ha Hb Hc Hd He.
    destruct (build_parse a b c d e Ha Hb Hc Hd He) as [H1 H2].
    eexists. split; [exact H1|exact H2].
Qed.

Lemma derivation_path_parse_build_witness :
  parseDerivationPath
    (buildDerivationPath (mkParams (Num 84) (Num 0) (Num 2) (Num 1) (Num 7)))
  = Ok (mkParams (Num 84) (Num 0) (Num 2) (Num 1) (Num 7)) /\
  exists p : ParsedDerivationPath,
    parseDerivationPath "m/84'/0'/2'/1/7" = Ok p /\
    buildDerivationPath p = "m/84'/0'/2'/1/7".
Proof.
  split.
  - apply (proj1 derivation_path_parse_build); unfold safe_integer; lia.
  - apply (proj2 derivation_path_parse_build "84" "0" "2" "1" "7"); reflexivity.
Defined.

(** X2: [parseDerivationPath] returns exactly on the paths of three parts or
    more, and throws a [TypeError] on the others. *)
Theorem parseDerivationPath_three_parts (path : string) :
  let parts := split "/" (replace "m/" "" path) in
  if (List.length parts <? 3)%nat
  then exists e, parseDerivationPath path = Throw e /\ name e = "TypeError"
  else exists p, parseDerivationPath path = Ok p.
Proof.
  cbv zeta. unfold parseDerivationPath.
  destruct (split "/" (replace "m/" "" path)) as [|p0 [|p1 [|p2 rest]]];
    cbn [List.length Nat.ltb Nat.leb nth_error parsePart];
    eexists; try split; reflexivity.
Qed.

Lemma readPart_toString_hardened (z : Z) :
  readPart (toString (Num z) ++ "'") = Num (z + HARDENED_OFFSET).
Proof.
  unfold readPart. rewrite endsWith_snoc. cbn [orb].
  rewrite parsePart_hardened. reflexivity.
Qed.

Lemma readPart_toString_plain (z : Z) : readPart (toString (Num z)) = Num z.
Proof.
  unfold readPart.
  rewrite (endsWith_all_chars numeral_char), (endsWith_all_chars numeral_char);
    try apply toString_numeral; try reflexivity.
  cbn [orb]. apply parsePart_plain.
Qed.

Lemma showIndex_hardened (z : Z) :
  0 <= z -> showIndex (Num (z + HARDENED_OFFSET)) = toString (Num z) ++ "'".
Proof.
  intros Hz. unfold showIndex, geb, sub.
  destruct (Z.leb_spec HARDENED_OFFSET (z + HARDENED_OFFSET)); [|lia].
  replace (z + HARDENED_OFFSET - HARDENED_OFFSET) with z by lia. reflexivity.
Qed.

Lemma showIndex_plain (z : Z) :
  z < HARDENED_OFFSET -> showIndex (Num z) = toString (Num z).
Proof.
  intros Hz. unfold showIndex, geb.
  destruct (Z.leb_spec HARDENED_OFFSET z); [lia|reflexivity].
Qed.

(** X3: the array of a path that [buildDerivationPath] builds carries the
    purpose, the coin type and the account hardened and the change and the
    address index as they are, and [pathArrayToString] gives the path back. *)
Theorem pathStringToArray_buildDerivationPath (a b c d e : Z) :
  0 <= a < HARDENED_OFFSET -> 0 <= b < HARDENED_OFFSET -> 0 <= c < HARDENED_OFFSET ->
  0 <= d < HARDENED_OFFSET -> 0 <= e < HARDENED_OFFSET ->
  let path := buildDerivationPath (mkParams (Num a) (Num b) (Num c) (Num d) (Num e)) in
  pathStringToArray path
  = [Num (a + HARDENED_OFFSET); Num (b + HARDENED_OFFSET); Num (c + HARDENED_OFFSET);
     Num d; Num e] /\
  pathArrayToString (pathStringToArray path) = path.
Proof.
  intros Ha Hb Hc Hd He path.
  assert (H : pathStringToArray path
              = [Num (a + HARDENED_OFFSET); Num (b + HARDENED_OFFSET);
                 Num (c + HARDENED_OFFSET); Num d; Num e]).
  { unfold pathStringToArray, path. rewrite split_buildDerivationPath.
    cbn [map]. rewrite !readPart_toString_hardened, !readPart_toString_plain. reflexivity. }
  split; [exact H|].
  rewrite H. unfold pathArrayToString. cbn [map String.concat].
  rewrite !showIndex_hardened, !showIndex_plain by lia.
  unfold path, buildDerivationPath. cbn [purpose coinType account change addressIndex].
  rewrite !append_assoc. reflexivity.
Qed.

Lemma pathStringToArray_buildDerivationPath_witness :
  pathStringToArray (buildDerivationPath (mkParams (Num 84) (Num 0) (Num 2) (Num 1) (Num 7)))
  = [Num (84 + HARDENED_OFFSET); Num (0 + HARDENED_OFFSET); Num (2 + HARDENED_OFFSET);
     Num 1; Num 7].
Proof.
  refine (proj1 (pathStringToArray_buildDerivationPath 84 0 2 1 7 _ _ _ _ _));
    unfold HARDENED_OFFSET; lia.
Defined.

(** [replace] at the place of the pattern, and past the characters that do
    not start it. *)
Lemma replace_here (pat rep s : string) :
  pat <> "" -> replace pat rep (pat ++ s) = rep ++ s.
Proof.
  assert (Hp : forall a b, prefix a (a ++ b) = true).
  { induction a as [|x a IH]; intros b.
    - destruct b; reflexivity.
    - cbn [append prefix]. destruct (ascii_dec x x); [apply IH|congruence]. }
  assert (Hd : forall a b, drop (String.length a) (a ++ b) = b).
  { induction a as [|x a IH]; intros b; [destruct b; reflexivity|apply IH]. }
  destruct pat as [|x pat]; [congruence|]. intros _.
  cbn [append]. cbn [replace]. change (String x (pat ++ s)) with (String x pat ++ s).
  rewrite Hp. f_equal. apply (Hd (String x pat)).
Qed.

Lemma replace_skip (p0 : ascii) (pat rep pre s : string) :
  all_chars (fun c => negb (Ascii.eqb c p0)) pre = true ->
  replace (String p0 pat) rep (pre ++ s) = pre ++ replace (String p0 pat) rep s.
Proof.
  induction pre as [|c pre IH]; intros H; [reflexivity|].
  cbn [all_chars] in H. apply andb_prop in H. destruct H as [Hc Hpre].
  cbn [append]. cbn [replace prefix].
  destruct (ascii_dec p0 c) as [->|Hne].
  - rewrite Ascii.eqb_refl in Hc. discriminate.
  - rewrite (IH Hpre). reflexivity.
Qed.

Lemma toString_no_brace (n : number) : all_chars no_brace (toString n) = true.
Proof.
  destruct n as [|z]; [reflexivity|].
  apply (all_chars_weaken numeral_char); [|apply toString_numeral].
  intros c H. apply numeral_char_cases, H.
Qed.

(** The template of purpose [p] and coin type [c], filled in. *)
Lemma fillTemplate_bip (template : string) (p c : Z) (acc idx : number) :
  template = "m/" ++ toString (Num p) ++ "'/" ++ toString (Num c) ++ "'/{account}'/0/{index}" ->
  fillTemplate template acc idx
  = buildDerivationPath (mkParams (Num p) (Num c) acc (Num 0) idx).
Proof.
  intros ->. unfold fillTemplate, buildDerivationPath.
  cbn [purpose coinType account change addressIndex].
  assert (Hq : all_chars no_brace "'/" = true) by reflexivity.
  assert (Hm : all_chars no_brace "m/" = true) by reflexivity.
  assert (Hpre : all_chars no_brace
                   ("m/" ++ toString (Num p) ++ "'/" ++ toString (Num c) ++ "'/") = true).
  { rewrite !all_chars_app, !toString_no_brace. reflexivity. }
  change ("'/{account}'/0/{index}") with ("'/" ++ "{account}" ++ "'/0/{index}").
  replace ("m/" ++ toString (Num p) ++ "'/" ++ toString (Num c) ++ "'/" ++ "{account}" ++ "'/0/{index}")
    with (("m/" ++ toString (Num p) ++ "'/" ++ toString (Num c) ++ "'/") ++ "{account}" ++ "'/0/{index}")
    by (rewrite !append_assoc; reflexivity).
  rewrite (replace_skip "{" "account}" _ _ _ Hpre).
  rewrite (replace_here "{account}") by discriminate.
  rewrite (replace_skip "{" "index}" _ _ _ Hpre).
  rewrite (replace_skip "{" "index}" _ (toString acc) _ (toString_no_brace acc)).
  change ("'/0/{index}") with ("'/0/" ++ "{index}" ++ "").
  rewrite (replace_skip "{" "index}" _ "'/0/") by reflexivity.
  rewrite (replace_here "{index}") by discriminate.
  rewrite append_empty_r.
  change (toString (Num 0)) with "0".
  rewrite !append_assoc. reflexivity.
Qed.

Lemma own_In {A : Type} (k : string) (fields : list (string * A)) (v : A) :
  own k fields = Some v -> In v (map snd fields).
Proof.
  unfold own. induction fields as [|[k' v'] rest IH]; cbn [find map fst snd]; [discriminate|].
  destruct (String.eqb k k').
  - cbn. intros H. injection H as <-. left. reflexivity.
  - intros H. right. apply IH, H.
Qed.

Ltac pick_template p c :=
  exists p, c; split; [cbn; tauto|split; [cbn; tauto|]];
  split; [intros Hnone; first [discriminate Hnone|reflexivity]|];
  split; [cbn; tauto|];
  apply f_equal; apply fillTemplate_bip; vm_compute; reflexivity.

Ltac pick_coin p :=
  first [ pick_template p 0 | pick_template p 2 | pick_template p 3 | pick_template p 145
        | pick_template p 5 | pick_template p 60 | pick_template p 118 | pick_template p 931 ].

Ltac pick := first [ pick_coin 44 | pick_coin 49 | pick_coin 84 | pick_coin 86 ].

(** [getDerivationPath] on a coin that has templates. *)
Lemma getDerivationPath_known (coin : string) (addressType : option string)
  (acc idx : option number) (templates : list (string * string)) :
  own (toUpperCase coin) DERIVATION_TEMPLATES = Some templates ->
  inherited (default_arg "legacy" addressType) = false ->
  exists p c : Z,
    In p [44; 49; 84; 86] /\ In c [0; 2; 3; 145; 5; 60; 118; 931] /\
    (truthy (own (default_arg "legacy" addressType) templates) = None -> p = 44) /\
    (c = getCoinType coin \/
     (toUpperCase coin = "BCH" /\ c = 145 /\ getCoinType coin = 0) \/
     (toUpperCase coin = "OSMO" /\ c = 118 /\ getCoinType coin = 0)) /\
    getDerivationPath coin addressType acc idx
    = Ok (buildDerivationPath
            (mkParams (Num p) (Num c) (default_arg (Num 0) acc) (Num 0)
                      (default_arg (Num 0) idx))).
Proof.
  intros Hown Hinh. unfold getDerivationPath, getCoinType. rewrite Hown, Hinh.
  generalize (default_arg "legacy" addressType) as ty.
  generalize (default_arg (Num 0) acc) as a.
  generalize (default_arg (Num 0) idx) as i. intros i a ty.
  remember (toUpperCase coin) as K eqn:HK. clear HK.
  unfold own in Hown. cbn [DERIVATION_TEMPLATES find fst snd] in Hown.
  revert Hown.
  repeat (match goal with
          | |- context [if String.eqb K ?k then _ else _] =>
              destruct (String.eqb_spec K k) as [->|_]
          end;
          [cbn [option_map snd]; intros Hown; injection Hown as <-|]);
    [..|cbn; discriminate];
    unfold own; cbn [find fst snd];
    repeat (match goal with
            | |- context [if String.eqb ty ?k then _ else _] => destruct (String.eqb ty k)
            end; cbn [option_map truthy falsy_string String.eqb Ascii.eqb Bool.eqb snd]);
    pick.
Qed.

(** X4: [getDerivationPath] throws [Unknown coin] exactly for a coin without
    templates.  For a coin that has templates and an address type that is not
    a name of [Object.prototype] it returns the path that [buildDerivationPath]
    builds from a purpose and a coin type of the table, the account, the
    change 0 and the index; an address type the coin has no template for gives
    the purpose 44. *)
Theorem getDerivationPath_builds (coin : string) (addressType : option string)
  (acc idx : option number) :
  all_chars is_ascii coin = true ->
  inherited (default_arg "legacy" addressType) = false ->
  match own (toUpperCase coin) DERIVATION_TEMPLATES with
  | None =>
      getDerivationPath coin addressType acc idx = Throw (Error ("Unknown coin: " ++ coin))
  | Some templates =>
      exists p c : Z,
        In p [44; 49; 84; 86] /\ In c [0; 2; 3; 145; 5; 60; 118; 931] /\
        (truthy (own (default_arg "legacy" addressType) templates) = None -> p = 44) /\
        getDerivationPath coin addressType acc idx
        = Ok (buildDerivationPath
                (mkParams (Num p) (Num c) (default_arg (Num 0) acc) (Num 0)
                          (default_arg (Num 0) idx)))
  end.
Proof.
  intros _ Hinh.
  destruct (own (toUpperCase coin) DERIVATION_TEMPLATES) as [templates|] eqn:Hown.
  - destruct (getDerivationPath_known coin addressType acc idx templates Hown Hinh)
      as (p & c & Hp & Hc & Hd & _ & H).
    exists p, c. auto.
  - unfold getDerivationPath. rewrite Hown. reflexivity.
Qed.

(** The two calls of the node: [getDerivationPath('bitcoin', 'bip84', 0)]
    throws, and the address type [bip84] on [BTC] gives the purpose 44. *)
Lemma getDerivationPath_builds_witness :
  getDerivationPath "bitcoin" (Some "bip84") (Some (Num 0)) None
  = Throw (Error "Unknown coin: bitcoin") /\
  exists p c : Z,
    In p [44; 49; 84; 86] /\ In c [0; 2; 3; 145; 5; 60; 118; 931] /\
    (truthy (own "bip84" [("legacy", "m/44'/0'/{account}'/0/{index}");
                          ("segwit", "m/49'/0'/{account}'/0/{index}");
                          ("nativeSegwit", "m/84'/0'/{account}'/0/{index}");
                          ("taproot", "m/86'/0'/{account}'/0/{index}")]) = None -> p = 44) /\
    getDerivationPath "BTC" (Some "bip84") (Some (Num 0)) None
    = Ok (buildDerivationPath (mkParams (Num p) (Num c) (Num 0) (Num 0) (Num 0))).
Proof.
  split.
  - exact (getDerivationPath_builds "bitcoin" (Some "bip84") (Some (Num 0)) None
             eq_refl eq_refl).
  - exact (getDerivationPath_builds "BTC" (Some "bip84") (Some (Num 0)) None
             eq_refl eq_refl).
Defined.

(** X5: for an account and an index that a number holds exactly, the path
    of [getDerivationPath] parses back to this account, the change 0 and this
    index, and its coin type is the one [getCoinType] answers, except for
    [BCH] and [OSMO]: their templates carry 145 and 118, and [getCoinType]
    answers 0 for both. *)
Theorem getCoinType_of_template (coin : string) (addressType : option string)
  (acc idx : Z) (path : string) :
  inherited (default_arg "legacy" addressType) = false ->
  safe_integer acc -> safe_integer idx ->
  getDerivationPath coin addressType (Some (Num acc)) (Some (Num idx)) = Ok path ->
  exists parsed : ParsedDerivationPath,
    parseDerivationPath path = Ok parsed /\
    account parsed = Num acc /\ change parsed = Num 0 /\ addressIndex parsed = Num idx /\
    (coinType parsed = Num (getCoinType coin) \/
     (toUpperCase coin = "BCH" /\ coinType parsed = Num 145 /\ getCoinType coin = 0) \/
     (toUpperCase coin = "OSMO" /\ coinType parsed = Num 118 /\ getCoinType coin = 0)).
Proof.
  intros Hinh _ _ Hget.
  destruct (own (toUpperCase coin) DERIVATION_TEMPLATES) as [templates|] eqn:Hown.
  2:{ unfold getDerivationPath in Hget. rewrite Hown in Hget. discriminate. }
  destruct (getDerivationPath_known coin addressType (Some (Num acc)) (Some (Num idx))
              templates Hown Hinh) as (p & c & _ & _ & _ & Hc & H).
  rewrite H in Hget. injection Hget as <-. cbn [default_arg].
  eexists. split; [apply parse_build|].
  cbn [account change addressIndex coinType].
  repeat split.
  destruct Hc as [->|[(HK & -> & Hz)|(HK & -> & Hz)]]; auto.
Qed.

Lemma getCoinType_of_template_witness :
  exists parsed : ParsedDerivationPath,
    parseDerivationPath "m/44'/145'/1'/0/5" = Ok parsed /\
    account parsed = Num 1 /\ change parsed = Num 0 /\ addressIndex parsed = Num 5 /\
    (coinType parsed = Num (getCoinType "bch") \/
     (toUpperCase "bch" = "BCH" /\ coinType parsed = Num 145 /\ getCoinType "bch" = 0) \/
     (toUpperCase "bch" = "OSMO" /\ coinType parsed = Num 118 /\ getCoinType "bch" = 0)).
Proof.
  refine (getCoinType_of_template "bch" None 1 5 "m/44'/145'/1'/0/5" eq_refl _ _ eq_refl);
    unfold safe_integer; lia.
Defined.

End DerivationTemplateFacts.

(** ** USB framing *)

Module UsbFacts.
Import Js Constants UsbTransport.

(** [read] leaves the transport as it is, and what it answers is a packet of
    length zero: the reading loop of [sendMessage] stops in its first round. *)
Lemma read_answers_empty (self : t) (packet : Buffer) (self1 : t) :
  read self = (Ok packet, self1) ->
  packet = [] /\ self1 = self /\ handle self <> None /\ connected self = true.
Proof.
  unfold read. destruct (handle self) as [h|]; [|discriminate].
  destruct (connected self); [|discriminate].
  intros H. injection H as <- <-. repeat split. discriminate.
Qed.


(** The fuel [framePackets] gives the sending loop is enough: more fuel does
    not add a packet. *)
Lemma packetsFrom_enough (fuel : nat) :
  forall (fullMessage : Buffer) (i k : nat),
    (List.length fullMessage - i <= fuel)%nat ->
    packetsFrom (fuel + k) fullMessage i = packetsFrom fuel fullMessage i.
Proof.
  induction fuel as [|fuel IH]; intros fullMessage i k H.
  - cbn [Nat.add packetsFrom]. destruct k; [reflexivity|]. cbn [packetsFrom].
    destruct (Nat.ltb_spec i (List.length fullMessage)); [lia|reflexivity].
  - cbn [Nat.add packetsFrom].
    destruct (Nat.ltb_spec i (List.length fullMessage)); [|reflexivity].
    f_equal. apply IH. unfold PACKET_SIZE. lia.
Qed.











(** *** The reading loop on the framing of the specification *)








(** [sendMessage] does not write this framing: already for a payload of one
    byte its packet differs from that of the specification. *)
Lemma framePackets_not_specFrame :
  framePackets 0 [0x41] <> Ok (specFrame 0 [0x41]).
Proof. vm_compute. discriminate. Qed.

(** The packet [sendMessage] writes for a payload of one byte carries the
    marker twice; the reading loop of the same method, given this packet,
    reads the type and the length one byte off and finds a declared length of
    zero. *)
Lemma sent_packet_read_back :
  framePackets 0 [0x41]
  = Ok [ ([0x3f; 0x3f; 0; 0; 0; 0; 0; 1; 0x41] ++ repeat 0 55)%list ]
  /\ reassemble [ ([0x3f; 0x3f; 0; 0; 0; 0; 0; 1; 0x41] ++ repeat 0 55)%list ] = Ok [].
Proof. split; vm_compute; reflexivity. Qed.

End UsbFacts.

(** ** The packets of the sending loop *)

Module UsbFramingFacts.
Import Js Constants UsbTransport.

Lemma overwrite_zeros (n : nat) :
  forall bytes : Buffer,
    (List.length bytes <= n)%nat -> overwrite (repeat 0 n) 0 bytes = pad n bytes.
Proof.
  unfold pad. induction n as [|n IH]; intros bytes H.
  - destruct bytes; [reflexivity|cbn in H; lia].
  - destruct bytes as [|b bs]; [reflexivity|].
    cbn [repeat overwrite List.length app Nat.sub]. cbn [List.length] in H.
    rewrite IH by lia. reflexivity.
Qed.

(** The packet the sending loop builds at index [i]. *)
Lemma packet_at (fullMessage : Buffer) (i : nat) :
  copy fullMessage (setByte (alloc PACKET_SIZE) 0 0x3f) 1 i
       (Nat.min (i + PACKET_SIZE - 1) (List.length fullMessage))
  = 0x3f :: pad 63 (firstn 63 (skipn i fullMessage)).
Proof.
  unfold copy, PACKET_SIZE, alloc.
  change (setByte (repeat 0 64) 0 63) with (63 :: repeat 0 63).
  cbn [overwrite]. f_equal.
  assert (E : firstn (Nat.min (i + 64 - 1) (List.length fullMessage) - i) (skipn i fullMessage)
              = firstn 63 (skipn i fullMessage)).
  { destruct (Nat.le_gt_cases (List.length fullMessage) (i + 63)) as [Hle|Hgt].
    - rewrite Nat.min_r by lia.
      rewrite !firstn_all2; [reflexivity| |]; rewrite length_skipn; lia.
    - rewrite Nat.min_l by lia. f_equal. lia. }
  rewrite E. apply overwrite_zeros. rewrite length_firstn. lia.
Qed.

Lemma packetsFrom_step (fuel : nat) (fullMessage : Buffer) (i : nat) :
  (i < List.length fullMessage)%nat ->
  packetsFrom (S fuel) fullMessage i
  = (0x3f :: pad 63 (firstn 63 (skipn i fullMessage)))
    :: packetsFrom fuel fullMessage (i + 63).
Proof.
  intros Hi. cbn [packetsFrom].
  destruct (Nat.ltb_spec i (List.length fullMessage)) as [_|Hge]; [|lia].
  change (if (i =? 0)%nat then 63 else 63) with (if (i =? 0)%nat then 0x3f else 0x3f).
  replace (if (i =? 0)%nat then 0x3f else 0x3f) with 0x3f by (destruct (i =? 0)%nat; reflexivity).
  rewrite packet_at. f_equal. f_equal. unfold PACKET_SIZE. lia.
Qed.

Lemma packetsFrom_done (fuel : nat) (fullMessage : Buffer) (i : nat) :
  (List.length fullMessage <= i)%nat -> packetsFrom fuel fullMessage i = [].
Proof.
  intros Hi. destruct fuel; [reflexivity|]. cbn [packetsFrom].
  destruct (Nat.ltb_spec i (List.length fullMessage)); [lia|reflexivity].
Qed.

Lemma pad_length_le (n : nat) (bytes : Buffer) :
  (List.length bytes <= n)%nat -> List.length (pad n bytes) = n.
Proof. intros H. unfold pad. rewrite length_app, repeat_length. lia. Qed.

(** The packets of the sending loop: their number, their shape, and the bytes
    they carry after the marker. *)
Lemma packetsFrom_carries (fuel : nat) :
  forall (fullMessage : Buffer) (i : nat),
    (List.length fullMessage - i <= fuel)%nat ->
    let packets := packetsFrom fuel fullMessage i in
    List.length packets = ((List.length fullMessage - i + 62) / 63)%nat /\
    Forall (fun p => List.length p = PACKET_SIZE /\ nth 0 p 0 = 0x3f) packets /\
    firstn (List.length fullMessage - i) (continuation packets) = skipn i fullMessage.
Proof.
  induction fuel as [|fuel IH]; intros fullMessage i Hfuel; cbv zeta.
  - rewrite packetsFrom_done by lia.
    replace (List.length fullMessage - i)%nat with 0%nat by lia.
    split; [reflexivity|]. split; [constructor|].
    cbn [firstn]. symmetry. apply skipn_all2. lia.
  - destruct (Nat.le_gt_cases (List.length fullMessage) i) as [Hdone|Hi].
    + rewrite packetsFrom_done by lia.
      replace (List.length fullMessage - i)%nat with 0%nat by lia.
      split; [reflexivity|]. split; [constructor|].
      cbn [firstn]. symmetry. apply skipn_all2. lia.
    + rewrite packetsFrom_step by exact Hi.
      destruct (IH fullMessage (i + 63)%nat ltac:(lia)) as (Hn & Hshape & Hbytes).
      cbv zeta in Hn, Hshape, Hbytes.
      assert (Hchunk : (List.length (firstn 63 (skipn i fullMessage)) <= 63)%nat)
        by (rewrite length_firstn; lia).
      split; [|split].
      * cbn [List.length]. rewrite Hn.
        destruct (Nat.le_gt_cases (List.length fullMessage - i) 63) as [Hs|Hl].
        -- replace (List.length fullMessage - (i + 63))%nat with 0%nat by lia.
           change ((0 + 62) / 63)%nat with 0%nat.
           apply Nat.div_unique with (r := (List.length fullMessage - i - 1)%nat); lia.
        -- replace (List.length fullMessage - i + 62)%nat
             with ((List.length fullMessage - (i + 63) + 62) + 1 * 63)%nat by lia.
           rewrite Nat.div_add by lia. lia.
      * constructor; [|exact Hshape]. split; [|reflexivity].
        cbn [List.length]. rewrite pad_length_le by exact Hchunk. reflexivity.
      * change (continuation ((63 :: pad 63 (firstn 63 (skipn i fullMessage))) :: packetsFrom fuel fullMessage (i + 63))) with (pad 63 (firstn 63 (skipn i fullMessage)) ++ continuation (packetsFrom fuel fullMessage (i + 63)))%list.
        destruct (Nat.le_gt_cases (List.length fullMessage - i) 63) as [Hs|Hl].
        -- rewrite firstn_all2 with (l := skipn i fullMessage)
             by (rewrite length_skipn; lia).
           unfold pad. rewrite <- app_assoc.
           rewrite firstn_app.
           replace (List.length fullMessage - i - List.length (skipn i fullMessage))%nat
             with 0%nat by (rewrite length_skipn; lia).
           cbn [firstn]. rewrite app_nil_r. apply firstn_all2. rewrite length_skipn. lia.
        -- assert (Hfull : List.length (firstn 63 (skipn i fullMessage)) = 63%nat)
             by (rewrite length_firstn, length_skipn; lia).
           unfold pad. rewrite Hfull. cbn [Nat.sub repeat]. rewrite app_nil_r.
           rewrite firstn_app, Hfull.
           rewrite firstn_all2 with (l := firstn 63 (skipn i fullMessage)) by lia.
           replace (List.length fullMessage - i - 63)%nat
             with (List.length fullMessage - (i + 63))%nat by lia.
           rewrite Hbytes.
           replace (i + 63)%nat with (63 + i)%nat by lia.
           rewrite <- skipn_skipn. apply firstn_skipn.
Qed.

Lemma makeHeader_specHeader (messageType : Z) (message : Buffer) :
  0 <= messageType <= 65535 ->
  Z.of_nat (List.length message) <= 4294967295 ->
  makeHeader messageType message
  = Ok (specHeader messageType (Z.of_nat (List.length message))).
Proof.
  intros Ht Hl. unfold makeHeader, writeUInt16BE, writeUInt32BE.
  destruct (Z.leb_spec 0 messageType); [|lia].
  destruct (Z.leb_spec messageType 65535); [|lia].
  cbn [andb].
  destruct (Z.leb_spec 0 (Z.of_nat (List.length message))); [|lia].
  destruct (Z.leb_spec (Z.of_nat (List.length message)) 4294967295); [|lia].
  reflexivity.
Qed.

(** X6: the packets [sendMessage] writes.  For a message type of 16 bits and
    a message whose length fits 32 bits there is one packet for every 63 bytes
    of the header and the message together, each of 64 bytes and starting with
    the marker [0x3F], and the bytes after the markers, put together, are the
    header (marker, type and length in big endian) and the message, followed
    by the zero bytes that fill the last packet.  Outside these ranges the
    header cannot be written and a [RangeError] is thrown. *)
Theorem framePackets_carries_message (messageType : Z) (message : Buffer) :
  if (0 <=? messageType) && (messageType <=? 65535)
     && (Z.of_nat (List.length message) <=? 4294967295)
  then
    exists packets : list Buffer,
      framePackets messageType message = Ok packets /\
      List.length packets = ((7 + List.length message + 62) / 63)%nat /\
      Forall (fun p => List.length p = PACKET_SIZE /\ nth 0 p 0 = 0x3f) packets /\
      firstn (7 + List.length message) (continuation packets)
      = (specHeader messageType (Z.of_nat (List.length message)) ++ message)%list
  else
    exists e : error, framePackets messageType message = Throw e /\ name e = "RangeError".
Proof.
  destruct (Z.leb_spec 0 messageType) as [H0|H0]; cbn [andb].
  2:{ unfold framePackets, makeHeader, writeUInt16BE.
      destruct (Z.leb_spec 0 messageType); [lia|]. cbn [andb]. eexists. split; reflexivity. }
  destruct (Z.leb_spec messageType 65535) as [H1|H1]; cbn [andb].
  2:{ unfold framePackets, makeHeader, writeUInt16BE.
      destruct (Z.leb_spec messageType 65535); [lia|]. rewrite andb_false_r.
      eexists. split; reflexivity. }
  destruct (Z.leb_spec (Z.of_nat (List.length message)) 4294967295) as [H2|H2].
  2:{ unfold framePackets, makeHeader, writeUInt16BE, writeUInt32BE.
      destruct (Z.leb_spec 0 messageType); [|lia].
      destruct (Z.leb_spec messageType 65535); [|lia]. cbn [andb].
      destruct (Z.leb_spec (Z.of_nat (List.length message)) 4294967295); [lia|].
      rewrite andb_false_r. eexists. split; reflexivity. }
  unfold framePackets. rewrite makeHeader_specHeader by lia.
  set (full := (specHeader messageType (Z.of_nat (List.length message)) ++ message)%list).
  assert (Hlen : List.length full = (7 + List.length message)%nat).
  { unfold full. rewrite length_app. reflexivity. }
  destruct (packetsFrom_carries (List.length full) full 0 ltac:(lia)) as (Hn & Hshape & Hbytes).
  cbv zeta in Hn, Hshape, Hbytes.
  rewrite Nat.sub_0_r, Hlen in Hn, Hbytes. cbn [skipn] in Hbytes.
  eexists. split; [reflexivity|]. split; [exact Hn|]. split; [exact Hshape|exact Hbytes].
Qed.

End UsbFramingFacts.

(** ** The start of the reading loop *)

Module UsbReceiveFacts.
Import Js Constants UsbTransport.

(** Once a packet has been taken, the loop takes every further packet as a
    continuation: it does not throw and keeps the expected length. *)
Lemma receive_continues (incoming : list Buffer) :
  forall rx : Rx,
    responsePackets rx <> [] ->
    exists rx' : Rx,
      fst (receive incoming rx) = Ok rx' /\ expectedLength rx' = expectedLength rx.
Proof.
  induction incoming as [|packet rest IH]; intros rx Hrx.
  - exists rx. split; reflexivity.
  - cbn [receive]. destruct (List.length packet =? 0)%nat; [exists rx; split; reflexivity|].
    unfold accept.
    destruct (responsePackets rx) as [|p ps] eqn:Hp; [congruence|].
    cbn [List.length Nat.eqb andb].
    match goal with |- context [totalLength ?r >=? expectedLength ?r] => set (rx1 := r) end.
    destruct (totalLength rx1 >=? expectedLength rx1).
    + exists rx1. split; reflexivity.
    + destruct (IH rx1) as (rx' & H1 & H2); [unfold rx1; cbn; destruct ps; discriminate|].
      exists rx'. split; [exact H1|]. rewrite H2. reflexivity.
Qed.

Lemma response_length (rx : Rx) :
  List.length (response rx) = Z.to_nat (expectedLength rx).
Proof.
  unfold response, concat. rewrite length_app, length_firstn, repeat_length. lia.
Qed.

(** X7: how the reading loop of [sendMessage] starts.  With no packet, or a
    first packet of length zero, the answer is the empty buffer.  A first
    packet that does not start with the marker [0x3F] is taken as a
    continuation of a message of length zero: the loop stops after this one
    packet and the answer is the empty buffer.  A first packet that starts
    with the marker and is shorter than the 7 bytes of a header throws a
    [RangeError].  Otherwise the answer has exactly the length that the bytes
    3 to 6 of the first packet declare, whatever is received after it. *)
Theorem reassemble_first_packet (packet : Buffer) (rest : list Buffer) :
  reassemble [] = Ok [] /\
  match packet with
  | [] => reassemble (packet :: rest) = Ok []
  | b :: _ =>
      if b =? 0x3f then
        match skipn 3 packet with
        | b3 :: b2 :: b1 :: b0 :: _ =>
            exists out : Buffer,
              reassemble (packet :: rest) = Ok out /\
              List.length out = Z.to_nat (b3 * 16777216 + b2 * 65536 + b1 * 256 + b0)
        | _ =>
            exists e : error,
              reassemble (packet :: rest) = Throw e /\ name e = "RangeError"
        end
      else
        reassemble (packet :: rest) = Ok [] /\
        snd (receive (packet :: rest) rx0) = rest
  end.
Proof.
  split; [reflexivity|].
  destruct packet as [|b tl]; [reflexivity|].
  unfold reassemble. cbn [receive List.length Nat.eqb].
  unfold accept. cbn [rx0 responsePackets List.length Nat.eqb andb nth].
  destruct (b =? 0x3f) eqn:Hb.
  - change (63 =? 63) with true. cbv iota.
    replace (b =? 63) with true. cbv iota.
    destruct tl as [|t1 [|t2 [|b3 [|b2 [|b1 [|b0 tl']]]]]];
      try (cbn; eexists; split; reflexivity).
    cbn [skipn readUInt16BE readUInt32BE].
    match goal with |- context [totalLength ?r >=? expectedLength ?r] => set (rx1 := r) end.
    assert (He : expectedLength rx1 = b3 * 16777216 + b2 * 65536 + b1 * 256 + b0)
      by reflexivity.
    destruct (totalLength rx1 >=? expectedLength rx1).
    + cbn [fst]. eexists. split; [reflexivity|]. rewrite response_length, He. reflexivity.
    + destruct (receive_continues rest rx1) as (rx' & H1 & H2); [discriminate|].
      rewrite H1. eexists. split; [reflexivity|]. rewrite response_length, H2, He. reflexivity.
  - replace (b =? 63) with false. cbv iota. unfold rx0.
    cbn [totalLength expectedLength responsePackets responseType].
    destruct (Z.geb_spec (0 + (Z.of_nat (S (List.length tl)) - 1)) 0) as [_|Hneg]; [|lia].
    cbn [fst snd]. split; reflexivity.
Qed.

End UsbReceiveFacts.

(** ** The USB transport object *)

Module UsbObjectFacts.
Import Js Constants Http UsbObject.

(** No method sets the handle. *)
Lemma after_handle (self : t) (o : op) :
  UsbTransport.handle (link self) = None ->
  UsbTransport.handle (link (after self o)) = None.
Proof.
  intros H. destruct self as [v p dp tm d [h c] ev]. cbn in H. subst h.
  destruct o as [path| | |data| |data|ty msg]; cbn -[UsbTransport.sendMessage];
    try reflexivity.
  - unfold connect, tryConnect. cbn.
    destruct (truthy (devicePathOf path _)); reflexivity.
  - unfold sendMessage. cbn [link].
    destruct (UsbTransport.sendMessage (UsbTransport.mk None c) ty msg)
      as [r l] eqn:E.
    unfold UsbTransport.sendMessage in E.
    destruct (UsbTransport.framePackets ty msg); [|injection E as <- <-; reflexivity].
    destruct (UsbTransport.writeAll _ _); injection E as <- <-; reflexivity.
Qed.

Lemma afterAll_handle (ops : list op) :
  forall self, UsbTransport.handle (link self) = None ->
               UsbTransport.handle (link (afterAll self ops)) = None.
Proof.
  induction ops as [|o ops IH]; intros self H; [exact H|].
  apply IH, after_handle, H.
Qed.

(** Without a handle every method that talks to the device throws, and
    leaves the transport as it is. *)
Lemma no_handle_throws (self : t) :
  UsbTransport.handle (link self) = None ->
  (forall data, write data self = (Throw (Error "Device not connected"), self)) /\
  read self = (Throw (Error "Device not connected"), self) /\
  (forall data, exchange data self = (Throw (Error "Device not connected"), self)) /\
  (forall messageType message, exists e, sendMessage messageType message self = (Throw e, self)) /\
  disconnect self = (Ok tt, self).
Proof.
  intros H. destruct self as [v p dp tm d [h c] ev]. cbn in H. subst h.
  repeat split; try reflexivity.
  intros ty msg. unfold sendMessage. cbn [link].
  unfold UsbTransport.sendMessage.
  destruct (UsbTransport.framePackets ty msg) as [packets|e];
    [|eexists; reflexivity].
  destruct (UsbTransport.writeAll _ packets); eexists; reflexivity.
Qed.

(** X8: whatever the configuration and whatever methods have been called, the
    transport has no handle: [write], [read], [exchange] and [sendMessage]
    throw and leave the transport as it is, and [disconnect] returns without
    changing anything. *)
Theorem usb_transport_never_opens (config : UsbTransportConfig) (ops : list op) :
  let self := afterAll (new config) ops in
  UsbTransport.handle (link self) = None /\
  (forall data, write data self = (Throw (Error "Device not connected"), self)) /\
  read self = (Throw (Error "Device not connected"), self) /\
  (forall data, exchange data self = (Throw (Error "Device not connected"), self)) /\
  (forall messageType message, exists e, sendMessage messageType message self = (Throw e, self)) /\
  disconnect self = (Ok tt, self).
Proof.
  cbv zeta.
  assert (H : UsbTransport.handle (link (afterAll (new config) ops)) = None)
    by (apply afterAll_handle; reflexivity).
  split; [exact H|]. apply no_handle_throws, H.
Qed.

Lemma after_connected (self : t) (o : op) :
  UsbTransport.handle (link self) = None ->
  isConnected self = true -> isConnected (after self o) = true.
Proof.
  intros H Hc. destruct self as [v p dp tm d [h c] ev]. cbn in H, Hc. subst h c.
  destruct o as [path| | |data| |data|ty msg]; cbn -[UsbTransport.sendMessage];
    try reflexivity.
  - unfold connect, tryConnect. cbn.
    destruct (truthy (devicePathOf path _)); reflexivity.
  - unfold sendMessage. cbn [link].
    destruct (UsbTransport.sendMessage (UsbTransport.mk None true) ty msg)
      as [r l] eqn:E.
    unfold UsbTransport.sendMessage in E.
    destruct (UsbTransport.framePackets ty msg); [|injection E as <- <-; reflexivity].
    destruct (UsbTransport.writeAll _ _); injection E as <- <-; reflexivity.
Qed.

Lemma afterAll_connected (ops : list op) :
  forall self, UsbTransport.handle (link self) = None ->
               isConnected self = true -> isConnected (afterAll self ops) = true.
Proof.
  induction ops as [|o ops IH]; intros self H Hc; [exact Hc|].
  apply IH; [apply after_handle, H|apply after_connected; assumption].
Qed.

(** X9: [connect] with a device path, given or configured, returns the device
    of this path with the configured identifiers and marks the transport
    connected, and from then on [isConnected] answers true whatever is called,
    [disconnect] included.  Without a device path [connect] throws, having
    emitted [device:failure], and changes nothing else. *)
Theorem usb_connect_outcome (config : UsbTransportConfig) (before : list op)
  (path : option string) :
  let self := afterAll (new config) before in
  match truthy (devicePathOf path self) with
  | Some devicePath =>
      let d := UsbDevice.mk (config_vendorId self) (config_productId self) devicePath in
      fst (connect path self) = Ok d /\
      getDevice (snd (connect path self)) = Some d /\
      forall ops : list op, isConnected (afterAll (snd (connect path self)) ops) = true
  | None =>
      connect path self
      = (Throw (Error "Failed to connect to device: No KeepKey device found"),
         emit DEVICE_EVENTS.FAILURE (ErrorArg (Error "No KeepKey device found")) self)
  end.
Proof.
  cbv zeta.
  assert (H : UsbTransport.handle (link (afterAll (new config) before)) = None)
    by (apply afterAll_handle; reflexivity).
  set (self := afterAll (new config) before) in *.
  unfold connect, tryConnect.
  destruct (truthy (devicePathOf path self)) as [devicePath|]; [|reflexivity].
  cbn [fst snd]. split; [reflexivity|]. split; [reflexivity|].
  intros ops. apply afterAll_connected; [exact H|reflexivity].
Qed.

End UsbObjectFacts.

(** ** The framing and the exchange of the USB transport *)

Module UsbExchangeFacts.
Import Js Constants Http UsbObject.




End UsbExchangeFacts.

(** ** Pre- and postconditions of methods *)

Module Hoare.
Import Js Http.

Section Rules.
Context {X W : Type}.

Lemma triple_ret {A : Type} (P Qn Qe : X -> Prop) (a : A) :
  (forall x, P x -> Qn x) -> triple P (@ret X W A a) Qn Qe.
Proof. intros H x w Hp. apply H, Hp. Qed.

Lemma triple_throw {A : Type} (P Qn Qe : X -> Prop) (e : error) :
  (forall x, P x -> Qe x) -> triple P (@throw X W A e) Qn Qe.
Proof. intros H x w Hp. apply H, Hp. Qed.

Lemma triple_lift {A : Type} (P : X -> Prop) (r : result A) :
  triple P (@lift X W A r) P P.
Proof. intros x w Hp. unfold lift. destruct r; exact Hp. Qed.

Lemma triple_get (P Qe : X -> Prop) : triple P (@get X W) P Qe.
Proof. intros x w Hp. exact Hp. Qed.

Lemma triple_put (P Qn Qe : X -> Prop) (x' : X) :
  Qn x' -> triple P (@put X W x') Qn Qe.
Proof. intros H x w Hp. exact H. Qed.

Lemma triple_fetch {T : Type} (P : X -> Prop) (srv : server W) (sh : shape T) (r : request) :
  triple P (@fetch X W T srv sh r) P P.
Proof.
  intros x w Hp. unfold fetch. destruct (srv T sh r (far w)) as [[resp|e] f]; exact Hp.
Qed.

Lemma triple_send (P Qe : X -> Prop) (r : request) : triple P (@send X W r) P Qe.
Proof. intros x w Hp. exact Hp. Qed.

Lemma triple_answer {T : Type} (P : X -> Prop) (srv : server W) (sh : shape T) (r : request) :
  triple P (@answer X W T srv sh r) P P.
Proof.
  intros x w Hp. unfold answer. destruct (srv T sh r (far w)) as [[resp|e] f]; exact Hp.
Qed.

Lemma triple_bind {A B : Type} (P R Qn Qe : X -> Prop) (m : M X W A) (k : A -> M X W B) :
  triple P m R Qe -> (forall a, triple R (k a) Qn Qe) -> triple P (bind m k) Qn Qe.
Proof.
  intros Hm Hk x w Hp. unfold bind. specialize (Hm x w Hp).
  destruct (m x w) as [[[a|e] x1] w1]; [|exact Hm].
  apply (Hk a x1 w1 Hm).
Qed.

Lemma triple_try_catch {A : Type} (P R Qn Qe : X -> Prop) (m : M X W A)
  (h : error -> M X W A) :
  triple P m Qn R -> (forall e, triple R (h e) Qn Qe) -> triple P (try_catch m h) Qn Qe.
Proof.
  intros Hm Hh x w Hp. unfold try_catch. specialize (Hm x w Hp).
  destruct (m x w) as [[[a|e] x1] w1]; [exact Hm|].
  apply (Hh e x1 w1 Hm).
Qed.

Lemma triple_weaken {A : Type} (P P' Qn Qn' Qe Qe' : X -> Prop) (m : M X W A) :
  triple P' m Qn' Qe' ->
  (forall x, P x -> P' x) -> (forall x, Qn' x -> Qn x) -> (forall x, Qe' x -> Qe x) ->
  triple P m Qn Qe.
Proof.
  intros Hm Hp Hn He x w Hx. specialize (Hm x w (Hp x Hx)).
  destruct (m x w) as [[[a|e] x1] w1]; auto.
Qed.

(** [self <- get ;; k self]: the continuation runs on the object it was
    handed. *)
Lemma triple_get_bind {A : Type} (P Qn Qe : X -> Prop) (k : X -> M X W A) :
  (forall a, triple (fun x => P x /\ x = a) (k a) Qn Qe) -> triple P (bind get k) Qn Qe.
Proof. intros H x w Hp. unfold bind, get. apply (H x x w). split; [exact Hp|reflexivity]. Qed.

(** What a triple says of the object after the method, returned or thrown. *)
Lemma triple_object {A : Type} (P Q : X -> Prop) (m : M X W A) (x : X) (w : io W) :
  triple P m Q Q -> P x -> Q (object (m x w)).
Proof.
  intros Hm Hp. specialize (Hm x w Hp). unfold object.
  destruct (m x w) as [[[a|e] x1] w1]; exact Hm.
Qed.

End Rules.

End Hoare.

(** ** The client *)

Module ClientFacts.
Import Js Constants Http KeepKeyClient.

Ltac run := unfold bind, try_catch, get, put, ret, throw, lift, fetch.
Ltac run_in H := unfold bind, try_catch, get, put, ret, throw, lift, fetch in H.

Section WithServer.
Context {W : Type} (srv : server W).

Lemma call_fetch (type : Z) (params : list (string * jsval)) (self : t) (w : io W)
  (req : request) :
  connected self = true ->
  callRequestOf self type params = Some req ->
  call srv type params self w =
  (answered (fst (srv _ AsMessage req (far w))), self,
   mkIo (snd (srv _ AsMessage req (far w))) (log w ++ [req])%list).
Proof.
  intros Hc Hreq. unfold call, callRequestOf in *. run. rewrite Hc. cbn [negb].
  destruct (switch (connectionType (config self))); try discriminate Hreq.
  - injection Hreq as <-. unfold callDesktop. run.
    destruct (srv _ AsMessage _ (far w)) as [[resp|e] f']; reflexivity.
  - injection Hreq as <-. unfold callBridge. run.
    destruct (srv _ AsMessage _ (far w)) as [[resp|e] f']; reflexivity.
Qed.

Lemma call_no_fetch (type : Z) (params : list (string * jsval)) (self : t) (w : io W) :
  connected self = false \/ callRequestOf self type params = None ->
  exists e, call srv type params self w = (Throw e, self, w).
Proof.
  intros H. unfold call, callRequestOf in *. run.
  destruct (connected self); cbn [negb].
  - destruct H as [H|H]; [discriminate|].
    destruct (switch (connectionType (config self))); try discriminate H;
      eexists; reflexivity.
  - eexists; reflexivity.
Qed.

(** [call] reads the client and leaves it as it is. *)
Lemma call_object (type : Z) (params : list (string * jsval)) (self : t) (w : io W) :
  snd (fst (call srv type params self w)) = self.
Proof.
  destruct (connected self) eqn:Hc.
  - destruct (callRequestOf self type params) as [req|] eqn:Hr.
    + rewrite (call_fetch _ _ _ _ req Hc Hr). reflexivity.
    + destruct (call_no_fetch type params self w (or_intror Hr)) as [e ->]. reflexivity.
  - destruct (call_no_fetch type params self w (or_introl Hc)) as [e ->]. reflexivity.
Qed.

(** What [call] adds to the log: nothing, or its one request. *)
Lemma call_log (type : Z) (params : list (string * jsval)) (self : t) (w : io W) :
  log (snd (call srv type params self w)) = log w \/
  exists req, callRequestOf self type params = Some req /\
              log (snd (call srv type params self w)) = (log w ++ [req])%list.
Proof.
  destruct (connected self) eqn:Hc.
  - destruct (callRequestOf self type params) as [req|] eqn:Hr.
    + right. exists req. rewrite (call_fetch _ _ _ _ req Hc Hr). split; reflexivity.
    + left. destruct (call_no_fetch type params self w (or_intror Hr)) as [e ->]. reflexivity.
  - left. destruct (call_no_fetch type params self w (or_introl Hc)) as [e ->]. reflexivity.
Qed.


Lemma clearSession_spec (self : t) (w : io W) :
  clearSession srv self w =
  match call srv MESSAGE_TYPES.ClearSession [] self w with
  | (Ok _, _, w1) => (Ok tt, set_sessionId Null self, w1)
  | (Throw e, _, w1) => (Throw e, self, w1)
  end.
Proof.
  unfold clearSession, modify. run.
  pose proof (call_object MESSAGE_TYPES.ClearSession [] self w) as Ho.
  destruct (call srv MESSAGE_TYPES.ClearSession [] self w) as [[[r|e] self1] w1];
    cbn [fst snd] in Ho; subst self1; reflexivity.
Qed.

(** C6 (as amended): [disconnect] on a client that is not connected returns
    at once and changes nothing.  On a connected client it first clears the
    session; when that throws, [disconnect] throws [Failed to disconnect: ]
    followed by the message of the error, and the client stays as it was,
    connected; when it returns, the client ends up disconnected, without
    device and session, and the event [device:disconnected] is emitted. *)
Theorem disconnect_outcome (self : t) (w : io W) :
  (connected self = false -> disconnect srv self w = (Ok tt, self, w)) /\
  (connected self = true ->
   match clearSession srv self w with
   | (Throw e, self1, w1) =>
       disconnect srv self w
       = (Throw (Error ("Failed to disconnect: " ++ message e)), self, w1)
       /\ self1 = self
   | (Ok _, self1, w1) =>
       disconnect srv self w
       = (Ok tt,
          mk (config self) None false Null
             (emitted self ++ [mkEvent DEVICE_EVENTS.DISCONNECTED NoArg])%list,
          w1)
   end).
Proof.
  split; intros Hc.
  - unfold disconnect. run. rewrite Hc. reflexivity.
  - unfold disconnect. run. rewrite Hc. cbn [negb].
    rewrite clearSession_spec.
    destruct (call srv MESSAGE_TYPES.ClearSession [] self w) as [[[r|e] self1] w1].
    + reflexivity.
    + split; reflexivity.
Qed.

Lemma call_ok (type : Z) (params : list (string * jsval)) (self : t) (w : io W)
  (resp : MessageResponse.t) (self1 : t) (w1 : io W) :
  call srv type params self w = (Ok resp, self1, w1) ->
  connected self = true /\ self1 = self /\
  exists req, callRequestOf self type params = Some req /\
              w1 = mkIo (snd (srv _ AsMessage req (far w))) (log w ++ [req])%list /\
              answered (fst (srv _ AsMessage req (far w))) = Ok resp.
Proof.
  intros H.
  destruct (connected self) eqn:Hc.
  - destruct (callRequestOf self type params) as [req|] eqn:Hr.
    + rewrite (call_fetch _ _ _ _ req Hc Hr) in H. injection H as H1 H2 H3.
      repeat split; try congruence. exists req. repeat split; congruence.
    + destruct (call_no_fetch type params self w (or_intror Hr)) as [e He].
      rewrite He in H. discriminate.
  - destruct (call_no_fetch type params self w (or_introl Hc)) as [e He].
    rewrite He in H. discriminate.
Qed.

Lemma callRequestOf_add_emitted (e : event KeepKeyDevice.t) (self : t)
  (type : Z) (params : list (string * jsval)) :
  callRequestOf (add_emitted e self) type params = callRequestOf self type params.
Proof. reflexivity. Qed.

(** C4 (as amended): after the call of [changePin] has been answered by a
    [PinMatrixRequest], for which [changePin] emits [device:pinRequest] before
    it returns, a first [sendPin] and a second one right after it are treated
    alike: each posts its [PinMatrixAck] to the device and returns what is
    answered.  The client keeps no record of an outstanding request and
    rejects neither. *)
Theorem sendPin_twice (remove : bool) (self : t) (w : io W)
  (resp : MessageResponse.t) (self1 : t) (w1 : io W) :
  callWithPinMatrix srv MESSAGE_TYPES.ChangePin [("remove", JBool remove)] self w
  = (Ok resp, self1, w1) ->
  MessageResponse.type resp = MESSAGE_TYPES.PinMatrixRequest ->
  changePin srv remove self w = (Ok tt, self1, w1) /\
  self1 = add_emitted (mkEvent DEVICE_EVENTS.PIN_REQUEST
                               (MessageArg (MessageResponse.message resp))) self
  /\ forall pin1 pin2 : string,
     exists req1 req2,
       callRequestOf self1 MESSAGE_TYPES.PinMatrixAck [("pin", JStr pin1)] = Some req1 /\
       callRequestOf self1 MESSAGE_TYPES.PinMatrixAck [("pin", JStr pin2)] = Some req2 /\
       let first := sendPin srv pin1 self1 w1 in
       let second := sendPin srv pin2 (object first) (world first) in
       object first = self1 /\ object second = self1 /\
       log (world second) = (log w1 ++ [req1; req2])%list /\
       outcome first = answered (fst (srv _ AsMessage req1 (far w1))) /\
       outcome second = answered (fst (srv _ AsMessage req2 (far (world first)))).
Proof.
  intros Hcp Hty.
  split; [unfold changePin; run; rewrite Hcp; reflexivity|].
  unfold callWithPinMatrix, emit, modify in Hcp. run_in Hcp.
  destruct (call srv MESSAGE_TYPES.ChangePin [("remove", JBool remove)] self w)
    as [[[r|e] s0] w0] eqn:Hcall; [|discriminate].
  destruct (call_ok _ _ _ _ _ _ _ Hcall) as (Hc & -> & req & Hreq & Hw0 & Hans).
  destruct (MessageResponse.type r =? MESSAGE_TYPES.PinMatrixRequest) eqn:Et.
  2:{ injection Hcp as <- <- <-. rewrite Hty in Et. discriminate. }
  injection Hcp as <- <- <-.
  split; [reflexivity|].
  intros pin1 pin2.
  set (self1 := add_emitted _ self).
  assert (Hc1 : connected self1 = true) by exact Hc.
  assert (Hsome : forall ty ps, exists rq, callRequestOf self1 ty ps = Some rq).
  { intros ty ps. unfold callRequestOf in *. cbn [config self1 add_emitted].
    destruct (switch (connectionType (config self))); try discriminate Hreq;
      eexists; reflexivity. }
  destruct (Hsome MESSAGE_TYPES.PinMatrixAck [("pin", JStr pin1)]) as [req1 Hr1].
  destruct (Hsome MESSAGE_TYPES.PinMatrixAck [("pin", JStr pin2)]) as [req2 Hr2].
  exists req1, req2. split; [exact Hr1|]. split; [exact Hr2|].
  cbv zeta. unfold sendPin.
  rewrite (call_fetch _ _ _ _ req1 Hc1 Hr1). unfold object, world, outcome. cbn [fst snd].
  rewrite (call_fetch _ _ _ _ req2 Hc1 Hr2). cbn [fst snd log far].
  rewrite <- app_assoc. repeat split; reflexivity.
Qed.

Lemma initializeDevice_ok (self : t) (w : io W) (d : KeepKeyDevice.t) (self' : t) (w' : io W) :
  initializeDevice srv self w = (Ok d, self', w') ->
  exists reply req d0,
    connected self = true /\
    device self = Some d0 /\
    callRequestOf self MESSAGE_TYPES.Initialize [] = Some req /\
    answered (fst (srv _ AsMessage req (far w))) = Ok reply /\
    w' = mkIo (snd (srv _ AsMessage req (far w))) (log w ++ [req])%list /\
    getProp (MessageResponse.message reply) "label" = Ok (KeepKeyDevice.label d) /\
    d = initialized d0 (KeepKeyDevice.label d) (MessageResponse.message reply) /\
    self' = add_emitted (mkEvent DEVICE_EVENTS.CONNECTED (DeviceArg d))
                        (set_device (Some d) self).
Proof.
  intros H. unfold initializeDevice, getFeatures, emit, modify in H. run_in H.
  destruct (call srv MESSAGE_TYPES.Initialize [] self w) as [[[reply|e] s0] w0] eqn:Hcall;
    [|discriminate].
  destruct (call_ok _ _ _ _ _ _ _ Hcall) as (Hc & -> & req & Hreq & -> & Hans).
  destruct (device self) as [d0|] eqn:Hd; [|discriminate].
  destruct (getProp (MessageResponse.message reply) "label") as [lbl|e] eqn:Hl; [|discriminate].
  injection H as <- <- <-.
  exists reply, req, d0. cbn [KeepKeyDevice.label].
  repeat split; try assumption; reflexivity.
Qed.

Lemma initializeDevice_spec (self : t) (w : io W) (d0 : KeepKeyDevice.t) (req : request)
  (reply : MessageResponse.t) (lbl : jsval) :
  connected self = true ->
  device self = Some d0 ->
  callRequestOf self MESSAGE_TYPES.Initialize [] = Some req ->
  answered (fst (srv _ AsMessage req (far w))) = Ok reply ->
  getProp (MessageResponse.message reply) "label" = Ok lbl ->
  initializeDevice srv self w =
  (Ok (initialized d0 lbl (MessageResponse.message reply)),
   add_emitted (mkEvent DEVICE_EVENTS.CONNECTED
                        (DeviceArg (initialized d0 lbl (MessageResponse.message reply))))
               (set_device (Some (initialized d0 lbl (MessageResponse.message reply))) self),
   mkIo (snd (srv _ AsMessage req (far w))) (log w ++ [req])%list).
Proof.
  intros Hc Hd Hreq Hans Hl.
  unfold initializeDevice, getFeatures, emit, modify. run.
  rewrite (call_fetch _ _ _ _ req Hc Hreq), Hans. cbn [device set_device].
  rewrite Hd, Hl. reflexivity.
Qed.

(** A successful [connect] of a type other than the Desktop one ends with
    the initialization call and keeps its answer on the device. *)
Lemma connect_ok (self : t) (w : io W) (od : option KeepKeyDevice.t) (self' : t) (w' : io W) :
  switch (connectionType (config self)) <> CaseDesktop ->
  connect srv self w = (Ok od, self', w') ->
  exists (d : KeepKeyDevice.t) (reply : MessageResponse.t) (req : request)
         (deviceInfo : BridgeDevice.t) (f2 : W),
    od = Some d /\
    callRequestOf self' MESSAGE_TYPES.Initialize [] = Some req /\
    answered (fst (srv _ AsMessage req f2)) = Ok reply /\
    w' = mkIo (snd (srv _ AsMessage req f2))
              (log w ++ [enumerateRequest self; acquireRequest self deviceInfo; req])%list /\
    KeepKeyDevice.features d = MessageResponse.message reply /\
    getProp (MessageResponse.message reply) "label" = Ok (KeepKeyDevice.label d) /\
    device self' = Some d /\ connected self' = true.
Proof.
  intros Hk H. unfold connect, emit, modify in H. run_in H.
  destruct (switch (connectionType (config self))) eqn:Hs; try congruence.
  - (* USB HID: the call throws *)
    unfold connectUsbHid, modify in H. run_in H.
    match type of H with context [initializeDevice srv ?s ?x] =>
      destruct (initializeDevice srv s x) as [[[d1|e] s1] w1] eqn:Hi end;
      [|discriminate].
    apply initializeDevice_ok in Hi.
    destruct Hi as (? & ? & ? & _ & _ & Hreq & _).
    unfold callRequestOf in Hreq. cbn [config set_connected set_device] in Hreq.
    rewrite Hs in Hreq. discriminate.
  - (* WebUSB: the call throws *)
    unfold connectWebUsb, modify in H. run_in H.
    match type of H with context [initializeDevice srv ?s ?x] =>
      destruct (initializeDevice srv s x) as [[[d1|e] s1] w1] eqn:Hi end;
      [|discriminate].
    apply initializeDevice_ok in Hi.
    destruct Hi as (? & ? & ? & _ & _ & Hreq & _).
    unfold callRequestOf in Hreq. cbn [config set_connected set_device] in Hreq.
    rewrite Hs in Hreq. discriminate.
  - (* Bridge *)
    unfold connectBridge, modify in H. run_in H.
    destruct (srv _ AsBridgeDevices _ (far w)) as [[r1|e1] f1]; [|discriminate].
    destruct (json r1) as [[|deviceInfo rest]|e]; try discriminate.
    cbn [far log] in H.
    match type of H with context [srv ?T AsSession ?r ?f] =>
      destruct (srv T AsSession r f) as [[r2|e2] f2] end; [|discriminate].
    destruct (json r2) as [session|e]; [|discriminate].
    match type of H with context [initializeDevice srv ?s ?x] =>
      destruct (initializeDevice srv s x) as [[[d1|e] s1] w1] eqn:Hi end;
      [|discriminate].
    injection H as <- <- <-.
    apply initializeDevice_ok in Hi.
    destruct Hi as (reply & req & d0 & Hc & Hd & Hreq & Hans & -> & Hl & Hd1 & ->).
    exists d1, reply, req, deviceInfo, f2. cbn [far log] in *. repeat split.
    + exact Hreq.
    + exact Hans.
    + rewrite <- !app_assoc. reflexivity.
    + rewrite Hd1. reflexivity.
    + exact Hl.
Qed.

(** [connectBridge] goes through whatever the features are: it reads their
    [label] and nothing else. *)
Lemma connectBridge_succeeds (self : t) (w : io W)
  (r1 : response (list BridgeDevice.t)) (f1 : W)
  (deviceInfo : BridgeDevice.t) (rest : list BridgeDevice.t)
  (r2 : response nullable) (f2 : W) (session : string)
  (r3 : response MessageResponse.t) (f3 : W) (reply : MessageResponse.t) (lbl : jsval) :
  switch (connectionType (config self)) = CaseBridge ->
  srv _ AsBridgeDevices (enumerateRequest self) (far w) = (Ok r1, f1) ->
  json r1 = Ok (deviceInfo :: rest) ->
  srv _ AsSession (acquireRequest self deviceInfo) f1 = (Ok r2, f2) ->
  json r2 = Ok (Str session) ->
  srv _ AsMessage
      (bridgeCallRequest
         (or_default falsy_string (bridgeUrl (config self)) "http://localhost:1646")
         (Str session) MESSAGE_TYPES.Initialize []) f2 = (Ok r3, f3) ->
  json r3 = Ok reply ->
  getProp (MessageResponse.message reply) "label" = Ok lbl ->
  let d := KeepKeyDevice.mk (BridgeDevice.path deviceInfo)
                            (vendorId (config self)) (productId (config self))
                            lbl (MessageResponse.message reply) in
  connect srv self w =
  (Ok (Some d),
   mk (config self) (Some d) true (Str session)
      (emitted self ++ [mkEvent DEVICE_EVENTS.CONNECTED (DeviceArg d)])%list,
   mkIo f3 (log w ++ [enumerateRequest self; acquireRequest self deviceInfo;
                      bridgeCallRequest
                        (or_default falsy_string (bridgeUrl (config self)) "http://localhost:1646")
                        (Str session) MESSAGE_TYPES.Initialize []])%list).
Proof.
  intros Hs H1 J1 H2 J2 H3 J3 Hl d.
  unfold connect, emit, modify. run. rewrite Hs.
  unfold connectBridge, modify. run.
  unfold enumerateRequest in H1. rewrite H1, J1. cbn [far log].
  unfold acquireRequest in H2. rewrite H2, J2.
  rewrite (initializeDevice_spec _ _
             (KeepKeyDevice.mk (BridgeDevice.path deviceInfo)
                               (vendorId (config self)) (productId (config self))
                               JUndefined JUndefined)
             (bridgeCallRequest
                (or_default falsy_string (bridgeUrl (config self)) "http://localhost:1646")
                (Str session) MESSAGE_TYPES.Initialize [])
             reply lbl).
  - cbn [far log]. rewrite H3. cbn [snd]. rewrite <- !app_assoc. reflexivity.
  - reflexivity.
  - reflexivity.
  - unfold callRequestOf. cbn [config set_connected set_device set_sessionId sessionId].
    rewrite Hs. reflexivity.
  - cbn [far]. rewrite H3. exact J3.
  - exact Hl.
Qed.

(** C5 (as amended): a successful [connect] of any connection type but the
    Desktop one has issued the initialization call as its last request and
    keeps the features answered, and their label, on the device it returns and
    holds.  [connect] does not look at the device id: over the Bridge it
    succeeds whenever the daemon lists a device, grants a session and answers
    the initialization with features whose label can be read, whatever their
    device id. *)
Theorem connect_initializes (self : t) (w : io W) :
  (forall (od : option KeepKeyDevice.t) (self' : t) (w' : io W),
      switch (connectionType (config self)) <> CaseDesktop ->
      connect srv self w = (Ok od, self', w') ->
      exists (d : KeepKeyDevice.t) (reply : MessageResponse.t) (req : request)
             (deviceInfo : BridgeDevice.t) (f2 : W),
        od = Some d /\
        callRequestOf self' MESSAGE_TYPES.Initialize [] = Some req /\
        answered (fst (srv _ AsMessage req f2)) = Ok reply /\
        w' = mkIo (snd (srv _ AsMessage req f2))
                  (log w ++ [enumerateRequest self; acquireRequest self deviceInfo; req])%list /\
        KeepKeyDevice.features d = MessageResponse.message reply /\
        getProp (MessageResponse.message reply) "label" = Ok (KeepKeyDevice.label d) /\
        device self' = Some d /\ connected self' = true) /\
  (forall (r1 : response (list BridgeDevice.t)) (f1 : W)
          (deviceInfo : BridgeDevice.t) (rest : list BridgeDevice.t)
          (r2 : response nullable) (f2 : W) (session : string)
          (r3 : response MessageResponse.t) (f3 : W)
          (reply : MessageResponse.t) (lbl : jsval),
      switch (connectionType (config self)) = CaseBridge ->
      srv _ AsBridgeDevices (enumerateRequest self) (far w) = (Ok r1, f1) ->
      json r1 = Ok (deviceInfo :: rest) ->
      srv _ AsSession (acquireRequest self deviceInfo) f1 = (Ok r2, f2) ->
      json r2 = Ok (Str session) ->
      srv _ AsMessage
          (bridgeCallRequest
             (or_default falsy_string (bridgeUrl (config self)) "http://localhost:1646")
             (Str session) MESSAGE_TYPES.Initialize []) f2 = (Ok r3, f3) ->
      json r3 = Ok reply ->
      getProp (MessageResponse.message reply) "label" = Ok lbl ->
      outcome (connect srv self w) =
      Ok (Some (KeepKeyDevice.mk (BridgeDevice.path deviceInfo)
                                 (vendorId (config self)) (productId (config self))
                                 lbl (MessageResponse.message reply)))).
Proof.
  split.
  - intros od self' w'. apply connect_ok.
  - intros r1 f1 deviceInfo rest r2 f2 session r3 f3 reply lbl Hs H1 J1 H2 J2 H3 J3 Hl.
    erewrite connectBridge_succeeds; try eassumption; reflexivity.
Qed.

(** *** Invariants *)

Lemma triple_call (P : t -> Prop) (type : Z) (params : list (string * jsval)) :
  triple P (call srv type params) P P.
Proof.
  intros x w Hp. pose proof (call_object type params x w) as Ho.
  destruct (call srv type params x w) as [[[r|e] x1] w1]; cbn [fst snd] in Ho; subst x1;
    exact Hp.
Qed.

Lemma triple_modify (P Qn Qe : t -> Prop) (f : t -> t) :
  (forall x, P x -> Qn (f x)) -> triple P (@modify W f) Qn Qe.
Proof. intros H x w Hp. apply H, Hp. Qed.

Ltac step I HI :=
  first
    [ apply triple_call
    | apply Hoare.triple_get
    | apply Hoare.triple_lift
    | apply Hoare.triple_fetch
    | apply Hoare.triple_ret; solve [auto]
    | apply Hoare.triple_throw; solve [auto]
    | apply triple_modify; intros ? ?; solve [apply HI; assumption]
    | eapply (Hoare.triple_bind I I); [|intro]
    | eapply (Hoare.triple_try_catch I I); [|intro]
    | match goal with |- triple _ (if ?b then _ else _) _ _ => destruct b end
    | match goal with |- triple _ (match ?x with _ => _ end) _ _ => destruct x end ].

Ltac steps I HI := repeat (step I HI).

Lemma triple_getFeatures (I : t -> Prop) (HI : stable I) :
  triple I (getFeatures srv) I I.
Proof. unfold getFeatures. steps I HI. Qed.

Lemma triple_ping (I : t -> Prop) (HI : stable I) (m : string) :
  triple I (ping srv m) I I.
Proof. unfold ping. steps I HI. Qed.

Lemma triple_cancel (I : t -> Prop) (HI : stable I) :
  triple I (cancel srv) I I.
Proof. unfold cancel. steps I HI. Qed.

Lemma triple_clearSession (I : t -> Prop) (HI : stable I) :
  triple I (clearSession srv) I I.
Proof. unfold clearSession. steps I HI. Qed.

Lemma triple_sendButtonAck (I : t -> Prop) (HI : stable I) :
  triple I (sendButtonAck srv) I I.
Proof. unfold sendButtonAck. steps I HI. Qed.

Lemma triple_sendPin (I : t -> Prop) (HI : stable I) (p : string) :
  triple I (sendPin srv p) I I.
Proof. unfold sendPin. steps I HI. Qed.

Lemma triple_sendPassphrase (I : t -> Prop) (HI : stable I) (p : string) (d : bool) :
  triple I (sendPassphrase srv p d) I I.
Proof. unfold sendPassphrase. steps I HI. Qed.

Lemma triple_sendWord (I : t -> Prop) (HI : stable I) (x : string) :
  triple I (sendWord srv x) I I.
Proof. unfold sendWord. steps I HI. Qed.

Lemma triple_callWithButtonAck (I : t -> Prop) (HI : stable I)
  (type : Z) (params : list (string * jsval)) :
  triple I (callWithButtonAck srv type params) I I.
Proof. unfold callWithButtonAck, sendButtonAck, emit. steps I HI. Qed.

Lemma triple_callWithPinMatrix (I : t -> Prop) (HI : stable I)
  (type : Z) (params : list (string * jsval)) :
  triple I (callWithPinMatrix srv type params) I I.
Proof. unfold callWithPinMatrix, emit. steps I HI. Qed.

Lemma triple_callWithRecovery (I : t -> Prop) (HI : stable I)
  (type : Z) (params : list (string * jsval)) :
  triple I (callWithRecovery srv type params) I I.
Proof. unfold callWithRecovery, emit. steps I HI. Qed.

Lemma stable_client_inv : stable Operations.client_inv.
Proof. intros x Hx. split; intros ?; exact Hx. Qed.

Lemma stable_holds_device : stable holds_device.
Proof. intros x Hx. split; intros ?; exact Hx. Qed.

Lemma holds_device_inv (x : t) : holds_device x -> Operations.client_inv x.
Proof. intros H _ _. exact H. Qed.

(** The invariant asks nothing of a client of the Desktop type. *)
Lemma desktop_client_inv (x : t) :
  switch (connectionType (config x)) = CaseDesktop -> Operations.client_inv x.
Proof. intros H Hn. congruence. Qed.

Lemma triple_initializeDevice : triple holds_device (initializeDevice srv) holds_device holds_device.
Proof.
  unfold initializeDevice, emit.
  eapply (Hoare.triple_bind holds_device holds_device); [apply triple_getFeatures, stable_holds_device|intro].
  eapply (Hoare.triple_bind holds_device holds_device); [apply Hoare.triple_get|intro].
  destruct (device a0).
  - eapply (Hoare.triple_bind holds_device holds_device);
      [apply triple_modify; intros; discriminate|intro].
    eapply (Hoare.triple_bind holds_device holds_device); [apply Hoare.triple_lift|intro].
    eapply (Hoare.triple_bind holds_device holds_device);
      [apply triple_modify; intros; discriminate|intro].
    steps holds_device stable_holds_device.
  - apply Hoare.triple_throw. auto.
Qed.

(** After [set_device (Some d)] the client holds a device, whatever it held. *)
Lemma triple_then_device {A : Type} (d : KeepKeyDevice.t) (k : M t W A) :
  triple holds_device k holds_device holds_device ->
  triple Operations.client_inv (bind (modify (set_device (Some d))) (fun _ => k))
         Operations.client_inv Operations.client_inv.
Proof.
  intros Hk.
  apply (Hoare.triple_weaken _ Operations.client_inv _ holds_device _ holds_device);
    auto using holds_device_inv.
  eapply (Hoare.triple_bind _ holds_device); [|intro; exact Hk].
  apply triple_modify. intros; discriminate.
Qed.

Lemma triple_set_connected :
  triple holds_device (@modify W (set_connected true)) holds_device holds_device.
Proof. apply triple_modify. intros x Hx. exact Hx. Qed.

Lemma triple_connect :
  triple Operations.client_inv (connect srv) Operations.client_inv Operations.client_inv.
Proof.
  pose proof stable_client_inv as HI. pose proof holds_device_inv as HJ.
  assert (Hsome : forall m : M t W KeepKeyDevice.t,
             triple Operations.client_inv m Operations.client_inv Operations.client_inv ->
             forall self : t,
               triple (fun x => Operations.client_inv x /\ x = self)
                      (bind m (fun d => ret (Some d)))
                      Operations.client_inv Operations.client_inv).
  { intros m Hm self.
    eapply (Hoare.triple_bind _ Operations.client_inv);
      [|intro; apply Hoare.triple_ret; auto].
    eapply Hoare.triple_weaken; [exact Hm| | |]; cbn beta; tauto. }
  unfold connect, emit.
  eapply (Hoare.triple_try_catch _ Operations.client_inv);
    [|intro; steps Operations.client_inv HI].
  apply Hoare.triple_get_bind. intro self.
  destruct (switch (connectionType (config self))) eqn:Hs.
  - apply Hsome. unfold connectUsbHid.
    eapply (Hoare.triple_bind _ Operations.client_inv); [apply Hoare.triple_get|intro].
    apply triple_then_device.
    eapply (Hoare.triple_bind _ holds_device); [apply triple_set_connected|intro].
    apply triple_initializeDevice.
  - apply Hsome. unfold connectWebUsb.
    eapply (Hoare.triple_bind _ Operations.client_inv); [apply Hoare.triple_get|intro].
    apply triple_then_device.
    eapply (Hoare.triple_bind _ holds_device); [apply triple_set_connected|intro].
    apply triple_initializeDevice.
  - (* Desktop: the type stays, and the invariant asks nothing of it *)
    set (D := fun x : t => switch (connectionType (config x)) = CaseDesktop).
    assert (HD : stable D) by (intros x Hx; split; intros ?; exact Hx).
    apply (Hoare.triple_weaken _ D _ D _ D); auto using desktop_client_inv.
    2:{ intros x [_ ->]. exact Hs. }
    unfold connectDesktop, emit.
    eapply (Hoare.triple_bind _ D); [apply Hoare.triple_get|intro].
    eapply (Hoare.triple_bind _ D); [apply Hoare.triple_fetch|intro].
    eapply (Hoare.triple_bind _ D); [apply Hoare.triple_lift|intros [|first rest]].
    + apply Hoare.triple_throw. auto.
    + eapply (Hoare.triple_bind _ D); [apply triple_modify; intros x Hx; exact Hx|intro].
      eapply (Hoare.triple_bind _ D); [apply triple_modify; intros x Hx; exact Hx|intro].
      steps D HD.
  - apply Hsome. unfold connectBridge.
    eapply (Hoare.triple_bind _ Operations.client_inv); [apply Hoare.triple_get|intro].
    eapply (Hoare.triple_bind _ Operations.client_inv); [apply Hoare.triple_fetch|intro].
    eapply (Hoare.triple_bind _ Operations.client_inv); [apply Hoare.triple_lift|intros [|deviceInfo rest]].
    + apply Hoare.triple_throw. auto.
    + eapply (Hoare.triple_bind _ Operations.client_inv); [apply Hoare.triple_fetch|intro].
      eapply (Hoare.triple_bind _ Operations.client_inv); [apply Hoare.triple_lift|intro].
      eapply (Hoare.triple_bind _ Operations.client_inv);
        [apply triple_modify; intros ? ?; apply HI; assumption|intro].
      apply triple_then_device.
      eapply (Hoare.triple_bind _ holds_device); [apply triple_set_connected|intro].
      apply triple_initializeDevice.
  - apply Hoare.triple_throw. tauto.
Qed.

Lemma triple_disconnect :
  triple Operations.client_inv (disconnect srv) Operations.client_inv Operations.client_inv.
Proof.
  pose proof stable_client_inv as HI.
  unfold disconnect, emit.
  eapply (Hoare.triple_bind _ Operations.client_inv); [apply Hoare.triple_get|intro self].
  destruct (negb (connected self)); [apply Hoare.triple_ret; auto|].
  eapply (Hoare.triple_try_catch _ Operations.client_inv);
    [|intro; apply Hoare.triple_throw; auto].
  eapply (Hoare.triple_bind _ Operations.client_inv); [apply triple_clearSession, HI|intros _].
  eapply (Hoare.triple_bind _ (fun x => connected x = false));
    [apply triple_modify; reflexivity|intros _].
  eapply (Hoare.triple_bind _ (fun x => connected x = false));
    [apply triple_modify; auto|intros _].
  eapply (Hoare.triple_bind _ (fun x => connected x = false));
    [apply triple_modify; auto|intros _].
  apply triple_modify. intros x Hx _ Hc. cbn [connected add_emitted] in Hc. congruence.
Qed.

Lemma triple_forget {A : Type} (I : t -> Prop) (m : M t W A) :
  triple I m I I -> triple I (Operations.forget m) I I.
Proof.
  intros H. unfold Operations.forget.
  eapply (Hoare.triple_bind I I); [exact H|intro]. apply Hoare.triple_ret. auto.
Qed.

Lemma triple_run_client (o : Operations.client_op) :
  triple Operations.client_inv (Operations.run_client srv o)
         Operations.client_inv Operations.client_inv.
Proof.
  pose proof stable_client_inv as HI.
  assert (Hret : forall (A : Type) (m : M t W A),
             triple Operations.client_inv m Operations.client_inv Operations.client_inv ->
             triple Operations.client_inv (bind m (fun _ => ret tt))
                    Operations.client_inv Operations.client_inv).
  { intros A m H. eapply (Hoare.triple_bind _ Operations.client_inv); [exact H|intro].
    apply Hoare.triple_ret. auto. }
  destruct o; cbn [Operations.run_client].
  - apply triple_forget, triple_connect.
  - apply triple_disconnect.
  - apply triple_forget, triple_getFeatures, HI.
  - apply triple_forget, triple_ping, HI.
  - apply triple_cancel, HI.
  - apply triple_clearSession, HI.
  - apply Hret, triple_callWithButtonAck, HI.
  - apply Hret, triple_callWithButtonAck, HI.
  - apply Hret, triple_callWithButtonAck, HI.
  - apply Hret, triple_callWithRecovery, HI.
  - apply Hret, triple_callWithPinMatrix, HI.
  - apply triple_forget, triple_sendPin, HI.
  - apply triple_forget, triple_sendPassphrase, HI.
  - apply triple_forget, triple_sendWord, HI.
  - apply triple_forget, triple_sendButtonAck, HI.
  - apply triple_forget, triple_call.
Qed.

(** *** What [resetDevice] and [recoverDevice] send *)

Lemma world_then_ret {A : Type} (m : M t W A) (self : t) (w : io W) :
  world (bind m (fun _ => ret tt) self w) = world (m self w).
Proof. unfold world, bind, ret. destruct (m self w) as [[[a|e] s1] w1]; reflexivity. Qed.

(** The requests of [callWithButtonAck] on a connected client whose
    connection type reaches [fetch]: the request of the call, then the
    acknowledgement when the answer is a [ButtonRequest]. *)
Lemma callWithButtonAck_sent (type : Z) (params : list (string * jsval)) (self : t) (w : io W)
  (req ack : request) :
  connected self = true ->
  callRequestOf self type params = Some req ->
  callRequestOf self MESSAGE_TYPES.ButtonAck [] = Some ack ->
  log (world (callWithButtonAck srv type params self w))
  = (log w ++ req :: match answered (fst (srv _ AsMessage req (far w))) with
                     | Ok reply =>
                         if MessageResponse.type reply =? MESSAGE_TYPES.ButtonRequest
                         then [ack] else []
                     | Throw _ => []
                     end)%list.
Proof.
  intros Hc Hreq Hack.
  unfold callWithButtonAck, sendButtonAck, emit, modify, world. run.
  rewrite (call_fetch type params self w req Hc Hreq).
  destruct (answered (fst (srv _ AsMessage req (far w)))) as [reply|e]; [|reflexivity].
  destruct (MessageResponse.type reply =? MESSAGE_TYPES.ButtonRequest); [|reflexivity].
  match goal with |- context [call srv ?ty ?ps ?s ?x] =>
    rewrite (call_fetch ty ps s x ack Hc Hack)
  end.
  cbn [snd log]. rewrite <- app_assoc. reflexivity.
Qed.

Lemma callWithRecovery_sent (type : Z) (params : list (string * jsval)) (self : t) (w : io W)
  (req : request) :
  connected self = true ->
  callRequestOf self type params = Some req ->
  log (world (callWithRecovery srv type params self w)) = (log w ++ [req])%list.
Proof.
  intros Hc Hreq.
  unfold callWithRecovery, emit, modify, world. run.
  rewrite (call_fetch type params self w req Hc Hreq).
  destruct (answered (fst (srv _ AsMessage req (far w)))) as [reply|e]; [|reflexivity].
  destruct (MessageResponse.type reply =? MESSAGE_TYPES.WordRequest); reflexivity.
Qed.

(** A call that does not reach [fetch] leaves the log as it is, and so do the
    methods built on it. *)
Lemma no_request_sent (type : Z) (params : list (string * jsval)) (self : t) (w : io W) :
  connected self = false \/ callRequestOf self type params = None ->
  log (world (callWithButtonAck srv type params self w)) = log w /\
  log (world (callWithRecovery srv type params self w)) = log w.
Proof.
  intros H. destruct (call_no_fetch type params self w H) as [e He].
  unfold callWithButtonAck, callWithRecovery, world. run. rewrite He. split; reflexivity.
Qed.

Lemma callRequestOf_same_type (self : t) (ty1 ty2 : Z) (ps1 ps2 : list (string * jsval)) :
  callRequestOf self ty1 ps1 = None -> callRequestOf self ty2 ps2 = None.
Proof.
  unfold callRequestOf. destruct (switch (connectionType (config self))); congruence.
Qed.

(** C10: whatever parameters the caller passes, also [pin_protection: false],
    the message that [resetDevice] and that [recoverDevice] build carries
    [pin_protection: true], and so does the request that [call] makes of it
    for the Bridge and for the Desktop API.  On a connected client of one of
    these two types both operations send it: it is the first request of
    [resetDevice], followed only by the acknowledgement when the device asks
    for a button, and the one request of [recoverDevice].  On any other client
    neither operation issues a request. *)
Theorem pin_protection_always_sent (self : t) (w : io W)
  (reset : ResetParams) (recover : RecoverParams) :
  lookup "pin_protection" (resetDeviceMessage reset) = JBool true /\
  lookup "pin_protection" (recoverDeviceMessage recover) = JBool true /\
  match connected self,
        callRequestOf self MESSAGE_TYPES.ResetDevice (resetDeviceMessage reset),
        callRequestOf self MESSAGE_TYPES.RecoveryDevice (recoverDeviceMessage recover),
        callRequestOf self MESSAGE_TYPES.ButtonAck [] with
  | true, Some req1, Some req2, Some ack =>
      pinProtectionSent req1 = JBool true /\
      pinProtectionSent req2 = JBool true /\
      log (world (resetDevice srv reset self w))
      = (log w ++ req1 :: match answered (fst (srv _ AsMessage req1 (far w))) with
                          | Ok reply =>
                              if MessageResponse.type reply =? MESSAGE_TYPES.ButtonRequest
                              then [ack] else []
                          | Throw _ => []
                          end)%list /\
      log (world (recoverDevice srv recover self w)) = (log w ++ [req2])%list
  | _, _, _, _ =>
      log (world (resetDevice srv reset self w)) = log w /\
      log (world (recoverDevice srv recover self w)) = log w
  end.
Proof.
  assert (Htrue : forall x : option bool, or_default falsy_bool x true = true)
    by (intros [[|]|]; reflexivity).
  split; [cbn; now rewrite Htrue|]. split; [cbn; now rewrite Htrue|].
  unfold resetDevice, recoverDevice. rewrite !world_then_ret.
  assert (Hnone : connected self = false \/
                  callRequestOf self MESSAGE_TYPES.ResetDevice (resetDeviceMessage reset) = None ->
                  log (world (callWithButtonAck srv MESSAGE_TYPES.ResetDevice
                                (resetDeviceMessage reset) self w)) = log w /\
                  log (world (callWithRecovery srv MESSAGE_TYPES.RecoveryDevice
                                (recoverDeviceMessage recover) self w)) = log w).
  { intros H. split.
    - apply no_request_sent, H.
    - apply no_request_sent. destruct H as [H|H]; [left; exact H|right].
      eapply callRequestOf_same_type, H. }
  destruct (connected self) eqn:Hc; [|apply Hnone; left; reflexivity].
  destruct (callRequestOf self MESSAGE_TYPES.ResetDevice (resetDeviceMessage reset))
    as [req1|] eqn:H1; [|apply Hnone; right; reflexivity].
  destruct (callRequestOf self MESSAGE_TYPES.RecoveryDevice (recoverDeviceMessage recover))
    as [req2|] eqn:H2.
  2:{ rewrite (callRequestOf_same_type _ _ MESSAGE_TYPES.ResetDevice _
                 (resetDeviceMessage reset) H2) in H1. discriminate. }
  destruct (callRequestOf self MESSAGE_TYPES.ButtonAck []) as [ack|] eqn:H3.
  2:{ rewrite (callRequestOf_same_type _ _ MESSAGE_TYPES.ResetDevice _
                 (resetDeviceMessage reset) H3) in H1. discriminate. }
  split; [|split; [|split]].
  - unfold callRequestOf in H1.
    destruct (switch (connectionType (config self))); try discriminate H1;
      injection H1 as <-; cbn; now rewrite Htrue.
  - unfold callRequestOf in H2.
    destruct (switch (connectionType (config self))); try discriminate H2;
      injection H2 as <-; cbn; now rewrite Htrue.
  - apply callWithButtonAck_sent; assumption.
  - apply callWithRecovery_sent; assumption.
Qed.

End WithServer.


Lemma disconnect_outcome_witness :
  disconnect Simulation.daemon Simulation.bridgeClient (Simulation.start "id")
  = (Ok tt, Simulation.bridgeClient, Simulation.start "id")
  /\
  (disconnect Simulation.daemon Simulation.usbConnected (Simulation.start "id")
   = (Throw (Error ("Failed to disconnect: " ++
                    message (Error "USB HID transport requires native module"))),
      Simulation.usbConnected, Simulation.start "id")
   /\ Simulation.usbConnected = Simulation.usbConnected).
Proof.
  split.
  - apply (proj1 (disconnect_outcome Simulation.daemon Simulation.bridgeClient
                    (Simulation.start "id"))).
    reflexivity.
  - exact (proj2 (disconnect_outcome Simulation.daemon Simulation.usbConnected
                    (Simulation.start "id")) eq_refl).
Defined.

(** C6, as stated, fails.  After a [connect] over USB HID, which throws but
    leaves the client connected, [disconnect] throws, and the client is still
    connected afterwards. *)
Lemma disconnect_throws :
  connected Simulation.usbConnected = true /\
  outcome (disconnect Simulation.daemon Simulation.usbConnected (Simulation.start "id"))
  = Throw (Error "Failed to disconnect: USB HID transport requires native module") /\
  connected (object (disconnect Simulation.daemon Simulation.usbConnected (Simulation.start "id")))
  = true.
Proof. repeat split; vm_compute; reflexivity. Qed.

Lemma sendPin_twice_witness :
  let asked := callWithPinMatrix Simulation.daemon MESSAGE_TYPES.ChangePin
                 [("remove", JBool false)] Simulation.bridgeConnected Simulation.bridgeWorld in
  let resp := MessageResponse.mk MESSAGE_TYPES.PinMatrixRequest (JObj [("type", JNum 1)]) in
  asked = (Ok resp, object asked, world asked) /\
  MessageResponse.type resp = MESSAGE_TYPES.PinMatrixRequest /\
  changePin Simulation.daemon false Simulation.bridgeConnected Simulation.bridgeWorld
  = (Ok tt, object asked, world asked) /\
  object asked
  = add_emitted (mkEvent DEVICE_EVENTS.PIN_REQUEST
                         (MessageArg (MessageResponse.message resp)))
                Simulation.bridgeConnected.
Proof.
  cbv zeta.
  assert (H1 : callWithPinMatrix Simulation.daemon MESSAGE_TYPES.ChangePin
                 [("remove", JBool false)] Simulation.bridgeConnected Simulation.bridgeWorld
               = (Ok (MessageResponse.mk MESSAGE_TYPES.PinMatrixRequest (JObj [("type", JNum 1)])),
                  object (callWithPinMatrix Simulation.daemon MESSAGE_TYPES.ChangePin
                            [("remove", JBool false)] Simulation.bridgeConnected
                            Simulation.bridgeWorld),
                  world (callWithPinMatrix Simulation.daemon MESSAGE_TYPES.ChangePin
                           [("remove", JBool false)] Simulation.bridgeConnected
                           Simulation.bridgeWorld)))
    by (vm_compute; reflexivity).
  split; [exact H1|]. split; [reflexivity|].
  pose proof (sendPin_twice Simulation.daemon false _ _ _ _ _ H1 eq_refl) as (H2 & H3 & _).
  split; [exact H2|exact H3].
Defined.

(** C4, as stated, fails.  Over the Bridge, after the device has answered
    [changePin] by a [PinMatrixRequest], which shows as the event
    [device:pinRequest], and a first [sendPin] has succeeded, a second
    [sendPin] is not refused by the client: it posts a second [PinMatrixAck]
    and returns the answer of the device, here its [Failure] message. *)
Lemma second_sendPin_is_sent :
  let c1 := changePin Simulation.daemon false Simulation.bridgeConnected Simulation.bridgeWorld in
  let c2 := sendPin Simulation.daemon "1234" (object c1) (world c1) in
  let c3 := sendPin Simulation.daemon "1234" (object c2) (world c2) in
  outcome c1 = Ok tt /\
  last (emitted (object c1)) (mkEvent "" NoArg)
  = mkEvent DEVICE_EVENTS.PIN_REQUEST (MessageArg (JObj [("type", JNum 1)])) /\
  outcome c2 = Ok (MessageResponse.mk MESSAGE_TYPES.Success (JObj [("message", JStr "PIN changed")])) /\
  outcome c3 = Ok (MessageResponse.mk MESSAGE_TYPES.Failure
                     (JObj [("code", JNum 1); ("message", JStr "Unexpected message")])) /\
  log (world c3) =
  (log (world c2) ++
   [bridgeCallRequest "http://localhost:1646" (Str "s1") MESSAGE_TYPES.PinMatrixAck
                      [("pin", JStr "1234")]])%list.
Proof. cbv zeta. repeat split; vm_compute; reflexivity. Qed.

Lemma connect_initializes_witness :
  (switch (connectionType (config Simulation.bridgeClient)) <> CaseDesktop /\
   exists od self' w',
     connect Simulation.daemon Simulation.bridgeClient (Simulation.start "id")
     = (Ok od, self', w') /\
     exists d reply req deviceInfo f2,
       od = Some d /\
       callRequestOf self' MESSAGE_TYPES.Initialize [] = Some req /\
       answered (fst (Simulation.daemon _ AsMessage req f2)) = Ok reply /\
       w' = mkIo (snd (Simulation.daemon _ AsMessage req f2))
                 (log (Simulation.start "id") ++
                  [enumerateRequest Simulation.bridgeClient;
                   acquireRequest Simulation.bridgeClient deviceInfo; req])%list /\
       KeepKeyDevice.features d = MessageResponse.message reply /\
       getProp (MessageResponse.message reply) "label" = Ok (KeepKeyDevice.label d) /\
       device self' = Some d /\ connected self' = true) /\
  outcome (connect Simulation.daemon Simulation.bridgeClient (Simulation.start ""))
  = Ok (Some (KeepKeyDevice.mk "/dev/hid0" KEEPKEY_VENDOR_ID KEEPKEY_PRODUCT_ID
                               (JStr "Test KeepKey") (Simulation.mockFeatures ""))).
Proof.
  assert (Hk : switch (connectionType (config Simulation.bridgeClient)) <> CaseDesktop)
    by (vm_compute; discriminate).
  split.
  - split; [exact Hk|].
    eexists _, _, _. split; [vm_compute; reflexivity|].
    refine (proj1 (connect_initializes Simulation.daemon Simulation.bridgeClient
                     (Simulation.start "id")) _ _ _ Hk _).
    vm_compute. reflexivity.
  - eapply (proj2 (connect_initializes Simulation.daemon Simulation.bridgeClient
                     (Simulation.start ""))
              _ _ (BridgeDevice.mk "/dev/hid0" Null) [] _ _ "s1" _ _
              (MessageResponse.mk MESSAGE_TYPES.Features (Simulation.mockFeatures ""))
              (JStr "Test KeepKey")).
    + reflexivity.
    + reflexivity.
    + reflexivity.
    + reflexivity.
    + reflexivity.
    + reflexivity.
    + reflexivity.
    + reflexivity.
Defined.

(** C5, as stated, fails.  Over the Bridge, features with an empty device id
    are accepted: [connect] returns the device with these features.  Over the
    Desktop API, [connect] returns after the one request that lists the
    devices, without an initialization call and without features. *)
Lemma connect_accepts_empty_device_id :
  (exists d,
      outcome (connect Simulation.daemon Simulation.bridgeClient (Simulation.start ""))
      = Ok (Some d) /\
      getProp (KeepKeyDevice.features d) "device_id" = Ok (JStr "")) /\
  (exists d,
      outcome (connect Simulation.daemon Simulation.desktopClient (Simulation.start "id"))
      = Ok (Some d) /\
      KeepKeyDevice.features d = JUndefined /\
      log (world (connect Simulation.daemon Simulation.desktopClient (Simulation.start "id")))
      = [mkRequest GET "http://localhost:1646/devices" [] None]).
Proof.
  split; eexists; repeat split; vm_compute; reflexivity.
Qed.

Lemma pin_protection_always_sent_witness :
  let reset := mkResetParams (Some 128) None (Some false) (Some "wallet") None None in
  let recover := mkRecoverParams 12 None (Some false) None None None None None in
  let req1 := bridgeCallRequest "http://localhost:1646" (Str "s1") MESSAGE_TYPES.ResetDevice
                                (resetDeviceMessage reset) in
  let req2 := bridgeCallRequest "http://localhost:1646" (Str "s1") MESSAGE_TYPES.RecoveryDevice
                                (recoverDeviceMessage recover) in
  let ack := bridgeCallRequest "http://localhost:1646" (Str "s1") MESSAGE_TYPES.ButtonAck [] in
  pinProtectionSent req1 = JBool true /\
  pinProtectionSent req2 = JBool true /\
  log (world (resetDevice Simulation.daemon reset Simulation.bridgeConnected
                          Simulation.bridgeWorld))
  = (log Simulation.bridgeWorld ++ [req1; ack])%list /\
  log (world (recoverDevice Simulation.daemon recover Simulation.bridgeConnected
                            Simulation.bridgeWorld))
  = (log Simulation.bridgeWorld ++ [req2])%list.
Proof.
  exact (proj2 (proj2 (pin_protection_always_sent Simulation.daemon
                         Simulation.bridgeConnected Simulation.bridgeWorld
                         (mkResetParams (Some 128) None (Some false) (Some "wallet") None None)
                         (mkRecoverParams 12 None (Some false) None None None None None)))).
Defined.

End ClientFacts.

(** ** The life cycle of the client and its requests *)

Module ClientLifecycleFacts.
Import Js Constants Http KeepKeyClient Operations Traffic.

Ltac run := unfold bind, try_catch, get, put, ret, throw, lift, fetch.

Section WithServer.
Context {W : Type} (srv : server W).

(** On a connected client of the USB HID or the WebUSB type every [call]
    throws at once. *)
Lemma call_transportError (self : t) (e : error) (type : Z)
  (params : list (string * jsval)) (w : io W) :
  connected self = true ->
  transportError (switch (connectionType (config self))) = Some e ->
  call srv type params self w = (Throw e, self, w).
Proof.
  intros Hc He. unfold call. run. rewrite Hc. cbn [negb].
  destruct (switch (connectionType (config self))); try discriminate He;
    injection He as <-; reflexivity.
Qed.

Lemma run_client_transportError (c : Config) (e : error) (o : client_op) (x : t) (w : io W) :
  transportError (switch (connectionType c)) = Some e ->
  stuck_inv c x ->
  exists r x', run_client srv o x w = (r, x', w) /\ stuck_inv c x'.
Proof.
  intros He (Hc & Hd & Hcfg). subst c.
  assert (Hcall : forall ty ps y, connected y = true -> config y = config x ->
                  call srv ty ps y w = (Throw e, y, w)).
  { intros ty ps y Hy Hcy. apply call_transportError; [exact Hy|]. rewrite Hcy. exact He. }
  destruct o; cbn [run_client]; unfold forget.
  - (* connect *)
    unfold connect, emit, modify. run.
    destruct (switch (connectionType (config x))) eqn:Hs; try discriminate He.
    + unfold connectUsbHid, initializeDevice, getFeatures, emit, modify. run.
      rewrite Hcall by reflexivity.
      eexists _, _. split; [reflexivity|]. repeat split. discriminate.
    + unfold connectWebUsb, initializeDevice, getFeatures, emit, modify. run.
      rewrite Hcall by reflexivity.
      eexists _, _. split; [reflexivity|]. repeat split. discriminate.
  - unfold disconnect, clearSession, emit, modify. run. rewrite Hc. cbn [negb].
    rewrite Hcall by auto. eexists _, _. split; [reflexivity|]. repeat split; assumption.
  - unfold getFeatures. run. rewrite Hcall by auto.
    eexists _, _. split; [reflexivity|]. repeat split; assumption.
  - unfold ping. run. rewrite Hcall by auto.
    eexists _, _. split; [reflexivity|]. repeat split; assumption.
  - unfold cancel. run. rewrite Hcall by auto.
    eexists _, _. split; [reflexivity|]. repeat split; assumption.
  - unfold clearSession. run. rewrite Hcall by auto.
    eexists _, _. split; [reflexivity|]. repeat split; assumption.
  - unfold applySettings, callWithButtonAck. run. rewrite Hcall by auto.
    eexists _, _. split; [reflexivity|]. repeat split; assumption.
  - unfold wipeDevice, callWithButtonAck. run. rewrite Hcall by auto.
    eexists _, _. split; [reflexivity|]. repeat split; assumption.
  - unfold resetDevice, callWithButtonAck. run. rewrite Hcall by auto.
    eexists _, _. split; [reflexivity|]. repeat split; assumption.
  - unfold recoverDevice, callWithRecovery. run. rewrite Hcall by auto.
    eexists _, _. split; [reflexivity|]. repeat split; assumption.
  - unfold changePin, callWithPinMatrix. run. rewrite Hcall by auto.
    eexists _, _. split; [reflexivity|]. repeat split; assumption.
  - unfold sendPin. run. rewrite Hcall by auto.
    eexists _, _. split; [reflexivity|]. repeat split; assumption.
  - unfold sendPassphrase. run. rewrite Hcall by auto.
    eexists _, _. split; [reflexivity|]. repeat split; assumption.
  - unfold sendWord. run. rewrite Hcall by auto.
    eexists _, _. split; [reflexivity|]. repeat split; assumption.
  - unfold sendButtonAck. run. rewrite Hcall by auto.
    eexists _, _. split; [reflexivity|]. repeat split; assumption.
  - run. rewrite Hcall by auto.
    eexists _, _. split; [reflexivity|]. repeat split; assumption.
Qed.

Lemma run_clients_transportError (c : Config) (e : error) (ops : list client_op) :
  transportError (switch (connectionType c)) = Some e ->
  forall (x : t) (w : io W),
    stuck_inv c x ->
    snd (run_clients srv ops x w) = w /\ stuck_inv c (fst (run_clients srv ops x w)).
Proof.
  intros He. induction ops as [|o ops IH]; intros x w Hx; [split; [reflexivity|exact Hx]|].
  cbn [run_clients].
  destruct (run_client_transportError c e o x w He Hx) as (r & x' & -> & Hx').
  apply IH, Hx'.
Qed.

(** X10: a client of the USB HID or of the WebUSB type cannot be used and
    cannot be disconnected.  [connect] throws the error of the missing
    transport, without a request, and leaves the client marked connected, with
    a device.  From then on, whatever operations are called, no request is ever
    issued, [isConnected] answers true, and [disconnect] throws. *)
Theorem transport_client_stuck (self : t) (w : io W) (e : error) (ops : list client_op) :
  transportError (switch (connectionType (config self))) = Some e ->
  let d := KeepKeyDevice.mk (transportPath (config self)) (vendorId (config self))
                            (productId (config self)) JUndefined JUndefined in
  let stuck := add_emitted (mkEvent DEVICE_EVENTS.FAILURE (ErrorArg e))
                           (set_connected true (set_device (Some d) self)) in
  connect srv self w = (Throw e, stuck, w) /\
  let x := fst (run_clients srv ops stuck w) in
  snd (run_clients srv ops stuck w) = w /\
  isConnected x = true /\
  disconnect srv x w = (Throw (Error ("Failed to disconnect: " ++ message e)), x, w).
Proof.
  intros He. cbv zeta. split.
  - unfold connect, emit, modify, transportPath. run.
    destruct (switch (connectionType (config self))) eqn:Hs; try discriminate He;
      injection He as <-.
    + unfold connectUsbHid, initializeDevice, getFeatures, emit, modify. run.
      rewrite (call_transportError _ (Error "USB HID transport requires native module"));
        [reflexivity|reflexivity|].
      cbn [config set_connected set_device]. rewrite Hs. reflexivity.
    + unfold connectWebUsb, initializeDevice, getFeatures, emit, modify. run.
      rewrite (call_transportError _ (Error "WebUSB transport requires browser environment"));
        [reflexivity|reflexivity|].
      cbn [config set_connected set_device]. rewrite Hs. reflexivity.
  - match goal with |- context [run_clients srv ops ?s w] => set (stuck := s) end.
    assert (Hstuck : stuck_inv (config self) stuck).
    { repeat split. discriminate. }
    destruct (run_clients_transportError (config self) e ops He stuck w Hstuck)
      as (Hw & Hc & Hd & Hcfg).
    split; [exact Hw|].
    split.
    + unfold isConnected. rewrite Hc. destruct (device (fst (run_clients srv ops stuck w)));
        [reflexivity|congruence].
    + unfold disconnect, clearSession, emit, modify. run. rewrite Hc. cbn [negb].
      rewrite (call_transportError _ e); [reflexivity|exact Hc|]. rewrite Hcfg. exact He.
Qed.

(** X11: [connect] of the Desktop type issues one request, the list of the
    devices, and no initialization: it returns the first element of the list
    as the daemon gives it, a device or [null], holds it, marks the client
    connected and emits it with [device:connected].  When the list is empty,
    cannot be read or the request is rejected, it throws, and the client is as
    before except for the [device:failure] emitted. *)
Theorem desktop_connect_outcome (self : t) (w : io W) :
  switch (connectionType (config self)) = CaseDesktop ->
  let req := mkRequest GET (desktopBase (config self) ++ "/devices") [] None in
  let w' := mkIo (snd (srv _ AsDevices req (far w))) (log w ++ [req])%list in
  let failed (e : error) :=
    (@Throw (option KeepKeyDevice.t) e,
     add_emitted (mkEvent DEVICE_EVENTS.FAILURE (ErrorArg e)) self, w') in
  connect srv self w =
  match fst (srv _ AsDevices req (far w)) with
  | Throw e => failed e
  | Ok response =>
      match json response with
      | Throw e => failed e
      | Ok [] => failed (Error "No KeepKey device found via Desktop")
      | Ok (first :: _) =>
          (Ok first,
           mk (config self) first true (sessionId self)
              (emitted self ++
               [mkEvent DEVICE_EVENTS.CONNECTED
                        (match first with
                         | Some d => DeviceArg d
                         | None => MessageArg JNull
                         end)])%list,
           w')
      end
  end.
Proof.
  intros Hs. cbv zeta. unfold connect, emit, modify. run. rewrite Hs.
  unfold connectDesktop, emit, modify, desktopBase. run.
  destruct (srv _ AsDevices _ (far w)) as [[resp|e] f]; cbn [fst snd]; [|reflexivity].
  destruct (json resp) as [[|first rest]|e]; reflexivity.
Qed.

(** X12: [connect] of the Bridge type marks the client connected before it
    initializes the device.  When the daemon has listed a device and granted a
    session and [connect] then throws, the client is left connected, holding
    the session token: [isConnected] answers true after the failed [connect].
    The three requests, the initialization among them, have been issued, and
    [device:failure] is the last event. *)
Theorem bridge_connect_failed_initialization (self : t) (w : io W)
  (r1 : response (list BridgeDevice.t)) (f1 : W)
  (deviceInfo : BridgeDevice.t) (rest : list BridgeDevice.t)
  (r2 : response nullable) (f2 : W) (session : string) (e : error) :
  switch (connectionType (config self)) = CaseBridge ->
  srv _ AsBridgeDevices (enumerateRequest self) (far w) = (Ok r1, f1) ->
  json r1 = Ok (deviceInfo :: rest) ->
  srv _ AsSession (acquireRequest self deviceInfo) f1 = (Ok r2, f2) ->
  json r2 = Ok (Str session) ->
  outcome (connect srv self w) = Throw e ->
  let x := object (connect srv self w) in
  connected x = true /\ isConnected x = true /\ sessionId x = Str session /\
  last (emitted x) (mkEvent "" NoArg) = mkEvent DEVICE_EVENTS.FAILURE (ErrorArg e) /\
  log (world (connect srv self w))
  = (log w ++ [enumerateRequest self; acquireRequest self deviceInfo;
               bridgeCallRequest (bridgeBase (config self)) (Str session)
                                 MESSAGE_TYPES.Initialize []])%list.
Proof.
  intros Hs H1 J1 H2 J2. cbv zeta.
  unfold connect, emit, modify. run. rewrite Hs.
  unfold connectBridge, modify. run.
  unfold enumerateRequest in H1. rewrite H1, J1. cbn [far log].
  unfold acquireRequest in H2. rewrite H2, J2.
  unfold initializeDevice, getFeatures, emit, modify. run.
  match goal with |- context [call srv ?ty ?ps ?s ?x] =>
    rewrite (ClientFacts.call_fetch srv ty ps s x
               (bridgeCallRequest (bridgeBase (config self)) (Str session)
                                  MESSAGE_TYPES.Initialize []))
  end.
  2:{ reflexivity. }
  2:{ unfold callRequestOf. cbn [config set_connected set_device set_sessionId sessionId].
      rewrite Hs. reflexivity. }
  cbn [far log].
  destruct (answered (fst (srv _ AsMessage _ f2))) as [reply|e1];
    cbn [device set_connected set_device set_sessionId].
  - destruct (getProp (MessageResponse.message reply) "label") as [lbl|e1].
    + unfold outcome. cbn [fst]. discriminate.
    + unfold outcome, object, world, isConnected. cbn [fst snd]. intros He. injection He as <-.
      cbn [connected sessionId device emitted add_emitted set_device set_connected
           set_sessionId log].
      rewrite last_last, <- !app_assoc. repeat split.
  - unfold outcome, object, world, isConnected. cbn [fst snd]. intros He. injection He as <-.
    cbn [connected sessionId device emitted add_emitted set_device set_connected
         set_sessionId log].
    rewrite last_last, <- !app_assoc. repeat split.
Qed.

(** *** The requests of the client *)

Section Sends.
Context {X A : Type} (I : X -> Prop) (Q : request -> Prop).

Lemma sends_ret (a : A) : sends I Q (@ret X W A a).
Proof. intros x Hx w. split; [exact Hx|]. exists []. rewrite app_nil_r. auto. Qed.

Lemma sends_throw (e : error) : sends I Q (@throw X W A e).
Proof. intros x Hx w. split; [exact Hx|]. exists []. rewrite app_nil_r. auto. Qed.

Lemma sends_lift (r : result A) : sends I Q (@lift X W A r).
Proof. intros x Hx w. split; [exact Hx|]. exists []. rewrite app_nil_r. auto. Qed.

Lemma sends_fetch (sh : shape A) (r : request) : Q r -> sends I Q (@fetch X W A srv sh r).
Proof.
  intros Hr x Hx w. unfold fetch, object, world.
  destruct (srv A sh r (far w)) as [out f]. cbn [fst snd]. split; [exact Hx|].
  exists [r]. split; [reflexivity|]. constructor; [exact Hr|constructor].
Qed.

Lemma sends_answer (sh : shape A) (r : request) : sends I Q (@answer X W A srv sh r).
Proof.
  intros x Hx w. unfold answer, object, world.
  destruct (srv A sh r (far w)) as [out f]. cbn [fst snd]. split; [exact Hx|].
  exists []. rewrite app_nil_r. auto.
Qed.

Lemma sends_try_catch (m : M X W A) (h : error -> M X W A) :
  sends I Q m -> (forall e, sends I Q (h e)) -> sends I Q (try_catch m h).
Proof.
  intros Hm Hh x Hx w. specialize (Hm x Hx w). unfold try_catch, object, world in *.
  destruct (m x w) as [[[a|e] x1] w1]; cbn [fst snd] in *; [exact Hm|].
  destruct Hm as (Hx1 & rs & Hlog & Hrs).
  specialize (Hh e x1 Hx1 w1). unfold object, world in Hh.
  destruct (h e x1 w1) as [[r2 x2] w2]. cbn [fst snd] in *.
  destruct Hh as (Hx2 & rs2 & Hlog2 & Hrs2). split; [exact Hx2|].
  exists (rs ++ rs2)%list. split; [rewrite Hlog2, Hlog, app_assoc; reflexivity|].
  apply Forall_app. auto.
Qed.

Lemma sends_get_bind (k : X -> M X W A) :
  (forall x, I x -> sends_from I Q (k x) x) -> sends I Q (bind get k).
Proof. intros H x Hx w. exact (H x Hx w). Qed.

End Sends.

Lemma sends_bind {X A B : Type} (I : X -> Prop) (Q : request -> Prop)
  (m : M X W A) (k : A -> M X W B) :
  sends I Q m -> (forall a, sends I Q (k a)) -> sends I Q (bind m k).
Proof.
  intros Hm Hk x Hx w. specialize (Hm x Hx w). unfold bind, object, world in *.
  destruct (m x w) as [[[a|e] x1] w1]; cbn [fst snd] in *; [|exact Hm].
  destruct Hm as (Hx1 & rs & Hlog & Hrs).
  specialize (Hk a x1 Hx1 w1). unfold object, world in Hk.
  destruct (k a x1 w1) as [[r2 x2] w2]. cbn [fst snd] in *.
  destruct Hk as (Hx2 & rs2 & Hlog2 & Hrs2). split; [exact Hx2|].
  exists (rs ++ rs2)%list. split; [rewrite Hlog2, Hlog, app_assoc; reflexivity|].
  apply Forall_app. auto.
Qed.

Lemma sends_send {X : Type} (I : X -> Prop) (Q : request -> Prop) (r : request) :
  Q r -> sends I Q (@send X W r).
Proof.
  intros Hr x Hx w. unfold send, object, world. cbn [fst snd log]. split; [exact Hx|].
  exists [r]. split; [reflexivity|]. constructor; [exact Hr|constructor].
Qed.

Lemma sends_at {X A : Type} (I : X -> Prop) (Q : request -> Prop) (m : M X W A) (x : X) :
  sends I Q m -> I x -> sends_from I Q m x.
Proof. intros H Hx. exact (H x Hx). Qed.

Lemma sends_modify (c : Config) (f : t -> t) :
  (forall x, config (f x) = config x) ->
  sends (same_config c) (client_request c) (@modify W f).
Proof.
  intros Hf x Hx w. unfold modify, bind, get, put, object, world. cbn [fst snd].
  split; [unfold same_config in *; rewrite Hf; exact Hx|].
  exists []. rewrite app_nil_r. auto.
Qed.

Lemma sends_call (c : Config) (type : Z) (params : list (string * jsval)) :
  sends (same_config c) (client_request c) (call srv type params).
Proof.
  intros x Hx w. unfold object, world.
  rewrite ClientFacts.call_object. split; [exact Hx|].
  destruct (ClientFacts.call_log srv type params x w) as [H|(req & Hreq & H)].
  - exists []. rewrite app_nil_r. auto.
  - exists [req]. split; [exact H|]. constructor; [|constructor].
    unfold callRequestOf in Hreq. unfold same_config in Hx. rewrite Hx in Hreq.
    destruct (switch (connectionType c)) eqn:Hs; try discriminate Hreq;
      injection Hreq as <-.
    + apply DesktopCall, Hs.
    + apply BridgeCall, Hs.
Qed.

Ltac sstep c :=
  first
    [ apply sends_call
    | apply sends_lift
    | apply sends_ret
    | apply sends_throw
    | apply sends_modify; reflexivity
    | apply sends_bind; [|intro]
    | apply sends_try_catch; [|intro]
    | match goal with |- sends _ _ (if ?b then _ else _) => destruct b end
    | match goal with |- sends _ _ (match ?x with _ => _ end) => destruct x end ].

Ltac ssteps c := repeat (sstep c).

Lemma sends_initializeDevice (c : Config) :
  sends (same_config c) (client_request c) (initializeDevice srv).
Proof.
  unfold initializeDevice, getFeatures, emit.
  apply sends_bind; [ssteps c|intro features].
  apply sends_get_bind. intros x Hx. apply sends_at; [|exact Hx].
  destruct (device x); ssteps c.
Qed.

Lemma sends_connect (c : Config) :
  sends (same_config c) (client_request c) (connect srv).
Proof.
  unfold connect, emit.
  apply sends_try_catch; [|intro; ssteps c].
  apply sends_get_bind. intros x Hx. apply sends_at; [|exact Hx].
  destruct (switch (connectionType (config x))) eqn:Hs.
  - apply sends_bind; [|intro; ssteps c]. unfold connectUsbHid.
    apply sends_get_bind. intros y Hy. apply sends_at; [|exact Hy].
    apply sends_bind; [ssteps c|intro]. apply sends_bind; [ssteps c|intro].
    apply sends_initializeDevice.
  - apply sends_bind; [|intro; ssteps c]. unfold connectWebUsb.
    apply sends_get_bind. intros y Hy. apply sends_at; [|exact Hy].
    apply sends_bind; [ssteps c|intro]. apply sends_bind; [ssteps c|intro].
    apply sends_initializeDevice.
  - unfold connectDesktop, emit.
    apply sends_get_bind. intros y Hy. apply sends_at; [|exact Hy].
    unfold same_config in Hx, Hy. rewrite Hy. rewrite Hx in Hs.
    apply sends_bind; [apply sends_fetch; apply DesktopDevices, Hs|intro].
    ssteps c.
  - apply sends_bind; [|intro; ssteps c]. unfold connectBridge.
    apply sends_get_bind. intros y Hy. apply sends_at; [|exact Hy].
    unfold same_config in Hx, Hy. rewrite Hy. rewrite Hx in Hs.
    apply sends_bind; [apply sends_fetch; apply BridgeEnumerate, Hs|intro].
    apply sends_bind; [ssteps c|intros [|deviceInfo rest]]; [ssteps c|].
    apply sends_bind; [apply sends_fetch; apply BridgeAcquire, Hs|intro].
    apply sends_bind; [ssteps c|intro]. apply sends_bind; [ssteps c|intro].
    apply sends_bind; [ssteps c|intro]. apply sends_bind; [ssteps c|intro].
    apply sends_initializeDevice.
  - ssteps c.
Qed.

Lemma sends_disconnect (c : Config) :
  sends (same_config c) (client_request c) (disconnect srv).
Proof.
  unfold disconnect, clearSession, emit.
  apply sends_get_bind. intros x Hx. apply sends_at; [|exact Hx].
  ssteps c.
Qed.

Lemma sends_run_client (c : Config) (o : client_op) :
  sends (same_config c) (client_request c) (run_client srv o).
Proof.
  destruct o; cbn [run_client]; unfold forget.
  - apply sends_bind; [apply sends_connect|intro; ssteps c].
  - apply sends_disconnect.
  - unfold getFeatures. ssteps c.
  - unfold ping. ssteps c.
  - unfold cancel. ssteps c.
  - unfold clearSession. ssteps c.
  - unfold applySettings, callWithButtonAck, sendButtonAck, emit. ssteps c.
  - unfold wipeDevice, callWithButtonAck, sendButtonAck, emit. ssteps c.
  - unfold resetDevice, callWithButtonAck, sendButtonAck, emit. ssteps c.
  - unfold recoverDevice, callWithRecovery, emit. ssteps c.
  - unfold changePin, callWithPinMatrix, emit. ssteps c.
  - unfold sendPin. ssteps c.
  - unfold sendPassphrase. ssteps c.
  - unfold sendWord. ssteps c.
  - unfold sendButtonAck. ssteps c.
  - ssteps c.
Qed.

Lemma sends_run_clients (c : Config) (ops : list client_op) :
  forall (x : t) (w : io W),
    config x = c ->
    config (fst (run_clients srv ops x w)) = c /\
    exists rs : list request,
      log (snd (run_clients srv ops x w)) = (log w ++ rs)%list /\
      Forall (client_request c) rs.
Proof.
  induction ops as [|o ops IH]; intros x w Hx.
  - split; [exact Hx|]. exists []. rewrite app_nil_r. auto.
  - cbn [run_clients].
    destruct (sends_run_client c o x Hx w) as (Hx1 & rs1 & Hlog1 & Hrs1).
    unfold object, world in *.
    destruct (run_client srv o x w) as [[r x1] w1]. cbn [fst snd] in *.
    destruct (IH x1 w1 Hx1) as (Hx2 & rs2 & Hlog2 & Hrs2).
    split; [exact Hx2|]. exists (rs1 ++ rs2)%list.
    split; [rewrite Hlog2, Hlog1, app_assoc; reflexivity|apply Forall_app; auto].
Qed.

Lemma append_inj_l (a x y : string) : a ++ x = a ++ y -> x = y.
Proof.
  induction a as [|ch a IH]; cbn [append]; intros H; [exact H|].
  injection H as H. apply IH, H.
Qed.

Lemma client_request_not_release (c : Config) (r : request) (session : string) :
  client_request c r -> r <> releaseRequest (bridgeBase c) session.
Proof.
  intros Hr E. destruct Hr; unfold releaseRequest, desktopCallRequest, bridgeCallRequest in E;
    try discriminate E.
  injection E as E. apply append_inj_l in E. discriminate E.
Qed.

(** X13: whatever operations are called on a client, its configuration stays
    as the constructor left it, and every request it issues is one of five: for
    a client of the Desktop type the list of the devices and a call on the
    Desktop URL, for a client of the Bridge type the enumeration, an
    acquisition and a call on the Bridge URL.  None of them releases a session
    on the Bridge: the client never gives back the session it acquires. *)
Theorem client_requests (config0 : TransportConfig.t) (ops : list client_op) (w : io W) :
  let c := config (new config0) in
  let after := run_clients srv ops (new config0) w in
  config (fst after) = c /\
  exists rs : list request,
    log (snd after) = (log w ++ rs)%list /\
    Forall (client_request c) rs /\
    forall session : string, ~ In (releaseRequest (bridgeBase c) session) rs.
Proof.
  cbv zeta.
  destruct (sends_run_clients (config (new config0)) ops (new config0) w eq_refl)
    as (Hc & rs & Hlog & Hrs).
  split; [exact Hc|]. exists rs. split; [exact Hlog|]. split; [exact Hrs|].
  intros session Hin. rewrite Forall_forall in Hrs.
  exact (client_request_not_release _ _ session (Hrs _ Hin) eq_refl).
Qed.

(** X14: [clearSession] on a connected client of the Bridge type leaves it
    connected and without session token: the calls that follow are posted to
    [/call/null]. *)
Theorem clearSession_then_call (self : t) (w : io W) (type : Z)
  (params : list (string * jsval)) :
  switch (connectionType (config self)) = CaseBridge ->
  outcome (clearSession srv self w) = Ok tt ->
  let cleared := object (clearSession srv self w) in
  let w1 := world (clearSession srv self w) in
  connected cleared = true /\ sessionId cleared = Null /\
  exists req : request,
    req_url req = bridgeBase (config self) ++ "/call/null" /\
    log (world (call srv type params cleared w1)) = (log w1 ++ [req])%list.
Proof.
  intros Hs Hok. cbv zeta. rewrite ClientFacts.clearSession_spec in *.
  destruct (call srv MESSAGE_TYPES.ClearSession [] self w) as [[[r|e] s1] w1] eqn:Hcall;
    [|discriminate Hok].
  destruct (ClientFacts.call_ok srv _ _ _ _ _ _ _ Hcall) as (Hc & -> & _).
  unfold object, world. cbn [fst snd].
  split; [exact Hc|]. split; [reflexivity|].
  exists (bridgeCallRequest (bridgeBase (config self)) Null type params).
  split; [reflexivity|].
  rewrite (ClientFacts.call_fetch srv type params (set_sessionId Null self) w1
             (bridgeCallRequest (bridgeBase (config self)) Null type params)).
  - reflexivity.
  - exact Hc.
  - unfold callRequestOf. cbn [config set_sessionId sessionId]. rewrite Hs. reflexivity.
Qed.

(** X15: [callWithButtonAck], which [applySettings], [wipeDevice] and
    [resetDevice] go through, acknowledges one button request and no more.
    When [call] refuses (a client that is not connected, or of a type that
    does not reach [fetch]) it throws the error of [call] and issues no
    request.  Otherwise it
    issues the request of the call: when this is rejected or its answer cannot
    be read it throws, and when the answer is not a [ButtonRequest] it returns
    the answer; the client is as before.  When the answer is a
    [ButtonRequest] it emits [device:buttonRequest] with the message of the
    answer, issues one [ButtonAck] and returns or throws what the call of the
    acknowledgement does, a further [ButtonRequest] included. *)
Theorem button_ack_once (type : Z) (params : list (string * jsval)) (self : t) (w : io W) :
  match connected self, callRequestOf self type params,
        callRequestOf self MESSAGE_TYPES.ButtonAck [] with
  | true, Some req, Some ack =>
      let far1 := snd (srv _ AsMessage req (far w)) in
      match answered (fst (srv _ AsMessage req (far w))) with
      | Throw e =>
          callWithButtonAck srv type params self w
          = (Throw e, self, mkIo far1 (log w ++ [req])%list)
      | Ok reply =>
          if MessageResponse.type reply =? MESSAGE_TYPES.ButtonRequest then
            callWithButtonAck srv type params self w
            = (answered (fst (srv _ AsMessage ack far1)),
               add_emitted (mkEvent DEVICE_EVENTS.BUTTON_REQUEST
                                    (MessageArg (MessageResponse.message reply))) self,
               mkIo (snd (srv _ AsMessage ack far1)) (log w ++ [req; ack])%list)
          else
            callWithButtonAck srv type params self w
            = (Ok reply, self, mkIo far1 (log w ++ [req])%list)
      end
  | true, _, _ =>
      callWithButtonAck srv type params self w
      = (Throw match transportError (switch (connectionType (config self))) with
               | Some e => e
               | None => Error ("Unsupported connection type: " ++ connectionType (config self))
               end,
         self, w)
  | false, _, _ =>
      callWithButtonAck srv type params self w = (Throw (Error "Device not connected"), self, w)
  end.
Proof.
  destruct (connected self) eqn:Hc.
  2:{ unfold callWithButtonAck, call. run. rewrite Hc. reflexivity. }
  assert (Hnone : callRequestOf self type params = None ->
                  callWithButtonAck srv type params self w
                  = (Throw match transportError (switch (connectionType (config self))) with
                           | Some e => e
                           | None => Error ("Unsupported connection type: "
                                            ++ connectionType (config self))
                           end,
                     self, w)).
  { intros H. unfold callWithButtonAck, call, callUsbHid, callWebUsb, callRequestOf in *. run.
    rewrite Hc. cbn [negb].
    destruct (switch (connectionType (config self))); try discriminate H; reflexivity. }
  destruct (callRequestOf self type params) as [req|] eqn:Hreq; [|apply Hnone; reflexivity].
  destruct (callRequestOf self MESSAGE_TYPES.ButtonAck []) as [ack|] eqn:Hack.
  2:{ unfold callRequestOf in *. destruct (switch (connectionType (config self)));
        discriminate. }
  cbv zeta.
  unfold callWithButtonAck, sendButtonAck, emit, modify. run.
  rewrite (ClientFacts.call_fetch srv type params self w req Hc Hreq).
  destruct (answered (fst (srv _ AsMessage req (far w)))) as [reply|e]; [|reflexivity].
  destruct (MessageResponse.type reply =? MESSAGE_TYPES.ButtonRequest); [|reflexivity].
  match goal with |- context [call srv ?ty ?ps ?s ?x] =>
    rewrite (ClientFacts.call_fetch srv ty ps s x ack Hc Hack)
  end.
  cbn [fst snd log far]. rewrite <- app_assoc. reflexivity.
Qed.

End WithServer.

Lemma clearSession_then_call_witness :
  let cleared := object (clearSession Simulation.daemon Simulation.bridgeConnected
                                      Simulation.bridgeWorld) in
  let w1 := world (clearSession Simulation.daemon Simulation.bridgeConnected
                                Simulation.bridgeWorld) in
  connected cleared = true /\ sessionId cleared = Null /\
  exists req : request,
    req_url req = "http://localhost:1646/call/null" /\
    log (world (call Simulation.daemon MESSAGE_TYPES.Ping [] cleared w1))
    = (log w1 ++ [req])%list.
Proof.
  exact (clearSession_then_call Simulation.daemon Simulation.bridgeConnected
           Simulation.bridgeWorld MESSAGE_TYPES.Ping [] eq_refl eq_refl).
Defined.

Lemma desktop_connect_outcome_witness :
  connect Simulation.daemon Simulation.desktopClient (Simulation.start "id")
  = (Ok (Some (KeepKeyDevice.mk "desktop-0" KEEPKEY_VENDOR_ID KEEPKEY_PRODUCT_ID
                                (JStr "KeepKey") JUndefined)),
     mk (config Simulation.desktopClient)
        (Some (KeepKeyDevice.mk "desktop-0" KEEPKEY_VENDOR_ID KEEPKEY_PRODUCT_ID
                                (JStr "KeepKey") JUndefined))
        true Null
        [mkEvent DEVICE_EVENTS.CONNECTED
                 (DeviceArg (KeepKeyDevice.mk "desktop-0" KEEPKEY_VENDOR_ID KEEPKEY_PRODUCT_ID
                                              (JStr "KeepKey") JUndefined))],
     mkIo (far (Simulation.start "id"))
          [mkRequest GET "http://localhost:1646/devices" [] None])
  /\
  connect Simulation.hollowDaemon Simulation.desktopClient (Simulation.start "id")
  = (Ok None,
     mk (config Simulation.desktopClient) None true Null
        [mkEvent DEVICE_EVENTS.CONNECTED (MessageArg JNull)],
     mkIo (far (Simulation.start "id"))
          [mkRequest GET "http://localhost:1646/devices" [] None]).
Proof.
  split.
  - exact (desktop_connect_outcome Simulation.daemon Simulation.desktopClient
             (Simulation.start "id") eq_refl).
  - exact (desktop_connect_outcome Simulation.hollowDaemon Simulation.desktopClient
             (Simulation.start "id") eq_refl).
Defined.

(** The daemon with a device that answers the initialization with no
    features: [connect] throws on their label, and the client stays
    connected. *)
Lemma bridge_connect_failed_initialization_witness :
  let w := mkIo (Simulation.mkState Null "s1" JNull false) [] in
  outcome (connect Simulation.daemon Simulation.bridgeClient w)
  = Throw (TypeError "Cannot read properties of null (reading 'label')") /\
  isConnected (object (connect Simulation.daemon Simulation.bridgeClient w)) = true /\
  sessionId (object (connect Simulation.daemon Simulation.bridgeClient w)) = Str "s1".
Proof.
  cbv zeta.
  pose proof (bridge_connect_failed_initialization Simulation.daemon Simulation.bridgeClient
                (mkIo (Simulation.mkState Null "s1" JNull false) [])
                _ _ (BridgeDevice.mk "/dev/hid0" Null) [] _ _ "s1"
                (TypeError "Cannot read properties of null (reading 'label')")
                eq_refl eq_refl eq_refl eq_refl eq_refl eq_refl) as H.
  cbv zeta in H. destruct H as (_ & H2 & H3 & _).
  split; [reflexivity|]. split; [exact H2|exact H3].
Defined.

Lemma transport_client_stuck_witness :
  connect Simulation.daemon Simulation.usbClient (Simulation.start "id")
  = (Throw (Error "USB HID transport requires native module"),
     Simulation.usbConnected, Simulation.start "id") /\
  isConnected
    (fst (run_clients Simulation.daemon [Disconnect; GetFeatures; Disconnect]
                      Simulation.usbConnected (Simulation.start "id"))) = true.
Proof.
  pose proof (transport_client_stuck Simulation.daemon Simulation.usbClient
                (Simulation.start "id")
                (Error "USB HID transport requires native module")
                [Disconnect; GetFeatures; Disconnect] eq_refl) as H.
  cbv zeta in H. destruct H as (H1 & _ & H2 & _).
  split; [exact H1|exact H2].
Defined.

End ClientLifecycleFacts.

(** ** The fields of the configuration that the client never reads *)

Module ClientConfigFacts.
Import Js Constants Http KeepKeyClient Operations Traffic.

Section WithServer.
Context {W : Type} (srv : server W).

Section Alike.
Context {X : Type} (f : X -> X) (I : X -> Prop).

Lemma alike_ret {A : Type} (a : A) : alike f I (@ret X W A a) (ret a).
Proof. intros x Hx w. split; [reflexivity|exact Hx]. Qed.

Lemma alike_throw {A : Type} (e : error) : alike f I (@throw X W A e) (throw e).
Proof. intros x Hx w. split; [reflexivity|exact Hx]. Qed.

Lemma alike_lift {A : Type} (r : result A) : alike f I (@lift X W A r) (lift r).
Proof. intros x Hx w. split; [reflexivity|exact Hx]. Qed.

Lemma alike_fetch {A : Type} (sh : shape A) (r : request) :
  alike f I (@fetch X W A srv sh r) (fetch srv sh r).
Proof.
  intros x Hx w. unfold fetch, object.
  destruct (srv A sh r (far w)) as [out f']. split; [reflexivity|exact Hx].
Qed.

Lemma alike_bind {A B : Type} (m1 m2 : M X W A) (k1 k2 : A -> M X W B) :
  alike f I m1 m2 -> (forall a, alike f I (k1 a) (k2 a)) ->
  alike f I (bind m1 k1) (bind m2 k2).
Proof.
  intros Hm Hk x Hx w. destruct (Hm x Hx w) as [E Hx1]. unfold bind, object in *.
  rewrite E. destruct (m2 x w) as [[[a|e] x1] w1]; cbn [on_object fst snd] in *.
  - apply (Hk a x1 Hx1 w1).
  - split; [reflexivity|exact Hx1].
Qed.

Lemma alike_try_catch {A : Type} (m1 m2 : M X W A) (h1 h2 : error -> M X W A) :
  alike f I m1 m2 -> (forall e, alike f I (h1 e) (h2 e)) ->
  alike f I (try_catch m1 h1) (try_catch m2 h2).
Proof.
  intros Hm Hh x Hx w. destruct (Hm x Hx w) as [E Hx1]. unfold try_catch, object in *.
  rewrite E. destruct (m2 x w) as [[[a|e] x1] w1]; cbn [on_object fst snd] in *.
  - split; [reflexivity|exact Hx1].
  - apply (Hh e x1 Hx1 w1).
Qed.

Lemma alike_get_bind {A : Type} (k1 k2 : X -> M X W A) :
  (forall x, I x -> alike_at f I (k1 (f x)) (k2 x) x) ->
  alike f I (bind get k1) (bind get k2).
Proof. intros H x Hx w. exact (H x Hx w). Qed.

Lemma alike_here {A : Type} (m1 m2 : M X W A) (x : X) :
  alike f I m1 m2 -> I x -> alike_at f I m1 m2 x.
Proof. intros H Hx. exact (H x Hx). Qed.

End Alike.

Section Client.
Variables (path : option string) (tm : Z).

Lemma alike_modify (g : t -> t) :
  (forall x, g (reconfigured path tm x) = reconfigured path tm (g x)) ->
  (forall x, config (g x) = config x) ->
  alike (reconfigured path tm) not_usb_hid (@modify W g) (modify g).
Proof.
  intros Hg Hc x Hx w. unfold modify, bind, get, put, object. cbn [on_object fst snd].
  rewrite Hg. split; [reflexivity|]. unfold not_usb_hid in *. rewrite Hc. exact Hx.
Qed.

Lemma alike_call (type : Z) (params : list (string * jsval)) :
  alike (reconfigured path tm) not_usb_hid (call srv type params) (call srv type params).
Proof.
  intros x Hx w. unfold call, callUsbHid, callWebUsb, callDesktop, callBridge, object.
  unfold bind, get, throw, fetch, lift. cbn [reconfigured config connected connectionType
    desktopUrl bridgeUrl apiKey sessionId].
  destruct (connected x); cbn [negb on_object fst snd]; [|split; [reflexivity|exact Hx]].
  destruct (switch (connectionType (config x)));
    try (split; [reflexivity|exact Hx]).
  - destruct (srv _ AsMessage _ (far w)) as [[resp|e] f']; cbn [on_object fst snd];
      (split; [reflexivity|exact Hx]).
  - destruct (srv _ AsMessage _ (far w)) as [[resp|e] f']; cbn [on_object fst snd];
      (split; [reflexivity|exact Hx]).
Qed.

Ltac astep :=
  first
    [ apply alike_call
    | apply alike_lift
    | apply alike_ret
    | apply alike_throw
    | apply alike_fetch
    | apply alike_modify; [intros; reflexivity|intros; reflexivity]
    | apply alike_bind; [|intro]
    | apply alike_try_catch; [|intro]
    | match goal with |- alike _ _ (if ?b then _ else _) _ => destruct b end
    | match goal with |- alike _ _ (match ?x with _ => _ end) _ => destruct x end ].

Ltac asteps := repeat astep.

Ltac with_self x Hx :=
  apply alike_get_bind; intros x Hx;
  cbn [reconfigured config connected connectionType device sessionId
       desktopUrl bridgeUrl apiKey vendorId productId];
  apply alike_here; [|exact Hx].

Lemma alike_initializeDevice :
  alike (reconfigured path tm) not_usb_hid (initializeDevice srv) (initializeDevice srv).
Proof.
  unfold initializeDevice, getFeatures, emit.
  apply alike_bind; [asteps|intro features].
  with_self x Hx. destruct (device x); asteps.
Qed.

Lemma alike_connect : alike (reconfigured path tm) not_usb_hid (connect srv) (connect srv).
Proof.
  unfold connect, emit.
  apply alike_try_catch; [|intro; asteps].
  apply alike_get_bind. intros x Hx.
  cbn [reconfigured config connectionType].
  destruct (switch (connectionType (config x))) eqn:Hs; apply alike_here; try exact Hx.
  - exfalso. exact (Hx Hs).
  - apply alike_bind; [|intro; asteps]. unfold connectWebUsb. with_self y Hy.
    apply alike_bind; [asteps|intro]. apply alike_bind; [asteps|intro].
    apply alike_initializeDevice.
  - unfold connectDesktop, emit. with_self y Hy. asteps.
  - apply alike_bind; [|intro; asteps]. unfold connectBridge. with_self y Hy.
    apply alike_bind; [asteps|intro].
    apply alike_bind; [asteps|intros [|deviceInfo rest]]; [asteps|].
    apply alike_bind; [asteps|intro]. apply alike_bind; [asteps|intro].
    apply alike_bind; [asteps|intro]. apply alike_bind; [asteps|intro].
    apply alike_bind; [asteps|intro].
    apply alike_initializeDevice.
  - asteps.
Qed.

Ltac astep' :=
  first
    [ match goal with
      | |- alike _ _ (bind get _) _ =>
          let x := fresh "x" in
          let Hx := fresh "Hx" in
          apply alike_get_bind; intros x Hx;
          cbn [reconfigured config connected connectionType device sessionId
               desktopUrl bridgeUrl apiKey vendorId productId];
          apply alike_here; [|exact Hx]
      end
    | astep ].

Lemma alike_run_client (o : client_op) :
  alike (reconfigured path tm) not_usb_hid (run_client srv o) (run_client srv o).
Proof.
  destruct o; cbn [run_client]; unfold forget.
  - apply alike_bind; [apply alike_connect|intro; asteps].
  - unfold disconnect, clearSession, emit. repeat astep'.
  - unfold getFeatures. repeat astep'.
  - unfold ping. repeat astep'.
  - unfold cancel. repeat astep'.
  - unfold clearSession. repeat astep'.
  - unfold applySettings, callWithButtonAck, sendButtonAck, emit. repeat astep'.
  - unfold wipeDevice, callWithButtonAck, sendButtonAck, emit. repeat astep'.
  - unfold resetDevice, callWithButtonAck, sendButtonAck, emit. repeat astep'.
  - unfold recoverDevice, callWithRecovery, emit. repeat astep'.
  - unfold changePin, callWithPinMatrix, emit. repeat astep'.
  - unfold sendPin. repeat astep'.
  - unfold sendPassphrase. repeat astep'.
  - unfold sendWord. repeat astep'.
  - unfold sendButtonAck. repeat astep'.
  - repeat astep'.
Qed.

Lemma alike_run_clients (ops : list client_op) :
  forall (x : t) (w : io W),
    not_usb_hid x ->
    run_clients srv ops (reconfigured path tm x) w
    = (reconfigured path tm (fst (run_clients srv ops x w)), snd (run_clients srv ops x w)) /\
    not_usb_hid (fst (run_clients srv ops x w)).
Proof.
  induction ops as [|o ops IH]; intros x w Hx.
  - split; [reflexivity|exact Hx].
  - cbn [run_clients]. destruct (alike_run_client o x Hx w) as [E Hx1].
    rewrite E. unfold object in Hx1.
    destruct (run_client srv o x w) as [[r x1] w1]. cbn [on_object fst snd] in *.
    exact (IH x1 w1 Hx1).
Qed.

End Client.

(** X16: a client that is not of the USB HID type never looks at the device
    path and the timeout of its configuration: two clients made from
    configurations that differ in these two fields only send the same
    requests through every sequence of operations, hold the same device,
    connection flag, session and events after it, and return or throw the
    same on a further operation. *)
Theorem devicePath_timeout_unused (c : TransportConfig.t) (path : option string)
  (tm : option Z) (ops : list client_op) (o : client_op) (w : io W) :
  String.eqb (TransportConfig.connectionType c) CONNECTION_TYPES.USB_HID = false ->
  let c' := TransportConfig.mk (TransportConfig.connectionType c) path
              (TransportConfig.vendorId c) (TransportConfig.productId c)
              (TransportConfig.bridgeUrl c) (TransportConfig.desktopUrl c)
              (TransportConfig.apiKey c) tm in
  let after := run_clients srv ops (new c) w in
  let after' := run_clients srv ops (new c') w in
  snd after' = snd after /\
  device (fst after') = device (fst after) /\
  connected (fst after') = connected (fst after) /\
  sessionId (fst after') = sessionId (fst after) /\
  emitted (fst after') = emitted (fst after) /\
  outcome (run_client srv o (fst after') (snd after'))
  = outcome (run_client srv o (fst after) (snd after)) /\
  world (run_client srv o (fst after') (snd after'))
  = world (run_client srv o (fst after) (snd after)).
Proof.
  intros Hty c' after after'.
  assert (Hx : not_usb_hid (new c)).
  { unfold not_usb_hid, switch. cbn [new config connectionType]. rewrite Hty.
    repeat match goal with |- context [if ?b then _ else _] => destruct b end; discriminate. }
  assert (Hnew : new c' = reconfigured path
                   (or_default falsy_num tm TIMEOUT_OPERATION) (new c)) by reflexivity.
  destruct (alike_run_clients path (or_default falsy_num tm TIMEOUT_OPERATION) ops (new c) w Hx)
    as [E Hx1].
  unfold after', after. rewrite Hnew, E. cbn [fst snd].
  destruct (alike_run_client path (or_default falsy_num tm TIMEOUT_OPERATION) o _ Hx1
              (snd (run_clients srv ops (new c) w))) as [E1 _].
  unfold outcome, world. rewrite E1.
  match goal with |- context [run_client srv o ?a ?b] =>
    destruct (run_client srv o a b) as [[r x1] w1]
  end.
  cbn [on_object fst snd reconfigured
    device connected sessionId emitted].
  repeat split.
Qed.

End WithServer.

Lemma devicePath_timeout_unused_witness :
  let c := TransportConfig.mk "keepkeyBridge" None None None None None None None in
  let c' := TransportConfig.mk "keepkeyBridge" (Some "/dev/hidraw3") None None None None None
              (Some 5) in
  let after := run_clients Simulation.daemon [Connect; Ping "x"] (new c)
                 (Simulation.start "id") in
  let after' := run_clients Simulation.daemon [Connect; Ping "x"] (new c')
                  (Simulation.start "id") in
  snd after' = snd after /\
  device (fst after') = device (fst after) /\
  connected (fst after') = connected (fst after) /\
  sessionId (fst after') = sessionId (fst after) /\
  emitted (fst after') = emitted (fst after) /\
  outcome (run_client Simulation.daemon Disconnect (fst after') (snd after'))
  = outcome (run_client Simulation.daemon Disconnect (fst after) (snd after)) /\
  world (run_client Simulation.daemon Disconnect (fst after') (snd after'))
  = world (run_client Simulation.daemon Disconnect (fst after) (snd after)).
Proof.
  exact (devicePath_timeout_unused Simulation.daemon
           (TransportConfig.mk "keepkeyBridge" None None None None None None None)
           (Some "/dev/hidraw3") (Some 5) [Connect; Ping "x"] Disconnect
           (Simulation.start "id") eq_refl).
Defined.

End ClientConfigFacts.

(** ** The Bridge transport *)

Module BridgeFacts.
Import Js Constants Http BridgeTransport Operations.

Ltac run := unfold bind, try_catch, get, put, ret, throw, lift, fetch.

Section WithServer.
Context {W : Type} (srv : server W).

(** [call] posts under the token the transport holds and leaves the
    transport as it is. *)
Lemma call_held_session (messageType : Z) (message : jsval) (self : t) (w : io W)
  (s : string) :
  session self = Str s ->
  falsy_string s = false ->
  call srv messageType message self w =
  (callOutcome (fst (srv _ AsMessage (callRequest (config_url self) s messageType message) (far w))),
   self,
   mkIo (snd (srv _ AsMessage (callRequest (config_url self) s messageType message) (far w)))
        (log w ++ [callRequest (config_url self) s messageType message])%list).
Proof.
  intros Hs Hf. unfold call. run. rewrite Hs. cbn [falsy_nullable show_nullable].
  rewrite Hf.
  destruct (srv _ AsMessage _ (far w)) as [[resp|e] f']; cbn [fst snd callOutcome];
    [|reflexivity].
  destruct (ok resp); reflexivity.
Qed.

(** [refreshSession] when the daemon lists the held path under another
    token and grants a new one. *)
Lemma refreshSession_rotated (self : t) (w : io W) (dev : BridgeDevice.t)
  (r1 : response (list BridgeDevice.t)) (f1 : W) (devices : list BridgeDevice.t)
  (currentDevice : BridgeDevice.t)
  (r2 : response nullable) (f2 : W) (s' : string) :
  device self = Some dev ->
  srv _ AsBridgeDevices (enumerateRequest self) (far w) = (Ok r1, f1) ->
  json r1 = Ok devices ->
  find (fun d => String.eqb (BridgeDevice.path d) (BridgeDevice.path dev)) devices
  = Some currentDevice ->
  session_differs (BridgeDevice.session currentDevice) (session self) = true ->
  srv _ AsSession
      (acquireRequest self (BridgeDevice.path currentDevice) (BridgeDevice.session currentDevice))
      f1 = (Ok r2, f2) ->
  ok r2 = true ->
  json r2 = Ok (Str s') ->
  refreshSession srv self w =
  (Ok (Str s'),
   set_device (Some (BridgeDevice.mk (BridgeDevice.path dev) (Str s')))
              (set_session (Str s') self),
   mkIo f2 (log w ++ [enumerateRequest self;
                      acquireRequest self (BridgeDevice.path currentDevice)
                                     (BridgeDevice.session currentDevice)])%list).
Proof.
  intros Hd H1 J1 Hfind Hdiff H2 Hok J2.
  unfold refreshSession, enumerate, acquire, modify. run.
  rewrite Hd, H1, J1, Hfind, Hdiff. cbn [far log].
  rewrite H2, Hok, J2. cbn [negb device set_session].
  rewrite Hd. cbn [session set_device]. rewrite <- app_assoc. reflexivity.
Qed.

(** C3 (as amended): [call] posts the request under the session token the
    transport holds, with no enumeration and no acquisition before it, and
    leaves the token as it is, whatever the daemon reports for the held path.
    The staleness is met by [refreshSession], which the caller has to invoke:
    when the enumeration lists the held path under a token that differs from
    the held one and the daemon grants a new token, [refreshSession] stores the
    new token, and the [call] that follows is posted under it. *)
Theorem call_keeps_session_refresh_renews (messageType : Z) (message : jsval)
  (self : t) (w : io W) :
  (forall s : string,
      session self = Str s -> falsy_string s = false ->
      object (call srv messageType message self w) = self /\
      log (world (call srv messageType message self w))
      = (log w ++ [callRequest (config_url self) s messageType message])%list) /\
  (forall (dev : BridgeDevice.t)
          (r1 : response (list BridgeDevice.t)) (f1 : W) (devices : list BridgeDevice.t)
          (currentDevice : BridgeDevice.t)
          (r2 : response nullable) (f2 : W) (s' : string),
      device self = Some dev ->
      srv _ AsBridgeDevices (enumerateRequest self) (far w) = (Ok r1, f1) ->
      json r1 = Ok devices ->
      find (fun d => String.eqb (BridgeDevice.path d) (BridgeDevice.path dev)) devices
      = Some currentDevice ->
      session_differs (BridgeDevice.session currentDevice) (session self) = true ->
      srv _ AsSession
          (acquireRequest self (BridgeDevice.path currentDevice)
                          (BridgeDevice.session currentDevice))
          f1 = (Ok r2, f2) ->
      ok r2 = true ->
      json r2 = Ok (Str s') ->
      falsy_string s' = false ->
      let refreshed := refreshSession srv self w in
      let called := call srv messageType message (object refreshed) (world refreshed) in
      outcome refreshed = Ok (Str s') /\
      session (object refreshed) = Str s' /\
      session (object called) = Str s' /\
      log (world called)
      = (log w ++ [enumerateRequest self;
                   acquireRequest self (BridgeDevice.path currentDevice)
                                  (BridgeDevice.session currentDevice);
                   callRequest (config_url self) s' messageType message])%list /\
      outcome called
      = callOutcome (fst (srv _ AsMessage
                              (callRequest (config_url self) s' messageType message) f2))).
Proof.
  split.
  - intros s Hs Hf. rewrite (call_held_session _ _ _ _ s Hs Hf). split; reflexivity.
  - intros dev r1 f1 devices currentDevice r2 f2 s' Hd H1 J1 Hfind Hdiff H2 Hok J2 Hf.
    cbv zeta.
    rewrite (refreshSession_rotated self w dev r1 f1 devices currentDevice r2 f2 s');
      try assumption.
    unfold object, world, outcome. cbn [fst snd].
    rewrite (call_held_session _ _ _ _ s') by (reflexivity || assumption).
    cbn [fst snd log far config_url set_device set_session session].
    rewrite <- app_assoc. repeat split; reflexivity.
Qed.

(** *** The invariant of the transport *)

Lemma bridge_triple_modify (P Qn Qe : t -> Prop) (f : t -> t) :
  (forall x, P x -> Qn (f x)) -> triple P (@modify W f) Qn Qe.
Proof. intros H x w Hp. apply H, Hp. Qed.

(** [self <- get ;; k self]: the continuation runs on the object it was
    handed. *)
Lemma bridge_triple_get_bind {A : Type} (P Qn Qe : t -> Prop) (k : t -> M t W A) :
  (forall a, triple (fun x => P x /\ x = a) (k a) Qn Qe) -> triple P (bind get k) Qn Qe.
Proof. intros H x w Hp. unfold bind, get. apply (H x x w). split; [exact Hp|reflexivity]. Qed.

(** The invariant looks at the session, the device and the connected flag
    only. *)
Lemma bridge_inv_same (x y : t) :
  session y = session x -> device y = device x -> connected y = connected x ->
  bridge_inv x -> bridge_inv y.
Proof.
  intros Hs Hd Hc H Hy. rewrite Hc in Hy. destruct (H Hy) as (d & H2 & H3).
  exists d. rewrite Hs, Hd. auto.
Qed.

Ltac keep := intros ? ?; eapply bridge_inv_same; [| | |eassumption]; reflexivity.

Ltac bstep :=
  first
    [ apply Hoare.triple_get
    | apply Hoare.triple_lift
    | apply Hoare.triple_fetch
    | apply Hoare.triple_send
    | apply Hoare.triple_ret; solve [auto]
    | apply Hoare.triple_throw; solve [auto]
    | apply bridge_triple_modify; solve [keep]
    | eapply (Hoare.triple_bind bridge_inv bridge_inv); [|intro]
    | eapply (Hoare.triple_try_catch bridge_inv bridge_inv); [|intro]
    | match goal with |- triple _ (if ?b then _ else _) _ _ => destruct b end
    | match goal with |- triple _ (match ?x with _ => _ end) _ _ => destruct x end ].

Ltac bsteps := repeat bstep.

Lemma triple_enumerate : triple bridge_inv (enumerate srv) bridge_inv bridge_inv.
Proof. unfold enumerate. bsteps. Qed.

Lemma triple_acquire (p : string) (s : nullable) :
  triple bridge_inv (acquire srv p s) bridge_inv bridge_inv.
Proof. unfold acquire. bsteps. Qed.

Lemma triple_release (s : string) : triple bridge_inv (release srv s) bridge_inv bridge_inv.
Proof. unfold release. bsteps. Qed.

Lemma triple_stopListening : triple bridge_inv (@stopListening W) bridge_inv bridge_inv.
Proof. unfold stopListening. bsteps. Qed.

Lemma triple_bridge_call (ty : Z) (m : jsval) :
  triple bridge_inv (call srv ty m) bridge_inv bridge_inv.
Proof. unfold call. bsteps. Qed.

Lemma triple_post (data : string) : triple bridge_inv (post srv data) bridge_inv bridge_inv.
Proof. unfold post. bsteps. Qed.

Lemma triple_isAvailable : triple bridge_inv (isAvailable srv) bridge_inv bridge_inv.
Proof. unfold isAvailable. bsteps. Qed.

Lemma triple_getVersion : triple bridge_inv (getVersion srv) bridge_inv bridge_inv.
Proof. unfold getVersion. bsteps. Qed.

Lemma triple_listen : triple bridge_inv (@listen W) bridge_inv bridge_inv.
Proof. unfold listen. bsteps. Qed.

Lemma triple_listenAnswered (poll : request) :
  triple bridge_inv (listenAnswered srv poll) bridge_inv bridge_inv.
Proof.
  unfold listenAnswered.
  eapply (Hoare.triple_try_catch bridge_inv bridge_inv);
    [|intro; unfold emit; bsteps].
  eapply (Hoare.triple_bind bridge_inv bridge_inv); [apply Hoare.triple_answer|intro].
  destruct (negb (ok a)); [apply Hoare.triple_throw; auto|].
  eapply (Hoare.triple_bind bridge_inv bridge_inv); [apply Hoare.triple_lift|intro data].
  eapply (Hoare.triple_bind bridge_inv bridge_inv);
    [unfold handleListenResponse, emit; bsteps|intro].
  eapply (Hoare.triple_bind bridge_inv bridge_inv); [apply Hoare.triple_get|intro self].
  destruct (listenController self); [|apply Hoare.triple_throw; auto].
  eapply (Hoare.triple_try_catch bridge_inv bridge_inv);
    [apply triple_listen|intro; apply Hoare.triple_ret; auto].
Qed.

(** A transport that holds a device keeps holding one through [enumerate] and
    [acquire]. *)
Lemma triple_enumerate_device :
  triple (fun x => bridge_inv x /\ device x <> None) (enumerate srv)
         (fun x => bridge_inv x /\ device x <> None) bridge_inv.
Proof.
  intros x w Hx. pose proof (triple_enumerate x w (proj1 Hx)) as H.
  unfold enumerate, bind, get, fetch, lift in *.
  destruct (srv _ AsBridgeDevices _ (far w)) as [[resp|e] f]; [|exact H].
  destruct (json resp); [exact Hx|exact H].
Qed.

Lemma triple_acquire_device (p : string) (s : nullable) :
  triple (fun x => bridge_inv x /\ device x <> None) (acquire srv p s)
         (fun x => bridge_inv x /\ device x <> None) bridge_inv.
Proof.
  intros x w Hx. pose proof (triple_acquire p s x w (proj1 Hx)) as H.
  unfold acquire, bind, get, fetch, lift, throw in *.
  destruct (srv _ AsSession _ (far w)) as [[resp|e] f]; [|exact H].
  destruct (negb (ok resp)); [exact H|].
  destruct (json resp); [exact Hx|exact H].
Qed.

Lemma triple_refreshSession : triple bridge_inv (refreshSession srv) bridge_inv bridge_inv.
Proof.
  unfold refreshSession.
  apply bridge_triple_get_bind. intro self.
  destruct (device self) as [dev|] eqn:Hdev.
  2:{ apply Hoare.triple_throw. intros x [Hx _]. exact Hx. }
  eapply (Hoare.triple_bind _ (fun x => bridge_inv x /\ device x <> None)).
  { eapply Hoare.triple_weaken; [apply triple_enumerate_device| | |]; cbn beta; auto.
    intros x [Hx ->]. split; [exact Hx|congruence]. }
  intro devices.
  destruct (find _ devices) as [currentDevice|].
  - apply bridge_triple_get_bind. intro self1.
    eapply (Hoare.triple_bind _ bridge_inv).
    + destruct (session_differs _ _).
      * eapply (Hoare.triple_bind _ (fun x => bridge_inv x /\ device x <> None)).
        { eapply Hoare.triple_weaken; [apply (triple_acquire_device _ _)| | |];
            cbn beta; auto. tauto. }
        intro s.
        eapply (Hoare.triple_bind _ (fun x => session x = s /\ device x <> None)).
        { apply bridge_triple_modify. intros x [_ Hd]. split; [reflexivity|exact Hd]. }
        intros _. apply bridge_triple_get_bind. intro self2.
        destruct (device self2) as [d|] eqn:Hd2.
        -- apply bridge_triple_modify. intros x [[Hs _] _] _.
           exists (BridgeDevice.mk (BridgeDevice.path d) s).
           split; [reflexivity|]. symmetry. exact Hs.
        -- apply Hoare.triple_throw. intros x [[_ Hd] ->]. congruence.
      * apply Hoare.triple_ret. tauto.
    + intros _. bsteps.
  - eapply (Hoare.triple_bind _ bridge_inv).
    + apply bridge_triple_modify. intros x _ Hc. discriminate Hc.
    + intros _. apply Hoare.triple_throw. auto.
Qed.

Lemma triple_bridge_connect (p : option string) :
  triple bridge_inv (connect srv p) bridge_inv bridge_inv.
Proof.
  unfold connect, emit.
  eapply (Hoare.triple_try_catch bridge_inv bridge_inv); [|intro; bsteps].
  eapply (Hoare.triple_bind bridge_inv bridge_inv); [apply triple_enumerate|intros [|first rest]].
  - apply Hoare.triple_throw. auto.
  - match goal with |- triple _ (match ?x with _ => _ end) _ _ => destruct x as [target|] end;
      [|apply Hoare.triple_throw; auto].
    eapply (Hoare.triple_bind bridge_inv bridge_inv); [apply triple_acquire|intro s].
    eapply (Hoare.triple_bind _ (fun x => session x = s));
      [apply bridge_triple_modify; reflexivity|intros _].
    eapply (Hoare.triple_bind _ holds_session).
    { apply bridge_triple_modify. intros x Hs.
      exists (BridgeDevice.mk (BridgeDevice.path target) s).
      split; [reflexivity|]. symmetry. exact Hs. }
    intros _.
    eapply (Hoare.triple_bind _ holds_session);
      [apply bridge_triple_modify; intros x Hx; exact Hx|intros _].
    eapply (Hoare.triple_bind _ holds_session);
      [apply bridge_triple_modify; intros x Hx; exact Hx|intros _].
    apply Hoare.triple_ret. intros x Hx _. exact Hx.
Qed.

Lemma triple_bridge_disconnect : triple bridge_inv (disconnect srv) bridge_inv bridge_inv.
Proof.
  unfold disconnect, emit.
  eapply (Hoare.triple_bind bridge_inv bridge_inv); [apply Hoare.triple_get|intro self].
  destruct (negb (connected self) || falsy_nullable (session self));
    [apply Hoare.triple_ret; auto|].
  eapply (Hoare.triple_try_catch bridge_inv bridge_inv); [|intro; apply Hoare.triple_throw; auto].
  eapply (Hoare.triple_bind bridge_inv bridge_inv); [apply triple_stopListening|intro].
  eapply (Hoare.triple_bind bridge_inv bridge_inv); [apply triple_release|intro].
  eapply (Hoare.triple_bind _ (fun _ => True)); [apply bridge_triple_modify; auto|intro].
  eapply (Hoare.triple_bind _ (fun _ => True)); [apply bridge_triple_modify; auto|intro].
  eapply (Hoare.triple_bind _ (fun x => connected x = false));
    [apply bridge_triple_modify; auto|intro].
  apply bridge_triple_modify. intros x Hx Hc. cbn [connected add_emitted] in Hc. congruence.
Qed.

Lemma triple_run_bridge (o : bridge_op) :
  triple bridge_inv (run_bridge srv o) bridge_inv bridge_inv.
Proof.
  assert (Hf : forall (A : Type) (m : M t W A),
             triple bridge_inv m bridge_inv bridge_inv ->
             triple bridge_inv (forget m) bridge_inv bridge_inv).
  { intros A m H. unfold forget.
    eapply (Hoare.triple_bind bridge_inv bridge_inv); [exact H|intro].
    apply Hoare.triple_ret. auto. }
  destruct o; cbn [run_bridge].
  - apply Hf, triple_bridge_connect.
  - apply triple_bridge_disconnect.
  - apply Hf, triple_bridge_call.
  - apply Hf, triple_refreshSession.
  - apply Hf, triple_enumerate.
  - apply Hf, triple_acquire.
  - apply triple_release.
  - apply triple_stopListening.
  - apply Hf, triple_post.
  - apply Hf, triple_isAvailable.
  - apply Hf, triple_getVersion.
  - apply triple_listen.
  - apply triple_listenAnswered.
Qed.

End WithServer.

Lemma call_keeps_session_refresh_renews_witness :
  (session Simulation.transportConnected = Str "s1" /\
   falsy_string "s1" = false /\
   object (call Simulation.daemon MESSAGE_TYPES.Ping (JObj []) Simulation.transportConnected
                Simulation.rotatedWorld)
   = Simulation.transportConnected /\
   log (world (call Simulation.daemon MESSAGE_TYPES.Ping (JObj []) Simulation.transportConnected
                    Simulation.rotatedWorld))
   = (log Simulation.rotatedWorld ++
      [callRequest (config_url Simulation.transportConnected) "s1" MESSAGE_TYPES.Ping (JObj [])])%list) /\
  (let refreshed := refreshSession Simulation.daemon Simulation.transportConnected
                                   Simulation.rotatedWorld in
   let called := call Simulation.daemon MESSAGE_TYPES.Ping (JObj [])
                      (object refreshed) (world refreshed) in
   outcome refreshed = Ok (Str "s3") /\
   session (object called) = Str "s3" /\
   outcome called = Ok (MessageResponse.mk MESSAGE_TYPES.Success (JObj []))).
Proof.
  pose proof (call_keeps_session_refresh_renews Simulation.daemon MESSAGE_TYPES.Ping (JObj [])
                Simulation.transportConnected Simulation.rotatedWorld) as [Hcall Hrefresh].
  split.
  - split; [reflexivity|]. split; [reflexivity|].
    exact (Hcall "s1" eq_refl eq_refl).
  - specialize (Hrefresh (BridgeDevice.mk "/dev/hid0" (Str "s1"))
                  _ _ [BridgeDevice.mk "/dev/hid0" (Str "s2")]
                  (BridgeDevice.mk "/dev/hid0" (Str "s2"))
                  _ _ "s3" eq_refl eq_refl eq_refl eq_refl eq_refl eq_refl eq_refl eq_refl
                  eq_refl).
    cbv zeta in Hrefresh. cbv zeta.
    destruct Hrefresh as (H1 & H2 & H3 & H4 & H5).
    split; [exact H1|]. split; [exact H3|].
    rewrite H5. reflexivity.
Defined.

(** C3, as stated, fails.  The transport holds the session [s1]; another
    client has taken the device, and the daemon lists it under [s2].  The next
    [call] is posted under [s1], with no enumeration and no acquisition before
    it, and fails on the answer of the daemon; the transport still holds
    [s1]. *)
Lemma stale_call_is_sent :
  session Simulation.transportConnected = Str "s1" /\
  outcome (enumerate Simulation.daemon Simulation.transportConnected Simulation.rotatedWorld)
  = Ok [BridgeDevice.mk "/dev/hid0" (Str "s2")] /\
  (let called := call Simulation.daemon MESSAGE_TYPES.Ping (JObj [])
                      Simulation.transportConnected Simulation.rotatedWorld in
   outcome called = Throw (Error "Bridge call failed: session not found") /\
   log (world called)
   = (log Simulation.rotatedWorld ++
      [callRequest "http://localhost:1646" "s1" MESSAGE_TYPES.Ping (JObj [])])%list /\
   session (object called) = Str "s1").
Proof. cbv zeta. repeat split; vm_compute; reflexivity. Qed.

End BridgeFacts.

(** ** The life cycle of the Bridge transport *)

Module BridgeLifecycleFacts.
Import Js Constants Http BridgeTransport.

Ltac run := unfold bind, try_catch, get, put, ret, throw, lift, fetch.

Section WithServer.
Context {W : Type} (srv : server W).

(** X17: [isAvailable] never throws: it issues one [GET] on the root of the
    Bridge, answers the [ok] of the reply, or false when the request is
    rejected, and leaves the transport as it is; [isBridgeAvailable] asks the
    given URL, or the default one when none is given. *)
Theorem isAvailable_never_throws (self : t) (w : io W) (u : option string) :
  let ask (base : string) :=
    srv _ AsNothing (mkRequest GET (base ++ "/") [] None) (far w) in
  let answer (base : string) :=
    match fst (ask base) with Ok response => ok response | Throw _ => false end in
  isAvailable srv self w
  = (Ok (answer (config_url self)), self,
     mkIo (snd (ask (config_url self)))
          (log w ++ [mkRequest GET (config_url self ++ "/") [] None])%list) /\
  isBridgeAvailable srv u w
  = (Ok (answer (or_default falsy_string u DEFAULT_URL)),
     mkIo (snd (ask (or_default falsy_string u DEFAULT_URL)))
          (log w ++ [mkRequest GET (or_default falsy_string u DEFAULT_URL ++ "/") [] None])%list).
Proof.
  cbv zeta. split.
  - unfold isAvailable. run.
    destruct (srv _ AsNothing _ (far w)) as [[resp|e] f]; reflexivity.
  - unfold isBridgeAvailable, isAvailable. run. cbn [new url config_url].
    destruct (srv _ AsNothing _ (far w)) as [[resp|e] f]; reflexivity.
Qed.

(** X18: [disconnect] on a transport that is not connected, or holds no
    session token, returns at once.  Otherwise it stops listening and posts the
    release of the token: when the daemon accepts it the transport ends up
    without session and device, not connected, and [device:disconnected] is
    emitted; when the daemon refuses it or the request is rejected,
    [disconnect] throws [Failed to disconnect: ...] and the transport keeps its
    session, its device and its connected flag, with the listening stopped. *)
Theorem bridge_disconnect_outcome (self : t) (w : io W) :
  if connected self && negb (falsy_nullable (session self)) then
    let req := mkRequest POST (config_url self ++ "/release" ++ "/" ++
                               show_nullable (session self)) [] None in
    let w' := mkIo (snd (srv _ AsNothing req (far w))) (log w ++ [req])%list in
    match fst (srv _ AsNothing req (far w)) with
    | Ok response =>
        if ok response then
          disconnect srv self w
          = (Ok tt,
             mk (config_url self) (config_timeout self) Null None false false
                (emitted self ++ [mkEvent DEVICE_EVENTS.DISCONNECTED NoArg])%list,
             w')
        else
          disconnect srv self w
          = (Throw (Error ("Failed to disconnect: Failed to release session: "
                           ++ text response)),
             set_listenController false self, w')
    | Throw e =>
        disconnect srv self w
        = (Throw (Error ("Failed to disconnect: " ++ message e)),
           set_listenController false self, w')
    end
  else disconnect srv self w = (Ok tt, self, w).
Proof.
  destruct self as [u tm sess d c l ev]; cbn [session connected].
  destruct c; cbn [andb negb].
  2:{ unfold disconnect. run. reflexivity. }
  destruct (falsy_nullable sess) eqn:Hf; cbn [negb].
  { unfold disconnect. run. cbn [session connected negb orb]. rewrite Hf. reflexivity. }
  cbv zeta. cbn [config_url emitted config_timeout].
  unfold disconnect, stopListening, release, emit, modify. run.
  cbn [session connected negb orb]. rewrite Hf.
  destruct l; cbn [listenController set_listenController config_url far log];
    destruct (srv _ AsNothing _ (far w)) as [[resp|e] f]; cbn [fst snd];
    try reflexivity;
    destruct (ok resp); reflexivity.
Qed.

(** X19: what [connect] does, by the answers of the daemon.  It enumerates,
    takes the listed device of the path asked for, or the first one when no
    path is given, and posts the acquisition of this device under the session
    it is listed with.  When the daemon accepts, the transport holds what the
    answer gives for [session], a token, [null] or nothing, and a device of the path
    taken that carries the same, is connected and has emitted
    [device:connected]; this device is returned.  When a request is rejected
    or refused, a body cannot be read, no device is listed or none has the
    path asked for, [connect] throws, and the transport is as before except
    that [device:failure] is emitted with the error thrown. *)
Theorem bridge_connect_outcome (devicePath : option string) (self : t) (w : io W) :
  let failed (e : error) (w' : io W) :=
    (@Throw BridgeDevice.t e,
     add_emitted (mkEvent DEVICE_EVENTS.FAILURE (ErrorArg e)) self, w') in
  let listing := srv _ AsBridgeDevices (enumerateRequest self) (far w) in
  let w1 := mkIo (snd listing) (log w ++ [enumerateRequest self])%list in
  connect srv devicePath self w =
  match fst listing with
  | Throw e => failed e w1
  | Ok r1 =>
      match json r1 with
      | Throw e => failed e w1
      | Ok [] => failed (Error "No KeepKey device found via Bridge") w1
      | Ok (first :: rest) =>
          match match truthy devicePath with
                | Some p => find (fun d => String.eqb (BridgeDevice.path d) p) (first :: rest)
                | None => Some first
                end with
          | None => failed (Error ("Device not found: " ++ default_arg "" devicePath)) w1
          | Some target =>
              let req := acquireRequest self (BridgeDevice.path target)
                                        (BridgeDevice.session target) in
              let granting := srv _ AsSession req (snd listing) in
              let w2 := mkIo (snd granting) (log w ++ [enumerateRequest self; req])%list in
              match fst granting with
              | Throw e => failed e w2
              | Ok r2 =>
                  if ok r2 then
                    match json r2 with
                    | Throw e => failed e w2
                    | Ok s =>
                        let d := BridgeDevice.mk (BridgeDevice.path target) s in
                        (Ok d,
                         mk (config_url self) (config_timeout self) s (Some d) true
                            (listenController self)
                            (emitted self ++
                             [mkEvent DEVICE_EVENTS.CONNECTED (DeviceArg d)])%list,
                         w2)
                    end
                  else failed (Error ("Failed to acquire device: " ++ text r2)) w2
              end
          end
      end
  end.
Proof.
  cbv zeta. destruct self as [u tm sess dev c l ev].
  unfold connect, enumerate, acquire, emit, modify. run.
  cbn [config_url enumerateRequest acquireRequest].
  destruct (srv _ AsBridgeDevices _ (far w)) as [[r1|e1] f1]; cbn [fst snd]; [|reflexivity].
  destruct (json r1) as [[|first rest]|e]; try reflexivity.
  assert (Hpick : (if falsy_string (or_default falsy_string devicePath "") then Some first
                   else find (fun d => String.eqb (BridgeDevice.path d)
                                                  (or_default falsy_string devicePath ""))
                             (first :: rest))
                  = match truthy devicePath with
                    | Some p => find (fun d => String.eqb (BridgeDevice.path d) p) (first :: rest)
                    | None => Some first
                    end).
  { unfold truthy, or_default. destruct devicePath as [q|]; [|reflexivity].
    destruct (falsy_string q) eqn:Hq; [reflexivity|]. rewrite Hq. reflexivity. }
  rewrite Hpick.
  assert (Hname : match truthy devicePath with
                  | Some p => find (fun d => String.eqb (BridgeDevice.path d) p) (first :: rest)
                  | None => Some first
                  end = None ->
                  or_default falsy_string devicePath "" = default_arg "" devicePath).
  { unfold truthy, or_default, default_arg. destruct devicePath as [q|]; [|discriminate].
    destruct (falsy_string q); [discriminate|reflexivity]. }
  destruct (match truthy devicePath with
            | Some p => find (fun d => String.eqb (BridgeDevice.path d) p) (first :: rest)
            | None => Some first
            end) as [target|]; [|rewrite (Hname eq_refl); reflexivity].
  cbn [far log config_url].
  destruct (srv _ AsSession _ f1) as [[r2|e2] f2]; cbn [fst snd];
    [|rewrite <- app_assoc; reflexivity].
  destruct (ok r2); cbn [negb]; [|rewrite <- app_assoc; reflexivity].
  destruct (json r2) as [s|e]; cbn [log]; rewrite <- app_assoc; reflexivity.
Qed.

(** X20: [refreshSession] when no token has rotated.  Without a device it
    throws and issues no request.  When the daemon lists the held path under
    the held token, it returns this token after the one enumeration and leaves
    the transport as it is.  When the daemon no longer lists the held path, it
    throws [Device disconnected] and clears the connected flag only: the
    transport keeps its token, and [disconnect], which now returns at once,
    does not release it. *)
Theorem refreshSession_without_rotation (self : t) (w : io W) :
  (device self = None ->
   refreshSession srv self w = (Throw (Error "No device connected"), self, w)) /\
  (forall (dev : BridgeDevice.t) (r1 : response (list BridgeDevice.t)) (f1 : W)
          (devices : list BridgeDevice.t),
      device self = Some dev ->
      srv _ AsBridgeDevices (enumerateRequest self) (far w) = (Ok r1, f1) ->
      json r1 = Ok devices ->
      match find (fun d => String.eqb (BridgeDevice.path d) (BridgeDevice.path dev)) devices with
      | Some currentDevice =>
          session_differs (BridgeDevice.session currentDevice) (session self) = false ->
          refreshSession srv self w
          = (Ok (session self), self, mkIo f1 (log w ++ [enumerateRequest self])%list)
      | None =>
          let gone := set_connected false self in
          let w1 := mkIo f1 (log w ++ [enumerateRequest self])%list in
          refreshSession srv self w = (Throw (Error "Device disconnected"), gone, w1) /\
          isConnected gone = false /\
          getSession gone = session self /\
          disconnect srv gone w1 = (Ok tt, gone, w1)
      end).
Proof.
  split.
  - intros Hd. unfold refreshSession. run. rewrite Hd. reflexivity.
  - intros dev r1 f1 devices Hd H1 J1.
    destruct (find _ devices) as [currentDevice|] eqn:Hfind.
    + intros Hsame. unfold refreshSession, enumerate, modify. run.
      rewrite Hd, H1, J1, Hfind, Hsame. reflexivity.
    + cbv zeta. split; [|split; [|split]].
      * unfold refreshSession, enumerate, modify. run.
        rewrite Hd, H1, J1, Hfind. reflexivity.
      * reflexivity.
      * reflexivity.
      * unfold disconnect. run. cbn [session set_connected connected negb orb].
        destruct (session self); reflexivity.
Qed.

Lemma handleListenResponse_event (data : MessageResponse.t) (self : t) (w : io W) :
  handleListenResponse data self w
  = (Ok tt,
     match find (fun kv => fst kv =? MessageResponse.type data)
                [(MESSAGE_TYPES.ButtonRequest, DEVICE_EVENTS.BUTTON_REQUEST);
                 (MESSAGE_TYPES.PinMatrixRequest, DEVICE_EVENTS.PIN_REQUEST);
                 (MESSAGE_TYPES.PassphraseRequest, DEVICE_EVENTS.PASSPHRASE_REQUEST);
                 (MESSAGE_TYPES.WordRequest, DEVICE_EVENTS.WORD_REQUEST);
                 (MESSAGE_TYPES.Failure, DEVICE_EVENTS.FAILURE);
                 (MESSAGE_TYPES.Success, DEVICE_EVENTS.SUCCESS)] with
     | Some (_, event) =>
         add_emitted (mkEvent event (MessageArg (MessageResponse.message data))) self
     | None => self
     end, w).
Proof.
  unfold handleListenResponse, emit, modify. run. cbn [find fst].
  unfold MESSAGE_TYPES.ButtonRequest, MESSAGE_TYPES.PinMatrixRequest,
    MESSAGE_TYPES.PassphraseRequest, MESSAGE_TYPES.WordRequest, MESSAGE_TYPES.Failure,
    MESSAGE_TYPES.Success.
  rewrite !(Z.eqb_sym (MessageResponse.type data)).
  repeat match goal with |- context [?a =? ?b] => destruct (a =? b) end; reflexivity.
Qed.

(** X27: [listen] without a session token throws [No active session] and
    issues no request; with one it takes a new controller, puts one poll out
    under the token and waits.  From the answer to a poll on, [listen] never
    throws.  A rejection, a refusal or a body that cannot be read emits
    [device:failure] with the error, unless the error is named [AbortError],
    which ends the polling silently.  A message emits the event of its type,
    for the six types of the table, with the content of the message, and no
    event for another type; then the next poll is put out under the token the
    transport holds, if it holds one, after a new controller is taken; when
    the controller has been dropped meanwhile, [device:failure] is emitted
    instead, with a [TypeError]. *)
Theorem listen_outcome (self : t) (w : io W) (poll : request) :
  let caught (e : error) (x : t) :=
    if String.eqb (name e) "AbortError" then x
    else add_emitted (mkEvent DEVICE_EVENTS.FAILURE (ErrorArg e)) x in
  let started (x : t) (w' : io W) :=
    if falsy_nullable (session x) then (x, w')
    else (set_listenController true x,
          mkIo (far w')
               (log w' ++ [listenRequest (config_url x) (show_nullable (session x))])%list) in
  let heard (data : MessageResponse.t) :=
    match find (fun kv => fst kv =? MessageResponse.type data)
               [(MESSAGE_TYPES.ButtonRequest, DEVICE_EVENTS.BUTTON_REQUEST);
                (MESSAGE_TYPES.PinMatrixRequest, DEVICE_EVENTS.PIN_REQUEST);
                (MESSAGE_TYPES.PassphraseRequest, DEVICE_EVENTS.PASSPHRASE_REQUEST);
                (MESSAGE_TYPES.WordRequest, DEVICE_EVENTS.WORD_REQUEST);
                (MESSAGE_TYPES.Failure, DEVICE_EVENTS.FAILURE);
                (MESSAGE_TYPES.Success, DEVICE_EVENTS.SUCCESS)] with
    | Some (_, event) =>
        add_emitted (mkEvent event (MessageArg (MessageResponse.message data))) self
    | None => self
    end in
  let replied := srv _ AsMessage poll (far w) in
  let w1 := mkIo (snd replied) (log w) in
  listen self w
  = (if falsy_nullable (session self) then (Throw (Error "No active session"), self, w)
     else (Ok tt, fst (started self w), snd (started self w))) /\
  listenAnswered srv poll self w
  = match fst replied with
    | Throw e => (Ok tt, caught e self, w1)
    | Ok response =>
        if ok response then
          match json response with
          | Throw e => (Ok tt, caught e self, w1)
          | Ok data =>
              if listenController self then
                (Ok tt, fst (started (heard data) w1), snd (started (heard data) w1))
              else
                (Ok tt,
                 caught (TypeError "Cannot read properties of null (reading 'signal')")
                        (heard data),
                 w1)
          end
        else (Ok tt, caught (Error "Listen request failed") self, w1)
    end.
Proof.
  cbv zeta. split.
  - unfold listen, modify, send. run.
    destruct (falsy_nullable (session self)); reflexivity.
  - unfold listenAnswered, answer, emit, modify. run.
    destruct (srv _ AsMessage poll (far w)) as [[resp|e] f]; cbn [fst snd].
    2:{ destruct (String.eqb (name e) "AbortError"); reflexivity. }
    destruct (ok resp); cbn [negb]; [|reflexivity].
    destruct (json resp) as [data|e].
    2:{ destruct (String.eqb (name e) "AbortError"); reflexivity. }
    rewrite handleListenResponse_event.
    set (x := match find _ _ with Some _ => _ | None => _ end).
    assert (Hl : listenController x = listenController self).
    { unfold x. destruct (find _ _) as [[k ev]|]; reflexivity. }
    rewrite Hl. destruct (listenController self); [|reflexivity].
    unfold listen, modify, send. run.
    destruct (falsy_nullable (session x)); reflexivity.
Qed.

End WithServer.

Lemma refreshSession_without_rotation_witness :
  (let fresh := BridgeTransport.new (mkConfig None None) in
   refreshSession Simulation.daemon fresh (Simulation.start "id")
   = (Throw (Error "No device connected"), fresh, Simulation.start "id")) /\
  (let held := Simulation.transportConnected in
   let w := world (connect Simulation.daemon None Simulation.bridgeTransport
                           (Simulation.start "id")) in
   outcome (refreshSession Simulation.daemon held w) = Ok (Str "s1") /\
   object (refreshSession Simulation.daemon held w) = held) /\
  (let lost := mk "http://localhost:1646" 30000 (Str "s1")
                  (Some (BridgeDevice.mk "/dev/gone" (Str "s1"))) true false [] in
   outcome (refreshSession Simulation.daemon lost (Simulation.start "id"))
   = Throw (Error "Device disconnected") /\
   getSession (object (refreshSession Simulation.daemon lost (Simulation.start "id")))
   = Str "s1").
Proof.
  cbv zeta. split; [|split].
  - exact (proj1 (refreshSession_without_rotation Simulation.daemon
                    (BridgeTransport.new (mkConfig None None)) (Simulation.start "id"))
                 eq_refl).
  - pose proof (proj2 (refreshSession_without_rotation Simulation.daemon
                         Simulation.transportConnected
                         (world (connect Simulation.daemon None Simulation.bridgeTransport
                                         (Simulation.start "id"))))
                      (BridgeDevice.mk "/dev/hid0" (Str "s1")) _ _
                      [BridgeDevice.mk "/dev/hid0" (Str "s1")]
                      eq_refl eq_refl eq_refl eq_refl) as H.
    rewrite H. split; reflexivity.
  - pose proof (proj2 (refreshSession_without_rotation Simulation.daemon
                         (mk "http://localhost:1646" 30000 (Str "s1")
                             (Some (BridgeDevice.mk "/dev/gone" (Str "s1"))) true false [])
                         (Simulation.start "id"))
                      (BridgeDevice.mk "/dev/gone" (Str "s1")) _ _
                      [BridgeDevice.mk "/dev/hid0" Null]
                      eq_refl eq_refl eq_refl) as H.
    cbv zeta in H. destruct H as (H & _ & _ & _).
    rewrite H. split; reflexivity.
Defined.

End BridgeLifecycleFacts.

(** ** The requests of the Bridge transport *)

Module BridgeTrafficFacts.
Import Js Constants Http BridgeTransport Operations Traffic.

Section WithServer.
Context {W : Type} (srv : server W).

Lemma sends_bridge_modify (u : string) (f : t -> t) :
  (forall x, config_url (f x) = config_url x) ->
  sends (same_url u) (bridge_request u) (@modify W f).
Proof.
  intros Hf x Hx w. unfold modify, bind, get, put, object, world. cbn [fst snd].
  split; [unfold same_url in *; rewrite Hf; exact Hx|].
  exists []. rewrite app_nil_r. auto.
Qed.

Ltac bsend u :=
  first
    [ apply ClientLifecycleFacts.sends_lift
    | apply ClientLifecycleFacts.sends_ret
    | apply ClientLifecycleFacts.sends_throw
    | apply sends_bridge_modify; reflexivity
    | apply ClientLifecycleFacts.sends_bind; [|intro]
    | apply ClientLifecycleFacts.sends_try_catch; [|intro]
    | match goal with |- sends _ _ (if ?b then _ else _) => destruct b end
    | match goal with |- sends _ _ (match ?x with _ => _ end) => destruct x end ].

Ltac bsends u := repeat (bsend u).

Ltac with_self u x Hx :=
  apply ClientLifecycleFacts.sends_get_bind; intros x Hx;
  apply ClientLifecycleFacts.sends_at; [|exact Hx];
  unfold same_url in Hx.

Lemma sends_enumerate (u : string) : sends (same_url u) (bridge_request u) (enumerate srv).
Proof.
  unfold enumerate. with_self u x Hx. unfold enumerateRequest. rewrite Hx.
  apply ClientLifecycleFacts.sends_bind;
    [apply ClientLifecycleFacts.sends_fetch; apply TransportEnumerate|intro].
  bsends u.
Qed.

Lemma sends_acquire (u : string) (p : string) (s : nullable) :
  sends (same_url u) (bridge_request u) (acquire srv p s).
Proof.
  unfold acquire. with_self u x Hx. unfold acquireRequest. rewrite Hx.
  apply ClientLifecycleFacts.sends_bind;
    [apply ClientLifecycleFacts.sends_fetch; apply TransportAcquire|intro].
  bsends u.
Qed.

Lemma sends_release (u : string) (s : string) :
  sends (same_url u) (bridge_request u) (release srv s).
Proof.
  unfold release. with_self u x Hx. rewrite Hx.
  apply ClientLifecycleFacts.sends_bind;
    [apply ClientLifecycleFacts.sends_fetch; apply TransportRelease|intro].
  bsends u.
Qed.

Lemma sends_stopListening (u : string) :
  sends (same_url u) (bridge_request u) (@stopListening W).
Proof. unfold stopListening. with_self u x Hx. bsends u. Qed.

Lemma sends_bridge_call (u : string) (ty : Z) (m : jsval) :
  sends (same_url u) (bridge_request u) (call srv ty m).
Proof.
  unfold call. with_self u x Hx. rewrite Hx.
  destruct (falsy_nullable (session x)) eqn:Hf; [bsends u|].
  apply ClientLifecycleFacts.sends_bind; [|intro; bsends u].
  apply ClientLifecycleFacts.sends_fetch. apply TransportCall.
  intros He. destruct (session x); cbn [falsy_nullable show_nullable] in Hf, He;
    [discriminate Hf|discriminate Hf|subst; discriminate Hf].
Qed.

Lemma sends_post (u : string) (data : string) :
  sends (same_url u) (bridge_request u) (post srv data).
Proof.
  unfold post. with_self u x Hx. rewrite Hx.
  destruct (falsy_nullable (session x)) eqn:Hf; [bsends u|].
  apply ClientLifecycleFacts.sends_bind; [|intro; bsends u].
  apply ClientLifecycleFacts.sends_fetch. apply TransportPost.
  intros He. destruct (session x); cbn [falsy_nullable show_nullable] in Hf, He;
    [discriminate Hf|discriminate Hf|subst; discriminate Hf].
Qed.

Lemma sends_isAvailable (u : string) :
  sends (same_url u) (bridge_request u) (isAvailable srv).
Proof.
  unfold isAvailable.
  apply ClientLifecycleFacts.sends_try_catch; [|intro; bsends u].
  with_self u x Hx. rewrite Hx.
  apply ClientLifecycleFacts.sends_bind; [|intro; bsends u].
  apply ClientLifecycleFacts.sends_fetch. apply TransportRoot.
Qed.

Lemma sends_getVersion (u : string) :
  sends (same_url u) (bridge_request u) (getVersion srv).
Proof.
  unfold getVersion. with_self u x Hx. rewrite Hx.
  apply ClientLifecycleFacts.sends_bind; [|intro; bsends u].
  apply ClientLifecycleFacts.sends_fetch. apply TransportRoot.
Qed.

Lemma sends_bridge_connect (u : string) (p : option string) :
  sends (same_url u) (bridge_request u) (connect srv p).
Proof.
  unfold connect, emit.
  apply ClientLifecycleFacts.sends_try_catch; [|intro; bsends u].
  apply ClientLifecycleFacts.sends_bind; [apply sends_enumerate|intros [|first rest]];
    [bsends u|].
  match goal with |- sends _ _ (match ?x with _ => _ end) => destruct x as [target|] end;
    [|bsends u].
  apply ClientLifecycleFacts.sends_bind; [apply sends_acquire|intro]. bsends u.
Qed.

Lemma sends_bridge_disconnect (u : string) :
  sends (same_url u) (bridge_request u) (disconnect srv).
Proof.
  unfold disconnect, emit. with_self u x Hx.
  destruct (negb (connected x) || falsy_nullable (session x)); [bsends u|].
  apply ClientLifecycleFacts.sends_try_catch; [|intro; bsends u].
  apply ClientLifecycleFacts.sends_bind; [apply sends_stopListening|intro].
  apply ClientLifecycleFacts.sends_bind; [apply sends_release|intro].
  bsends u.
Qed.

Lemma sends_refreshSession (u : string) :
  sends (same_url u) (bridge_request u) (refreshSession srv).
Proof.
  unfold refreshSession. with_self u x Hx.
  destruct (device x) as [dev|]; [|bsends u].
  apply ClientLifecycleFacts.sends_bind; [apply sends_enumerate|intro devices].
  destruct (find _ devices) as [currentDevice|]; [|bsends u].
  with_self u x1 Hx1.
  apply ClientLifecycleFacts.sends_bind.
  - destruct (session_differs _ _); [|bsends u].
    apply ClientLifecycleFacts.sends_bind; [apply sends_acquire|intro s].
    apply ClientLifecycleFacts.sends_bind; [bsends u|intro].
    with_self u x2 Hx2. bsends u.
  - intro. with_self u x3 Hx3. bsends u.
Qed.

Lemma sends_listen (u : string) : sends (same_url u) (bridge_request u) (@listen W).
Proof.
  unfold listen. with_self u x Hx. rewrite Hx.
  destruct (falsy_nullable (session x)) eqn:Hf; [bsends u|].
  apply ClientLifecycleFacts.sends_bind; [bsends u|intro].
  apply ClientLifecycleFacts.sends_send. apply TransportListen.
  intros He. destruct (session x); cbn [falsy_nullable show_nullable] in Hf, He;
    [discriminate Hf|discriminate Hf|subst; discriminate Hf].
Qed.

Lemma sends_listenAnswered (u : string) (poll : request) :
  sends (same_url u) (bridge_request u) (listenAnswered srv poll).
Proof.
  unfold listenAnswered.
  apply ClientLifecycleFacts.sends_try_catch; [|intro; unfold emit; bsends u].
  apply ClientLifecycleFacts.sends_bind; [apply ClientLifecycleFacts.sends_answer|intro].
  destruct (negb (ok a)); [bsends u|].
  apply ClientLifecycleFacts.sends_bind; [bsends u|intro data].
  apply ClientLifecycleFacts.sends_bind; [unfold handleListenResponse, emit; bsends u|intro].
  with_self u x Hx.
  destruct (listenController x); [|bsends u].
  apply ClientLifecycleFacts.sends_try_catch; [apply sends_listen|intro; bsends u].
Qed.

Lemma sends_run_bridge (u : string) (o : bridge_op) :
  sends (same_url u) (bridge_request u) (run_bridge srv o).
Proof.
  destruct o; cbn [run_bridge]; unfold forget.
  - apply ClientLifecycleFacts.sends_bind; [apply sends_bridge_connect|intro; bsends u].
  - apply sends_bridge_disconnect.
  - apply ClientLifecycleFacts.sends_bind; [apply sends_bridge_call|intro; bsends u].
  - apply ClientLifecycleFacts.sends_bind; [apply sends_refreshSession|intro; bsends u].
  - apply ClientLifecycleFacts.sends_bind; [apply sends_enumerate|intro; bsends u].
  - apply ClientLifecycleFacts.sends_bind; [apply sends_acquire|intro; bsends u].
  - apply sends_release.
  - apply sends_stopListening.
  - apply ClientLifecycleFacts.sends_bind; [apply sends_post|intro; bsends u].
  - apply ClientLifecycleFacts.sends_bind; [apply sends_isAvailable|intro; bsends u].
  - apply ClientLifecycleFacts.sends_bind; [apply sends_getVersion|intro; bsends u].
  - apply sends_listen.
  - apply sends_listenAnswered.
Qed.

(** X21: whatever methods of a Bridge transport are called, in whatever
    order, among [connect], [disconnect], [call], [post], [refreshSession],
    [enumerate], [acquire], [release], [stopListening], [isAvailable],
    [getVersion] and [listen], with the polls of [listen] answered at any
    time between them, its base URL stays as the constructor left it, and
    every request issued is an enumeration, an acquisition, a release, a call,
    a raw message, a poll or the [GET] on the root of this URL.  A call, a raw
    message and a poll are always posted under a session token that is not
    empty: without one, [call], [post] and [listen] throw before any
    request. *)
Theorem bridge_requests (config0 : BridgeTransportConfig) (ops : list bridge_op) (w : io W) :
  let u := or_default falsy_string (url config0) DEFAULT_URL in
  let after := run_bridges srv ops (BridgeTransport.new config0) w in
  config_url (fst after) = u /\
  exists rs : list request,
    log (snd after) = (log w ++ rs)%list /\ Forall (bridge_request u) rs.
Proof.
  cbv zeta. set (u := or_default falsy_string (url config0) DEFAULT_URL).
  assert (H : forall ops x w0, config_url x = u ->
            config_url (fst (run_bridges srv ops x w0)) = u /\
            exists rs, log (snd (run_bridges srv ops x w0)) = (log w0 ++ rs)%list /\
                       Forall (bridge_request u) rs).
  { clear ops w. induction ops as [|o ops IH]; intros x w0 Hx.
    - split; [exact Hx|]. exists []. rewrite app_nil_r. auto.
    - cbn [run_bridges].
      destruct (sends_run_bridge u o x Hx w0) as (Hx1 & rs1 & Hlog1 & Hrs1).
      unfold object, world in *.
      destruct (run_bridge srv o x w0) as [[r x1] w1]. cbn [fst snd] in *.
      destruct (IH x1 w1 Hx1) as (Hx2 & rs2 & Hlog2 & Hrs2).
      split; [exact Hx2|]. exists (rs1 ++ rs2)%list.
      split; [rewrite Hlog2, Hlog1, app_assoc; reflexivity|apply Forall_app; auto]. }
  apply H. reflexivity.
Qed.

End WithServer.

End BridgeTrafficFacts.

(** ** The invariants of the connected flag *)

Module InvariantFacts.
Import Js Constants Http Operations.

(** C8 (as amended): a client, and a Bridge transport, start with these
    invariants and every operation preserves them, whether it returns or
    throws: a client of the USB HID, the WebUSB or the Bridge type whose
    connected flag is true holds a device, and a Bridge transport whose
    connected flag is true holds a device that carries the session of the
    transport.  No more is kept: the path of the device may be empty, and the
    session is what the daemon gave for it, a token, [null] or nothing. *)
Theorem connected_invariants {W : Type} (srv : server W) :
  (forall c, client_inv (KeepKeyClient.new c)) /\
  (forall o self w, client_inv self -> client_inv (client_after srv o self w)) /\
  (forall c, bridge_inv (BridgeTransport.new c)) /\
  (forall o self w, bridge_inv self -> bridge_inv (bridge_after srv o self w)).
Proof.
  split; [|split; [|split]].
  - intros c _ H. discriminate H.
  - intros o self w H. unfold client_after.
    apply (Hoare.triple_object client_inv client_inv (run_client srv o) self w);
      [apply ClientFacts.triple_run_client|exact H].
  - intros c H. discriminate H.
  - intros o self w H. unfold bridge_after.
    apply (Hoare.triple_object bridge_inv bridge_inv (run_bridge srv o) self w);
      [apply BridgeFacts.triple_run_bridge|exact H].
Qed.

Lemma connected_invariants_witness :
  (client_inv Simulation.bridgeClient /\
   client_inv (client_after Simulation.daemon Connect Simulation.bridgeClient
                            (Simulation.start "id"))) /\
  (bridge_inv Simulation.bridgeTransport /\
   bridge_inv (bridge_after Simulation.hollowDaemon (BConnect None) Simulation.bridgeTransport
                            (Simulation.start "id"))).
Proof.
  split; split.
  - apply (proj1 (connected_invariants Simulation.daemon)).
  - apply (proj1 (proj2 (connected_invariants Simulation.daemon))),
          (proj1 (connected_invariants Simulation.daemon)).
  - apply (proj1 (proj2 (proj2 (connected_invariants Simulation.hollowDaemon)))).
  - apply (proj2 (proj2 (proj2 (connected_invariants Simulation.hollowDaemon)))),
          (proj1 (proj2 (proj2 (connected_invariants Simulation.hollowDaemon)))).
Defined.

(** C8, as stated, fails.  A USB client without a configured device path is
    connected with the empty path; a connected Bridge client after
    [clearSession] holds no session token; a Bridge transport is connected
    without a token when the answer of the daemon to the acquisition gives
    none;
    and a Desktop client is connected without a device when the list of the
    daemon starts with [null]. *)
Lemma connected_without_identifier :
  (KeepKeyClient.connected Simulation.usbConnected = true /\
   option_map KeepKeyDevice.path (KeepKeyClient.device Simulation.usbConnected) = Some "") /\
  (let cleared := KeepKeyClient.clearSession Simulation.daemon Simulation.bridgeConnected
                                             Simulation.bridgeWorld in
   outcome cleared = Ok tt /\
   KeepKeyClient.connected (object cleared) = true /\
   KeepKeyClient.sessionId (object cleared) = Null) /\
  (let granted := BridgeTransport.connect Simulation.hollowDaemon None
                    Simulation.bridgeTransport (Simulation.start "id") in
   outcome granted = Ok (BridgeDevice.mk "/dev/hid0" Undefined) /\
   BridgeTransport.connected (object granted) = true /\
   BridgeTransport.session (object granted) = Undefined) /\
  (let listed := KeepKeyClient.connect Simulation.hollowDaemon Simulation.desktopClient
                   (Simulation.start "id") in
   outcome listed = Ok None /\
   KeepKeyClient.connected (object listed) = true /\
   KeepKeyClient.device (object listed) = None).
Proof. cbv zeta. repeat split; vm_compute; reflexivity. Qed.

End InvariantFacts.

(** ** The PIN matrix *)

Module PinFacts.
Import Js PinUtils JsFacts.

Lemma pin_digit_is_digit (c : ascii) : is_pin_digit c = true -> is_digit c = true.
Proof.
  unfold is_pin_digit, is_digit. intros H. apply andb_prop in H. destruct H as [H1 H2].
  apply Nat.leb_le in H1. rewrite H2, andb_true_r. apply Nat.leb_le. lia.
Qed.

Lemma pin_digit_val (c : ascii) : is_pin_digit c = true -> 1 <= digit_val c <= 9.
Proof.
  unfold is_pin_digit, digit_val. intros H. apply andb_prop in H. destruct H as [H1 H2].
  apply Nat.leb_le in H1. apply Nat.leb_le in H2. lia.
Qed.

Lemma parseInt_pin_digit (c : ascii) :
  is_pin_digit c = true -> parseInt (String c EmptyString) = Num (digit_val c).
Proof.
  intros H. rewrite parseInt_digits by (apply pin_digit_is_digit, H).
  cbn [digits_val]. rewrite (pin_digit_is_digit c H). f_equal; lia.
Qed.

(** Where [indexOf] finds a value that occurs. *)
Lemma indexOf_In (d : Z) (matrix : list number) :
  In (Num d) matrix ->
  exists position : nat,
    indexOf (Num d) matrix = Some position /\
    (position < List.length matrix)%nat /\
    nth position matrix NaN = Num d.
Proof.
  induction matrix as [|m rest IH]; intros Hin; [contradiction|].
  cbn [indexOf]. destruct (strict_eq m (Num d)) eqn:E.
  - exists O. split; [reflexivity|]. split; [cbn; lia|].
    destruct m as [|x]; [discriminate|]. cbn in E. apply Z.eqb_eq in E. subst x. reflexivity.
  - destruct Hin as [->|Hin]; [cbn in E; rewrite Z.eqb_refl in E; discriminate|].
    destruct (IH Hin) as (p & Hp & Hlt & Hnth). exists (S p).
    rewrite Hp. split; [reflexivity|]. split; [cbn; lia|exact Hnth].
Qed.

(** The position of a cell of a matrix of nine is printed as one digit. *)
Lemma position_char (position : nat) :
  (position < 9)%nat ->
  exists c : ascii,
    toString (Num (Z.of_nat position + 1)) = String c EmptyString /\
    is_pin_digit c = true /\
    (Z.to_nat (digit_val c) - 1)%nat = position.
Proof.
  intros H.
  do 9 (destruct position as [|position];
        [eexists; split; [vm_compute; reflexivity|split; reflexivity]|]).
  lia.
Qed.

Lemma encodeDigits_spec (matrix : list number) :
  List.length matrix = 9%nat ->
  (forall d, 1 <= d <= 9 -> In (Num d) matrix) ->
  forall (pin encoded : string),
    all_chars is_pin_digit pin = true ->
    exists positions : string,
      encodeDigits pin matrix encoded = encoded ++ positions /\
      String.length positions = String.length pin /\
      all_chars is_pin_digit positions = true /\
      map (cellAt matrix) (list_ascii_of_string positions) = pinDigits pin.
Proof.
  intros Hlen Hall. induction pin as [|c rest IH]; intros encoded Hpin.
  - exists "". rewrite append_empty_r. repeat split.
  - cbn [all_chars] in Hpin. apply andb_prop in Hpin. destruct Hpin as [Hc Hrest].
    cbn [encodeDigits]. rewrite (parseInt_pin_digit c Hc).
    destruct (indexOf_In (digit_val c) matrix (Hall _ (pin_digit_val c Hc)))
      as (p & Hp & Hlt & Hnth).
    rewrite Hp. rewrite Hlen in Hlt.
    destruct (position_char p Hlt) as (pc & Hpc & Hpd & Hpos).
    rewrite Hpc.
    destruct (IH (encoded ++ String pc EmptyString) Hrest) as (ps & Hps & Hl & Hd & Hm).
    exists (String pc ps). rewrite Hps, append_assoc. cbn [append].
    split; [reflexivity|]. split; [cbn [String.length]; rewrite Hl; reflexivity|].
    split; [cbn [all_chars]; rewrite Hpd, Hd; reflexivity|].
    cbn [list_ascii_of_string map]. unfold pinDigits. cbn [list_ascii_of_string map].
    f_equal; [|exact Hm]. unfold cellAt. rewrite Hpos. exact Hnth.
Qed.

(** X22: [encodePin] throws on a PIN that [isValidPin] refuses and returns the
    PIN as it is when no matrix is given.  With a matrix of nine cells that
    holds every digit from 1 to 9, it returns a valid PIN of the same length
    whose digits are the positions, counted from 1, of the cells that hold the
    digits of the PIN: reading the cells at these positions gives the PIN
    back. *)
Theorem encodePin_positions (pin : string) :
  if isValidPin pin then
    encodePin pin None = Ok pin /\
    forall matrix : list number,
      List.length matrix = 9%nat ->
      (forall d, 1 <= d <= 9 -> In (Num d) matrix) ->
      exists encoded : string,
        encodePin pin (Some matrix) = Ok encoded /\
        isValidPin encoded = true /\
        String.length encoded = String.length pin /\
        map (cellAt matrix) (list_ascii_of_string encoded) = pinDigits pin
  else
    forall matrix : option (list number),
      encodePin pin matrix
      = Throw (Error "Invalid PIN format. PIN must be 1-9 digits, each between 1-9.").
Proof.
  destruct (isValidPin pin) eqn:Hv.
  - split; [unfold encodePin; rewrite Hv; reflexivity|].
    intros matrix Hlen Hall. unfold encodePin. rewrite Hv. cbn [negb].
    unfold isValidPin in Hv.
    destruct (falsy_string pin || (String.length pin <? 1)%nat || (9 <? String.length pin)%nat)
      eqn:Hguard; [discriminate|].
    apply andb_prop in Hv. destruct Hv as [Hne Hd].
    destruct (encodeDigits_spec matrix Hlen Hall pin "" Hd) as (ps & Hps & Hl & Hpd & Hm).
    cbn [append] in Hps. exists ps. split; [rewrite Hps; reflexivity|].
    split; [|split; [exact Hl|exact Hm]].
    unfold isValidPin. rewrite Hl.
    assert (Hf : falsy_string ps = falsy_string pin).
    { unfold falsy_string. destruct ps, pin; try reflexivity; discriminate Hl. }
    rewrite Hf, Hguard, Hpd.
    unfold falsy_string in Hf. rewrite Hf. exact (andb_true_intro (conj Hne eq_refl)).
  - intros matrix. unfold encodePin. rewrite Hv. reflexivity.
Qed.

Lemma encodePin_positions_witness :
  exists encoded : string,
    encodePin "1234" (Some (map Num [3; 6; 9; 2; 5; 8; 1; 4; 7])) = Ok encoded /\
    isValidPin encoded = true /\
    String.length encoded = 4%nat /\
    map (cellAt (map Num [3; 6; 9; 2; 5; 8; 1; 4; 7])) (list_ascii_of_string encoded)
    = pinDigits "1234".
Proof.
  refine (proj2 (encodePin_positions "1234") (map Num [3; 6; 9; 2; 5; 8; 1; 4; 7]) eq_refl _).
  intros d Hd. cbn [map In].
  assert (d = 1 \/ d = 2 \/ d = 3 \/ d = 4 \/ d = 5 \/ d = 6 \/ d = 7 \/ d = 8 \/ d = 9) by lia.
  intuition (subst; auto 10).
Defined.

End PinFacts.

(** ** The node on top of the client *)

Module NodeFacts.
Import Js Constants Http KeepKeyClient Operations Traffic KeepKeyNode.

Ltac run := unfold bind, try_catch, get, put, ret, throw, lift, fetch.

Section WithServer.
Context {W : Type} (srv : server W).

(** X23: the client that [execute] builds for a connection type other than
    [bridge] does not use the Desktop URL of the node: whatever this parameter
    is, and whatever operations are called, every request goes to the list of
    the devices or to the call of [http://localhost:1646]. *)
Theorem node_desktop_url_unused (connectionType bridgeUrl desktopUrl : string)
  (ops : list client_op) (w : io W) :
  String.eqb connectionType "bridge" = false ->
  let client := KeepKeyClient.new (nodeConfig connectionType bridgeUrl desktopUrl) in
  exists rs : list request,
    log (snd (run_clients srv ops client w)) = (log w ++ rs)%list /\
    Forall (fun r => req_url r = "http://localhost:1646/devices" \/
                     req_url r = "http://localhost:1646/call") rs.
Proof.
  intros Hct. cbv zeta.
  set (client := KeepKeyClient.new (nodeConfig connectionType bridgeUrl desktopUrl)).
  destruct (ClientLifecycleFacts.sends_run_clients srv (config client) ops client w eq_refl)
    as (_ & rs & Hlog & Hrs).
  exists rs. split; [exact Hlog|].
  assert (Hs : switch (KeepKeyClient.connectionType (config client)) = CaseDesktop).
  { unfold client, nodeConfig. rewrite Hct. reflexivity. }
  assert (Hb : desktopBase (config client) = "http://localhost:1646").
  { unfold client, nodeConfig. rewrite Hct. reflexivity. }
  eapply Forall_impl; [|exact Hrs].
  intros r Hr. destruct Hr as [H|ty ps H|H|p q H|s ty ps H];
    try (rewrite Hs in H; discriminate H).
  - left. cbn [req_url]. rewrite Hb. reflexivity.
  - right. unfold desktopCallRequest. cbn [req_url]. rewrite Hb. reflexivity.
Qed.

(** X24: the operation [enterPin] of the node sends the PIN as it was typed,
    and only a PIN that [isValidPin] accepts: on another one it throws without
    a request.  What the device answers to the PIN is not looked at: whenever
    [sendPin] returns, the operation reports [pin_entered]. *)
Theorem node_enterPin (pin : string) (self : t) (w : io W) :
  if PinUtils.isValidPin pin then
    object (enterPin srv pin self w) = object (sendPin srv pin self w) /\
    world (enterPin srv pin self w) = world (sendPin srv pin self w) /\
    outcome (enterPin srv pin self w)
    = match outcome (sendPin srv pin self w) with
      | Ok _ => Ok (JObj [("status", JStr "pin_entered")])
      | Throw e => Throw e
      end
  else
    enterPin srv pin self w = (Throw (NodeOperationError "Invalid PIN format"), self, w).
Proof.
  unfold enterPin, PinUtils.encodePin.
  destruct (PinUtils.isValidPin pin); cbn [negb]; [|reflexivity].
  run. unfold object, world, outcome.
  destruct (sendPin srv pin self w) as [[[r|e] x] w']; repeat split.
Qed.

End WithServer.

Lemma node_desktop_url_unused_witness :
  exists rs : list request,
    log (snd (run_clients Simulation.daemon [Connect; GetFeatures; Disconnect]
                (KeepKeyClient.new (nodeConfig "desktop" "" "http://desk.example:9000"))
                (Simulation.start "id")))
    = (log (Simulation.start "id") ++ rs)%list /\
    Forall (fun r => req_url r = "http://localhost:1646/devices" \/
                     req_url r = "http://localhost:1646/call") rs.
Proof.
  exact (node_desktop_url_unused Simulation.daemon "desktop" "" "http://desk.example:9000"
           [Connect; GetFeatures; Disconnect] (Simulation.start "id") eq_refl).
Defined.

End NodeFacts.

(** ** The THORChain memo and asset strings *)

Module SwapFacts.
Import Js SwapUtils JsFacts DerivationPathFacts.

Lemma toString_free_of_colon (z : Z) : free_of ":" (toString (Num z)) = true.
Proof.
  unfold free_of.
  apply (all_chars_weaken numeral_char); [|apply DerivationTemplateFacts.toString_numeral].
  intros c H. unfold numeral_char, is_digit in H.
  destruct c as [[] [] [] [] [] [] [] []]; cbn in *; try discriminate; reflexivity.
Qed.

Lemma truthy_Some (s : string) : s <> "" -> truthy (Some s) = Some s.
Proof.
  intros H. unfold truthy, falsy_string. destruct (String.eqb_spec s ""); [contradiction|reflexivity].
Qed.

Lemma truthy_cases (s : option string) :
  (truthy s = None) \/ (exists a, truthy s = Some a /\ s = Some a /\ a <> "").
Proof.
  destruct s as [a|]; [|left; reflexivity]. unfold truthy, falsy_string.
  destruct (String.eqb_spec a ""); [left; reflexivity|right; exists a; auto].
Qed.

(** X25: [parseThorchainSwapMemo] reads back what [createThorchainSwapMemo]
    wrote, when the asset, the address and the affiliate hold no colon: the
    action [SWAP], the asset, the address and the limit, and the affiliate
    when one is given and not empty, then with its fee, 0 when none is given.
    A fee without an affiliate is not written. *)
Theorem thorchain_memo_round_trip (asset dest : string) (limit : option Z)
  (affiliate : option string) (fee : option Z) :
  free_of ":" asset = true ->
  free_of ":" dest = true ->
  (forall a, affiliate = Some a -> free_of ":" a = true) ->
  (forall z, limit = Some z \/ fee = Some z -> safe_integer z) ->
  parseThorchainSwapMemo
    (createThorchainSwapMemo
       (mkMemoParams asset dest (option_map Num limit) affiliate (option_map Num fee)))
  = mkParsedMemo "SWAP"
      asset
      (Some dest)
      (option_map Num limit)
      (truthy affiliate)
      (match truthy affiliate with
       | Some _ => Some (Num (match fee with Some f => f | None => 0 end))
       | None => None
       end).
Proof.
  intros Ha Hd Haf _.
  unfold createThorchainSwapMemo, parseThorchainSwapMemo.
  cbn [mp_asset mp_destinationAddress mp_limit mp_affiliate mp_affiliateFee].
  set (l := match option_map Num limit with Some l => toString l | None => "" end).
  assert (Hl : free_of ":" l = true).
  { unfold l. destruct limit; [apply toString_free_of_colon|reflexivity]. }
  assert (Hlimit : option_map parseInt (truthy (Some l)) = option_map Num limit).
  { unfold l. destruct limit as [z|]; cbn [option_map]; [|reflexivity].
    rewrite DerivationTemplateFacts.truthy_toString. cbn [option_map].
    rewrite DerivationTemplateFacts.parseInt_toString. reflexivity. }
  assert (Hasset : match truthy (Some asset) with Some a => a | None => "" end = asset).
  { unfold truthy, falsy_string. destruct (String.eqb_spec asset ""); [congruence|reflexivity]. }
  replace (match option_map Num limit with
           | Some l0 => (["SWAP"; asset; dest] ++ [toString l0])%list
           | None => (["SWAP"; asset; dest] ++ [""])%list
           end) with ["SWAP"; asset; dest; l]
    by (unfold l; destruct limit; reflexivity).
  destruct (truthy_cases affiliate) as [Hn|(a & Ht & -> & Hne)]; rewrite ?Hn, ?Ht.
  - rewrite split_concat; [|discriminate|repeat constructor; assumption].
    cbn [nth nth_error String.eqb Ascii.eqb Bool.eqb orb].
    rewrite Hasset, Hlimit. reflexivity.
  - set (f := match truthy (option_map toString (option_map Num fee)) with
              | Some x => x | None => "0" end).
    assert (Hf : free_of ":" f = true /\
                 option_map parseInt (truthy (Some f))
                 = Some (Num (match fee with Some v => v | None => 0 end))).
    { unfold f. destruct fee as [v|]; cbn [option_map].
      - rewrite DerivationTemplateFacts.truthy_toString. split; [apply toString_free_of_colon|].
        rewrite DerivationTemplateFacts.truthy_toString. cbn [option_map].
        rewrite DerivationTemplateFacts.parseInt_toString. reflexivity.
      - split; reflexivity. }
    destruct Hf as [Hf1 Hf2].
    cbn [app].
    pose proof (Haf a eq_refl) as Hafa.
    rewrite split_concat; [|discriminate|repeat constructor; assumption].
    cbn [nth nth_error String.eqb Ascii.eqb Bool.eqb orb].
    rewrite Hasset, Hlimit, Hf2, (truthy_Some a Hne). reflexivity.
Qed.

Lemma thorchain_memo_round_trip_witness :
  parseThorchainSwapMemo
    (createThorchainSwapMemo
       (mkMemoParams "ETH.ETH" "0x742d35Cc6634C0532925a3b844Bc9e7595f1b2b1"
                     (Some (Num 1000000)) (Some "ss") None))
  = mkParsedMemo "SWAP" "ETH.ETH" (Some "0x742d35Cc6634C0532925a3b844Bc9e7595f1b2b1")
                 (Some (Num 1000000)) (Some "ss") (Some (Num 0)).
Proof.
  refine (thorchain_memo_round_trip "ETH.ETH" "0x742d35Cc6634C0532925a3b844Bc9e7595f1b2b1"
            (Some 1000000) (Some "ss") None eq_refl eq_refl _ _).
  - intros a H. injection H as <-. reflexivity.
  - intros z [H|H]; [injection H as <-; unfold safe_integer; lia|discriminate H].
Defined.

Lemma indexOfChar_free (c : ascii) (s : string) :
  free_of c s = true -> indexOfChar c s = None.
Proof.
  unfold free_of. induction s as [|x r IH]; cbn [all_chars indexOfChar]; [reflexivity|].
  intros H. apply andb_prop in H. destruct H as [Hx Hr].
  apply negb_true_iff in Hx. rewrite Hx, (IH Hr). reflexivity.
Qed.

Lemma indexOfChar_app (c : ascii) (s rest : string) :
  free_of c s = true ->
  indexOfChar c (s ++ String c rest) = Some (String.length s).
Proof.
  unfold free_of. induction s as [|x r IH]; cbn [all_chars indexOfChar append String.length].
  - intros _. rewrite Ascii.eqb_refl. reflexivity.
  - intros H. apply andb_prop in H. destruct H as [Hx Hr].
    apply negb_true_iff in Hx. rewrite Hx, (IH Hr). reflexivity.
Qed.

Lemma substring_app (s rest : string) : substring 0 (String.length s) (s ++ rest) = s.
Proof.
  induction s as [|x r IH]; cbn [String.length append substring].
  - destruct rest; reflexivity.
  - rewrite IH. reflexivity.
Qed.

Lemma drop_app (s rest : string) : drop (String.length s) (s ++ rest) = rest.
Proof.
  induction s as [|x r IH]; cbn [String.length append drop]; [destruct rest; reflexivity|apply IH].
Qed.

(** X26: [parseThorchainAsset] reads back the chain, the symbol and the
    contract address that [formatThorchainAsset] wrote, when the chain and the
    contract address hold no dot and the symbol is not empty and holds neither
    a dot nor a dash; an empty contract address is not written. *)
Theorem thorchain_asset_round_trip (chain symbol : string) (contractAddress : option string) :
  free_of "." chain = true ->
  free_of "." symbol = true ->
  free_of "-" symbol = true ->
  symbol <> "" ->
  (forall c, contractAddress = Some c -> free_of "." c = true) ->
  parseThorchainAsset (formatThorchainAsset chain symbol contractAddress)
  = mkParsedAsset chain symbol (truthy contractAddress).
Proof.
  intros Hc Hs Hd Hne Hca.
  unfold formatThorchainAsset, parseThorchainAsset.
  destruct (truthy_cases contractAddress) as [Hn|(c & Ht & -> & Hcne)]; rewrite ?Hn, ?Ht.
  - change (chain ++ "." ++ symbol) with (chain ++ String "." symbol).
    rewrite split_app_sep by exact Hc. rewrite split_no_sep by exact Hs.
    cbn [nth nth_error]. rewrite (truthy_Some symbol Hne).
    rewrite (indexOfChar_free "-" symbol Hd). reflexivity.
  - change (chain ++ "." ++ symbol ++ "-" ++ c) with (chain ++ String "." (symbol ++ "-" ++ c)).
    pose proof (Hca c eq_refl) as Hcc.
    assert (Hrest : free_of "." (symbol ++ "-" ++ c) = true).
    { unfold free_of in *. rewrite all_chars_app, Hs. cbn [append all_chars].
      rewrite Hcc. reflexivity. }
    rewrite split_app_sep by exact Hc. rewrite split_no_sep by exact Hrest.
    cbn [nth nth_error].
    assert (Hrne : symbol ++ "-" ++ c <> "") by (destruct symbol; [congruence|discriminate]).
    rewrite (truthy_Some _ Hrne).
    change (symbol ++ "-" ++ c) with (symbol ++ String "-" c).
    rewrite (indexOfChar_app "-" symbol c Hd).
    destruct (String.length symbol) as [|d] eqn:Hlen; [destruct symbol; [congruence|discriminate]|].
    rewrite <- Hlen. rewrite substring_app.
    replace (String.length symbol + 1)%nat with (String.length (symbol ++ "-"))
      by (clear; induction symbol; cbn [String.length append] in *; [reflexivity|lia]).
    change (symbol ++ String "-" c) with (symbol ++ ("-" ++ c)).
    rewrite <- append_assoc, drop_app. reflexivity.
Qed.

Lemma thorchain_asset_round_trip_witness :
  parseThorchainAsset
    (formatThorchainAsset "ETH" "USDC" (Some "0xA0b86991c6218b36c1d19D4a2e9Eb0cE3606eB48"))
  = mkParsedAsset "ETH" "USDC" (Some "0xA0b86991c6218b36c1d19D4a2e9Eb0cE3606eB48").
Proof.
  refine (thorchain_asset_round_trip "ETH" "USDC"
            (Some "0xA0b86991c6218b36c1d19D4a2e9Eb0cE3606eB48") eq_refl eq_refl eq_refl _ _).
  - discriminate.
  - intros c H. injection H as <-. reflexivity.
Defined.

End SwapFacts.

(** ** The code on the inputs of its tests *)

Module Examples.
Import Js DerivationPaths UsbTransport.

Example pathStringToArray_bip44 :
  pathStringToArray "m/44'/0'/0'/0/0" =
  [Num (44 + 0x80000000); Num 0x80000000; Num 0x80000000; Num 0; Num 0].
Proof. vm_compute. reflexivity. Qed.

Example pathArrayToString_bip44 :
  pathArrayToString [Num (44 + 0x80000000); Num 0x80000000; Num 0x80000000; Num 0; Num 0]
  = "m/44'/0'/0'/0/0".
Proof. vm_compute. reflexivity. Qed.

Example pathArrayToString_normalises_h :
  pathArrayToString (pathStringToArray "m/44h/0") = "m/44'/0".
Proof. vm_compute. reflexivity. Qed.

Example toString_max_index : toString (Num 4294967295) = "4294967295".
Proof. vm_compute. reflexivity. Qed.

Example specFrame_one_byte :
  specFrame 0 [0x41] = [ ([0x3f; 0; 0; 0; 0; 0; 1; 0x41] ++ repeat 0 56)%list ].
Proof. vm_compute. reflexivity. Qed.

Example framePackets_two_packets :
  option_map (@List.length Buffer)
             (match framePackets 17 (repeat 7 57) with Ok ps => Some ps | Throw _ => None end)
  = Some 2%nat.
Proof. vm_compute. reflexivity. Qed.

End Examples.
